(** * Sales analytics system: a shallow embedding and its verified properties

    The development follows the Python sources
      - [utils/file_handler.py]   (reading, parsing, validation and filtering),
      - [utils/data_processor.py] (the aggregation functions),
      - [utils/api_handler.py]    (catalog index, enrichment, snapshot file,
                                   the tables of the report),
      - [main.py]                 (the pipeline up to the report).

    Data is modelled the way the code holds it:
      - a transaction is the dictionary built by [parse_transactions]: a record
        of its eight fields, [Quantity] a Python [int] (here [Z]) and
        [UnitPrice] a Python [float]; all eight keys are always set, so the
        defaults of [tx.get(key, default)] in the sources are never used;
      - Python's [float] is IEEE 754 binary64, here Rocq's primitive [float],
        whose operations are the processor's; the arithmetic the code uses is
        gathered in the class [Arith], so that the same definitions can also be
        read over exact rationals when a statement only holds without rounding;
      - a [dict] whose iteration order matters (the per-region, per-product and
        per-day groupings) is an association list in insertion order; the
        catalog index, only ever looked up, is a [gmap]; the sets of customer
        ids are [gset]s;
      - strings are Rocq strings, that is sequences of characters with codes
        0..255; in that range the regular expression class [\d] of Python 3
        matches exactly the characters '0'..'9';
      - a function that can raise returns a [res]; the one exception left to
        a side condition is the [OverflowError] of converting a quantity that
        does not fit a float ([int_fits_float]): [main] is modelled with it,
        the other functions are described for the quantities that fit. *)

From Stdlib Require Import ZArith List String Ascii Bool Lia Permutation Sorted.
From Stdlib Require Import Floats QArith Qcanon DecimalString.
From stdpp Require Import gmap strings.
Import ListNotations.

Set Implicit Arguments.
Local Open Scope string_scope.
Local Open Scope list_scope.
Local Open Scope Z_scope.

(** ** Exceptions *)

Inductive exn : Type :=
| ValueError
| ZeroDivisionError
| OverflowError.

Inductive res (A : Type) : Type :=
| Ret (a : A)
| Raise (e : exn).

Arguments Ret {A} a.
Arguments Raise {A} e.

Definition bind {A B : Type} (m : res A) (k : A -> res B) : res B :=
  match m with
  | Ret a => k a
  | Raise e => Raise e
  end.

(** ** Arithmetic on amounts *)

(** The operations the sources apply to [UnitPrice] and to the amounts derived
    from it.  [of_int] is the conversion Python applies to the [int] operand of
    a mixed [int]/[float] operation; the literal [0.0] is [of_int 0]. *)
Class Arith (F : Type) : Type := {
  of_int : Z -> F;
  fadd : F -> F -> F;
  fmul : F -> F -> F;
  fdiv : F -> F -> F;
  fltb : F -> F -> bool;
  fleb : F -> F -> bool;
  round2 : F -> F
}.

Declare Scope arith_scope.
Delimit Scope arith_scope with ar.
Infix "+!" := fadd (at level 50, left associativity) : arith_scope.
Infix "*!" := fmul (at level 40, left associativity) : arith_scope.
Infix "/!" := fdiv (at level 40, left associativity) : arith_scope.
Infix "<!" := fltb (at level 70, no associativity) : arith_scope.
Infix "<=!" := fleb (at level 70, no associativity) : arith_scope.
Local Open Scope arith_scope.

(** *** binary64, the arithmetic of the program *)

(** [float(z)]: the double nearest to [z], ties to even, and an infinity
    where CPython raises [OverflowError] ([int_fits_float] tells the two
    apart; a quantity of that size has more than 308 digits). *)
Definition float_of_int (z : Z) : float :=
  SF2Prim (binary_normalize prec emax z 0 false).

(** Whether CPython converts the int [z] to a float, as it does before it
    multiplies or divides an int and a float: the conversion raises
    [OverflowError] exactly when the nearest double would be 2^1024 or
    beyond, that is from 2^1024 - 2^970 on, where [float_of_int] gives an
    infinity.  The aggregation functions and the validator are described
    for the quantities that fit; [main] is described with the exception. *)
Definition int_fits_float (z : Z) : bool := negb (is_infinity (float_of_int z)).

(** The integer nearest to [n / d], ties to even, for [0 < d]. *)
Definition round_half_even (n d : Z) : Z :=
  let q := n / d in
  match 2 * (n mod d) ?= d with
  | Lt => q
  | Gt => q + 1
  | Eq => if Z.even q then q else q + 1
  end.

(** [round(x, 2)] of a float: CPython rounds the exact value of [x] to two
    decimals (ties to even) and converts that decimal back to the nearest
    double; infinities and NaN are returned as they are. *)
Definition float_round2 (x : float) : float :=
  match Prim2SF x with
  | S754_finite s m e =>
      let n := Z.pos m * 100 in
      let k := if 0 <=? e then n * 2 ^ e else round_half_even n (2 ^ (- e)) in
      match k with
      | Z.pos k' => SF2Prim (SFdiv prec emax (S754_finite s k' 0) (S754_finite false 100 0))
      | _ => if s then neg_zero else zero
      end
  | _ => x
  end.

#[export] Instance binary64 : Arith float := {|
  of_int := float_of_int;
  fadd := PrimFloat.add;
  fmul := PrimFloat.mul;
  fdiv := PrimFloat.div;
  fltb := PrimFloat.ltb;
  fleb := PrimFloat.leb;
  round2 := float_round2
|}.

(** *** exact rationals, the arithmetic without rounding *)

Definition Qc_round2 (x : Qc) : Qc :=
  let y := (this x * inject_Z 100)%Q in
  Q2Qc (Qmake (round_half_even (Qnum y) (Z.pos (Qden y))) 100).

#[export] Instance exact : Arith Qc := {|
  of_int := fun z => Q2Qc (inject_Z z);
  fadd := Qcplus;
  fmul := Qcmult;
  fdiv := Qcdiv;
  fltb := fun x y => negb (Qle_bool (this y) (this x));
  fleb := fun x y => Qle_bool (this x) (this y);
  round2 := Qc_round2
|}.

(** Addition without rounding: what the spec's sums over amounts presuppose. *)
Definition ExactAdd (F : Type) (A : Arith F) : Prop :=
  (forall x y z : F, x +! (y +! z) = (x +! y) +! z) /\
  (forall x y : F, x +! y = y +! x) /\
  (forall x : F, of_int 0 +! x = x).

(** ** Strings *)

(** [s.startswith(p)] *)
Definition startswith (s p : string) : bool := String.prefix p s.

Definition is_digit (c : ascii) : bool :=
  let n := N_of_ascii c in (N.leb 48 n && N.leb n 57)%bool.

(** The longest run of digits at the head of [s]. *)
Fixpoint digits_prefix (s : string) : string :=
  match s with
  | String c s' => if is_digit c then String c (digits_prefix s') else EmptyString
  | EmptyString => EmptyString
  end.

(** [re.search(r'\d+', s)]: the leftmost match, each as long as it can be;
    [None] when [s] has no digit.  The result is [match.group()]. *)
Fixpoint re_search_digits (s : string) : option string :=
  match s with
  | String c s' => if is_digit c then Some (digits_prefix s) else re_search_digits s'
  | EmptyString => None
  end.

Definition digit_value (c : ascii) : Z := Z.of_N (N_of_ascii c) - 48.

Fixpoint digits_value (acc : Z) (s : string) : Z :=
  match s with
  | String c s' => digits_value (10 * acc + digit_value c) s'
  | EmptyString => acc
  end.

(** [sys.int_max_str_digits]: CPython 3.11 and later (and the security
    releases of 3.7 to 3.10) refuse to convert a decimal string longer than
    this, with [ValueError]. *)
Definition int_max_str_digits : nat := 4300.

(** [int(s)] for a string of digits [s]. *)
Definition py_int (s : string) : res Z :=
  if (int_max_str_digits <? String.length s)%nat then Raise ValueError
  else Ret (digits_value 0 s).

(** [str(z)] of an [int]. *)
Definition str_int (z : Z) : string := NilZero.string_of_int (Z.to_int z).

(** [sep.join(l)] *)
Fixpoint join (sep : string) (l : list string) : string :=
  match l with
  | [] => ""
  | [s] => s
  | s :: l' => (s ++ sep ++ join sep l')%string
  end.

(** ** Built-ins on lists *)

(** [len(l)] *)
Definition len {A : Type} (l : list A) : Z := Z.of_nat (length l).

(** [l[:n]]: a negative [n] counts from the end. *)
Definition slice_to {A : Type} (n : Z) (l : list A) : list A :=
  if 0 <=? n then firstn (Z.to_nat n) l
  else firstn (Z.to_nat (len l + n)) l.

Section Sorting.
Variables (A K : Type) (lt : K -> K -> bool) (key : A -> K).

(** [sorted] compares keys with [<] only and is stable: elements whose keys
    do not order them keep their relative order.  [x] stood before all of
    [l] in the input.  This is the list CPython returns whenever [<] is a
    strict weak order on the keys that occur.  Where it is not, as with a NaN
    among floats, the place CPython gives an element depends on its merge
    strategy and is not the one the insertion gives it here: what is stated
    of the order of a list sorted by amounts assumes that no key is NaN. *)
Fixpoint insert_asc (x : A) (l : list A) : list A :=
  match l with
  | [] => [x]
  | y :: l' => if lt (key y) (key x) then y :: insert_asc x l' else x :: l
  end.

Fixpoint insert_desc (x : A) (l : list A) : list A :=
  match l with
  | [] => [x]
  | y :: l' => if lt (key x) (key y) then y :: insert_desc x l' else x :: l
  end.

(** [sorted(l, key=key)] *)
Definition sorted (l : list A) : list A := fold_right insert_asc [] l.

(** [sorted(l, key=key, reverse=True)] *)
Definition sorted_reverse (l : list A) : list A := fold_right insert_desc [] l.

(** [max(l, key=key)]: the first element whose key no later one exceeds;
    [ValueError] on an empty sequence. *)
Fixpoint max_from (best : A) (l : list A) : A :=
  match l with
  | [] => best
  | x :: l' => max_from (if lt (key best) (key x) then x else best) l'
  end.

Definition py_max (l : list A) : res A :=
  match l with
  | [] => Raise ValueError
  | x :: l' => Ret (max_from x l')
  end.
End Sorting.

(** ** Dictionaries in insertion order *)

Section OrderedDict.
Variable V : Type.

(** [k in d] *)
Definition od_mem (k : string) (d : list (string * V)) : bool :=
  existsb (fun kv => String.eqb (fst kv) k) d.

(** [d[k] = f(d[k])] for a key that is present: the entry keeps its place. *)
Fixpoint od_update (k : string) (f : V -> V) (d : list (string * V)) : list (string * V) :=
  match d with
  | [] => []
  | (k', v) :: d' =>
      if String.eqb k' k then (k', f v) :: d' else (k', v) :: od_update k f d'
  end.

(** [if k not in d: d[k] = v0]: a new key goes last. *)
Definition od_setdefault (k : string) (v0 : V) (d : list (string * V)) : list (string * V) :=
  if od_mem k d then d else d ++ [(k, v0)].
End OrderedDict.

(** ** Transactions *)

(** The dictionary [parse_transactions] builds for a data line. *)
Record Transaction (F : Type) : Type := {
  TransactionID : string;
  Date : string;
  ProductID : string;
  ProductName : string;
  Quantity : Z;
  UnitPrice : F;
  CustomerID : string;
  Region : string
}.

Section Program.
Context {F : Type} {A : Arith F}.

Local Abbreviation Tx := (Transaction F).

(** [tx["Quantity"] * tx["UnitPrice"]], for a quantity that converts to a
    float.  In binary64 the conversion raises [OverflowError] for a quantity
    that does not fit ([int_fits_float]), and the function that computes the
    amount ends there: what is stated of a function that computes amounts is
    stated of the value it returns, or for quantities that fit. *)
Definition amount (tx : Tx) : F := of_int (Quantity tx) *! UnitPrice tx.

(** *** file_handler.py *)

(** The condition under which step 1 of [validate_and_filter] drops [tx]. *)
Definition is_invalid (tx : Tx) : bool :=
  (Quantity tx <=? 0)
  || (UnitPrice tx <=! of_int 0)
  || negb (startswith (TransactionID tx) "T")
  || negb (startswith (ProductID tx) "P")
  || negb (startswith (CustomerID tx) "C").

(** One turn of the validation loop on [(invalid_count, valid_transactions)]. *)
Definition validation_step (st : Z * list Tx) (tx : Tx) : Z * list Tx :=
  let '(invalid_count, valid_transactions) := st in
  if is_invalid tx then (invalid_count + 1, valid_transactions)
  else (invalid_count, valid_transactions ++ [tx]).

Record FilterSummary : Type := {
  total_input : Z;
  invalid : Z;
  filtered_by_region : Z;
  filtered_by_amount : Z;
  final_count : Z
}.

(** [if region:] holds for a string that is not empty. *)
Definition region_given (region : option string) : option string :=
  match region with
  | Some r => if String.eqb r "" then None else Some r
  | None => None
  end.

(** [validate_and_filter(transactions, region, min_amount, max_amount)];
    [None] is Python's [None].  Steps 2 and 3 of the source only print; step 3
    multiplies the quantity of every valid transaction by its price, which
    raises [OverflowError] for a quantity that does not fit a float
    ([int_fits_float]): the definition gives what the call returns when it
    returns. *)
Definition validate_and_filter (transactions : list Tx) (region : option string)
    (min_amount max_amount : option F) : list Tx * Z * FilterSummary :=
  let total_input := len transactions in
  let '(invalid_count, valid0) := fold_left validation_step transactions (0, []) in
  let '(valid1, filtered_by_region) :=
    match region_given region with
    | Some r =>
        let before := len valid0 in
        let kept := List.filter (fun tx => String.eqb (Region tx) r) valid0 in
        (kept, before - len kept)
    | None => (valid0, 0)
    end in
  let '(valid2, filtered_by_amount) :=
    match min_amount with
    | Some lo =>
        let before := len valid1 in
        let kept := List.filter (fun tx => lo <=! amount tx) valid1 in
        (kept, 0 + (before - len kept))
    | None => (valid1, 0)
    end in
  let '(valid3, filtered_by_amount) :=
    match max_amount with
    | Some hi =>
        let before := len valid2 in
        let kept := List.filter (fun tx => amount tx <=! hi) valid2 in
        (kept, filtered_by_amount + (before - len kept))
    | None => (valid2, filtered_by_amount)
    end in
  (valid3, invalid_count,
   {| total_input := total_input;
      invalid := invalid_count;
      filtered_by_region := filtered_by_region;
      filtered_by_amount := filtered_by_amount;
      final_count := len valid3 |}).

(** *** data_processor.py *)

Definition calculate_total_revenue (transactions : list Tx) : F :=
  fold_left (fun total tx => total +! amount tx) transactions (of_int 0).

Record RegionStats : Type := {
  total_sales : F;
  transaction_count : Z;
  percentage : F
}.

(** Step 1 of [region_wise_sales], one transaction. *)
Definition region_step (region_stats : list (string * RegionStats)) (tx : Tx)
    : list (string * RegionStats) :=
  let region := Region tx in
  let amount := amount tx in
  let region_stats :=
    od_setdefault region
      {| total_sales := of_int 0; transaction_count := 0; percentage := of_int 0 |}
      region_stats in
  od_update region
    (fun stats => {| total_sales := total_sales stats +! amount;
                     transaction_count := transaction_count stats + 1;
                     percentage := percentage stats |})
    region_stats.

(** Step 2: the percentage is only written when the total revenue is positive. *)
Definition set_percentage (total_revenue : F) (stats : RegionStats) : RegionStats :=
  if of_int 0 <! total_revenue then
    {| total_sales := total_sales stats;
       transaction_count := transaction_count stats;
       percentage := round2 ((total_sales stats /! total_revenue) *! of_int 100) |}
  else stats.

Definition region_wise_sales (transactions : list Tx) : list (string * RegionStats) :=
  let total_revenue := calculate_total_revenue transactions in
  let region_stats := fold_left region_step transactions [] in
  let region_stats :=
    map (fun kv => (fst kv, set_percentage total_revenue (snd kv))) region_stats in
  sorted_reverse fltb (fun kv => total_sales (snd kv)) region_stats.

Record ProductStats : Type := {
  total_qty : Z;
  total_revenue : F
}.

(** Step 1 of [top_selling_products] and of [low_performing_products]. *)
Definition product_step (product_stats : list (string * ProductStats)) (tx : Tx)
    : list (string * ProductStats) :=
  let product := ProductName tx in
  let qty := Quantity tx in
  let revenue := amount tx in
  let product_stats :=
    od_setdefault product {| total_qty := 0; total_revenue := of_int 0 |} product_stats in
  od_update product
    (fun stats => {| total_qty := total_qty stats + qty;
                     total_revenue := total_revenue stats +! revenue |})
    product_stats.

Definition product_triple (kv : string * ProductStats) : string * Z * F :=
  (fst kv, total_qty (snd kv), total_revenue (snd kv)).

Definition top_selling_products (transactions : list Tx) (n : Z) : list (string * Z * F) :=
  let product_stats := fold_left product_step transactions [] in
  let sorted_products :=
    sorted_reverse Z.ltb (fun kv => total_qty (snd kv)) product_stats in
  map product_triple (slice_to n sorted_products).

(** The default of the parameter [n]. *)
Definition top_selling_products_default (transactions : list Tx) : list (string * Z * F) :=
  top_selling_products transactions 5.

(** The per-day entry while it is accumulated, and once the set of customers
    has been replaced by its size. *)
Record DayAcc : Type := {
  acc_revenue : F;
  acc_transaction_count : Z;
  acc_unique_customers : gset string
}.

Record DayStats : Type := {
  revenue : F;
  day_transaction_count : Z;
  unique_customers : Z
}.

Definition daily_step (daily_stats : list (string * DayAcc)) (tx : Tx)
    : list (string * DayAcc) :=
  let date := Date tx in
  let amount := amount tx in
  let cust_id := CustomerID tx in
  let daily_stats :=
    od_setdefault date
      {| acc_revenue := of_int 0; acc_transaction_count := 0; acc_unique_customers := ∅ |}
      daily_stats in
  od_update date
    (fun stats => {| acc_revenue := acc_revenue stats +! amount;
                     acc_transaction_count := acc_transaction_count stats + 1;
                     acc_unique_customers := {[ cust_id ]} ∪ acc_unique_customers stats |})
    daily_stats.

Definition daily_sales_trend (transactions : list Tx) : list (string * DayStats) :=
  let daily_stats := fold_left daily_step transactions [] in
  let daily_stats :=
    map (fun kv => (fst kv,
                    {| revenue := acc_revenue (snd kv);
                       day_transaction_count := acc_transaction_count (snd kv);
                       unique_customers := Z.of_nat (size (acc_unique_customers (snd kv))) |}))
        daily_stats in
  sorted String.ltb fst daily_stats.

Definition find_peak_sales_day (transactions : list Tx) : res (string * F * Z) :=
  let daily_stats := daily_sales_trend transactions in
  bind (py_max fltb (fun kv => revenue (snd kv)) daily_stats)
       (fun peak => Ret (fst peak, revenue (snd peak), day_transaction_count (snd peak))).

Definition low_performing_products (transactions : list Tx) (threshold : Z)
    : list (string * Z * F) :=
  let product_stats := fold_left product_step transactions [] in
  let low_products :=
    map product_triple
        (List.filter (fun kv => total_qty (snd kv) <? threshold) product_stats) in
  sorted Z.ltb (fun t => snd (fst t)) low_products.

Definition low_performing_products_default (transactions : list Tx) : list (string * Z * F) :=
  low_performing_products transactions 10.

End Program.

(** ** api_handler.py *)

(** The values a catalog entry and an enrichment field can hold. *)
Inductive pyval (F : Type) : Type :=
| PyNone
| PyBool (b : bool)
| PyInt (z : Z)
| PyFloat (x : F)
| PyStr (s : string).

Arguments PyNone {F}.
Arguments PyBool {F} b.
Arguments PyInt {F} z.
Arguments PyFloat {F} x.
Arguments PyStr {F} s.

(** An entry of the mapping built by [create_product_mapping]. *)
Record CatalogInfo (F : Type) : Type := {
  title : pyval F;
  category : pyval F;
  brand : pyval F;
  rating : pyval F
}.

(** A product as [fetch_all_products] returns it; [p_id] is [None] when the
    catalog gave none. *)
Record ApiProduct (F : Type) : Type := {
  p_id : option Z;
  p_title : pyval F;
  p_category : pyval F;
  p_brand : pyval F;
  p_price : pyval F;
  p_rating : pyval F
}.

(** A transaction dictionary after enrichment has added its four keys. *)
Record Enriched (F : Type) : Type := {
  base : Transaction F;
  API_Category : pyval F;
  API_Brand : pyval F;
  API_Rating : pyval F;
  API_Match : bool
}.

Section ApiHandler.
Context {F : Type} {A : Arith F}.

(** [str(x)] of a float (the shortest decimal that reads back as [x]). *)
Variable str_float : F -> string.

Local Abbreviation Tx := (Transaction F).

(** [str(v)] *)
Definition py_str (v : pyval F) : string :=
  match v with
  | PyNone => "None"
  | PyBool true => "True"
  | PyBool false => "False"
  | PyInt z => str_int z
  | PyFloat x => str_float x
  | PyStr s => s
  end.

Definition header : list string :=
  ["TransactionID"; "Date"; "ProductID"; "ProductName";
   "Quantity"; "UnitPrice"; "CustomerID"; "Region";
   "API_Category"; "API_Brand"; "API_Rating"; "API_Match"].

Definition base_fields (tx : Tx) : list string :=
  [TransactionID tx; Date tx; ProductID tx; ProductName tx;
   str_int (Quantity tx); str_float (UnitPrice tx); CustomerID tx; Region tx].

(** The row of the first definition of [save_enriched_data] (lines 137-174),
    which the second definition of the same name replaces when the module
    is loaded. *)
Definition row_first_definition (e : Enriched F) : list string :=
  base_fields (base e) ++
  [match API_Category e with PyNone => "" | v => py_str v end;
   match API_Brand e with PyNone => "" | v => py_str v end;
   match API_Rating e with PyNone => "" | v => py_str v end;
   py_str (PyBool (API_Match e))].

(** The row of [save_enriched_data] as the module defines it in the end
    (lines 179-206). *)
Definition row (e : Enriched F) : list string :=
  base_fields (base e) ++
  [py_str (API_Category e); py_str (API_Brand e); py_str (API_Rating e);
   py_str (PyBool (API_Match e))].

(** [save_enriched_data(enriched)]: the strings written to the file, the
    header and then one row for each record, each followed by a newline
    there.  A row is one line of the file unless one of its fields holds a
    line break ([snapshot_file] gives the lines of the file). *)
Definition save_enriched_data (enriched : list (Enriched F)) : list string :=
  join "|" header :: map (fun e => join "|" (row e)) enriched.

Definition save_enriched_data_first_definition (enriched : list (Enriched F)) : list string :=
  join "|" header :: map (fun e => join "|" (row_first_definition e)) enriched.

(** [create_product_mapping(api_products)]: every product whose id is not
    [None] gets an entry, a later one replacing an earlier one of the same id. *)
Definition create_product_mapping (api_products : list (ApiProduct F))
    : gmap Z (CatalogInfo F) :=
  fold_left
    (fun product_map p =>
       match p_id p with
       | Some id =>
           <[ id := {| title := p_title p; category := p_category p;
                       brand := p_brand p; rating := p_rating p |} ]> product_map
       | None => product_map
       end)
    api_products ∅.

Definition no_match (tx : Tx) : Enriched F :=
  {| base := tx; API_Category := PyNone; API_Brand := PyNone;
     API_Rating := PyNone; API_Match := false |}.

(** The body of the [try] in [enrich_sales_data]. *)
Definition enrich_try (product_mapping : gmap Z (CatalogInfo F)) (tx : Tx) : res (Enriched F) :=
  bind (match re_search_digits (ProductID tx) with
        | Some group => bind (py_int group) (fun z => Ret (Some z))
        | None => Ret None
        end)
       (fun product_id =>
          Ret (match product_id with
               | Some id =>
                   if negb (id =? 0) then
                     match product_mapping !! id with
                     | Some api_info =>
                         {| base := tx;
                            API_Category := category api_info;
                            API_Brand := brand api_info;
                            API_Rating := rating api_info;
                            API_Match := true |}
                     | None => no_match tx
                     end
                   else no_match tx
               | None => no_match tx
               end)).

(** One turn of the loop: the [except] branch records the no-match outcome. *)
Definition enrich_one (product_mapping : gmap Z (CatalogInfo F)) (tx : Tx) : Enriched F :=
  match enrich_try product_mapping tx with
  | Ret e => e
  | Raise _ => no_match tx
  end.

(** What a call leaves behind: the snapshot file (the directory and the
    file can be written) and the value returned or the exception raised. *)
Record Outcome : Type := {
  snapshot : list string;
  returned : res (list (Enriched F))
}.

(** [enrich_sales_data(transactions, product_mapping)].  The console summary
    at the end divides by [len(enriched)]. *)
Definition enrich_sales_data (transactions : list Tx)
    (product_mapping : gmap Z (CatalogInfo F)) : Outcome :=
  let enriched := map (enrich_one product_mapping) transactions in
  {| snapshot := save_enriched_data enriched;
     returned := if len enriched =? 0 then Raise ZeroDivisionError else Ret enriched |}.

(** *** generate_sales_report *)

(** An entry of [product_sales]. *)
Record ProductSales : Type := {
  qty : Z;
  sales_revenue : F
}.

(** [product_sales[k]] of the [defaultdict]: a missing key is inserted. *)
Definition product_sales_default (k : string) (d : list (string * ProductSales))
    : list (string * ProductSales) :=
  od_setdefault k {| qty := 0; sales_revenue := of_int 0 |} d.

Definition product_sales_step (product_sales : list (string * ProductSales)) (tx : Tx)
    : list (string * ProductSales) :=
  let product_sales :=
    od_update (ProductName tx)
      (fun stats => {| qty := qty stats + Quantity tx; sales_revenue := sales_revenue stats |})
      (product_sales_default (ProductName tx) product_sales) in
  od_update (ProductName tx)
    (fun stats => {| qty := qty stats; sales_revenue := sales_revenue stats +! amount tx |})
    (product_sales_default (ProductName tx) product_sales).

Definition report_product_sales (transactions : list Tx) : list (string * ProductSales) :=
  fold_left product_sales_step transactions [].

(** Section 4 of the report: [top_products]. *)
Definition report_top_products (transactions : list Tx) : list (string * ProductSales) :=
  slice_to 5
    (sorted_reverse fltb (fun kv => sales_revenue (snd kv)) (report_product_sales transactions)).

(** The rows of the table "TOP 5 PRODUCTS": rank, name, quantity, revenue
    (the report prints them padded, the revenue with thousands separators). *)
Fixpoint enumerate {X : Type} (start : Z) (l : list X) : list (Z * X) :=
  match l with
  | [] => []
  | x :: l' => (start, x) :: enumerate (start + 1) l'
  end.

Definition report_top_products_table (transactions : list Tx) : list (Z * string * Z * F) :=
  map (fun r => (fst r, fst (snd r), qty (snd (snd r)), sales_revenue (snd (snd r))))
      (enumerate 1 (report_top_products transactions)).

(** Section 7 of the report: [low_products] and the line that prints it. *)
Definition report_low_products (transactions : list Tx) : list string :=
  map fst (List.filter (fun kv => qty (snd kv) =? 0) (report_product_sales transactions)).

Definition report_low_products_line (transactions : list Tx) : string :=
  ("Low Performing Products: " ++
   match report_low_products transactions with
   | [] => "None"
   | low_products => join ", " low_products
   end)%string.

(** Section 6 of the report, [daily_sales], and [best_day] of section 7. *)
Definition daily_sales_default (k : string) (d : list (string * DayAcc))
    : list (string * DayAcc) :=
  od_setdefault k
    {| acc_revenue := of_int 0; acc_transaction_count := 0; acc_unique_customers := ∅ |} d.

Definition daily_sales_step (daily_sales : list (string * DayAcc)) (tx : Tx)
    : list (string * DayAcc) :=
  let daily_sales :=
    od_update (Date tx)
      (fun stats => {| acc_revenue := acc_revenue stats +! amount tx;
                       acc_transaction_count := acc_transaction_count stats;
                       acc_unique_customers := acc_unique_customers stats |})
      (daily_sales_default (Date tx) daily_sales) in
  let daily_sales :=
    od_update (Date tx)
      (fun stats => {| acc_revenue := acc_revenue stats;
                       acc_transaction_count := acc_transaction_count stats + 1;
                       acc_unique_customers := acc_unique_customers stats |})
      (daily_sales_default (Date tx) daily_sales) in
  od_update (Date tx)
    (fun stats => {| acc_revenue := acc_revenue stats;
                     acc_transaction_count := acc_transaction_count stats;
                     acc_unique_customers := {[ CustomerID tx ]} ∪ acc_unique_customers stats |})
    (daily_sales_default (Date tx) daily_sales).

Definition report_best_day (transactions : list Tx) : option (string * DayAcc) :=
  match fold_left daily_sales_step transactions [] with
  | [] => None
  | daily_sales =>
      match py_max fltb (fun kv => acc_revenue (snd kv)) daily_sales with
      | Ret best => Some best
      | Raise _ => None
      end
  end.

End ApiHandler.

(** ** Vocabulary of the statements *)

Section Vocabulary.
Context {F : Type} {A : Arith F}.

Local Abbreviation Tx := (Transaction F).

(** The keys of a list in the order in which each is first seen. *)
Definition first_seen (keys : list string) : list string :=
  fold_left (fun seen k => if existsb (String.eqb k) seen then seen else seen ++ [k]) keys [].

(** The transactions of one region, of one product, in input order. *)
Definition of_region (r : string) (txs : list Tx) : list Tx :=
  List.filter (fun tx => String.eqb (Region tx) r) txs.

Definition of_product (p : string) (txs : list Tx) : list Tx :=
  List.filter (fun tx => String.eqb (ProductName tx) p) txs.

(** The quantity sold in a list of transactions. *)
Definition total_quantity (txs : list Tx) : Z :=
  fold_left (fun total tx => total + Quantity tx) txs 0.

(** The product groups of the spec: one triple per product name, in
    first-seen order, with the quantity and the revenue of its transactions. *)
Definition product_groups (txs : list Tx) : list (string * Z * F) :=
  map (fun p => (p, total_quantity (of_product p txs), calculate_total_revenue (of_product p txs)))
      (first_seen (map (@ProductName F) txs)).

(** [sum(stats["total_sales"] for stats in region_stats.values())], added
    from left to right. *)
Definition sum_total_sales (region_stats : list (string * @RegionStats F)) : F :=
  fold_left (fun total kv => total +! total_sales (snd kv)) region_stats (of_int 0).

Definition sum_transaction_count (region_stats : list (string * @RegionStats F)) : Z :=
  fold_left (fun total kv => total + transaction_count (snd kv)) region_stats 0.

(** The quantity of a triple, and the triples of one quantity. *)
Definition triple_qty (t : string * Z * F) : Z := snd (fst t).

Definition with_qty (q : Z) (l : list (string * Z * F)) : list (string * Z * F) :=
  List.filter (fun t => triple_qty t =? q) l.

Definition triple_name (t : string * Z * F) : string := fst (fst t).

Definition triple_revenue (t : string * Z * F) : F := snd t.

(** A transaction that step 1 of [validate_and_filter] keeps, in the words
    of the spec's invalidity rule. *)
Definition passes_validation (tx : Tx) : bool :=
  negb (Quantity tx <=? 0)
  && negb (UnitPrice tx <=! of_int 0)
  && startswith (TransactionID tx) "T"
  && startswith (ProductID tx) "P"
  && startswith (CustomerID tx) "C".

(** The same with a positive price in place of a price that is not [<= 0]. *)
Definition positive_and_prefixed (tx : Tx) : bool :=
  (0 <? Quantity tx)
  && (of_int 0 <! UnitPrice tx)
  && startswith (TransactionID tx) "T"
  && startswith (ProductID tx) "P"
  && startswith (CustomerID tx) "C".

(** The three components of the result of [validate_and_filter]. *)
Definition valid_of (r : list Tx * Z * FilterSummary) : list Tx := fst (fst r).
Definition invalid_count_of (r : list Tx * Z * FilterSummary) : Z := snd (fst r).
Definition summary_of (r : list Tx * Z * FilterSummary) : FilterSummary := snd r.

(** The names of an entry of the report's table and of a triple. *)
Definition sales_triple (kv : string * @ProductSales F) : string * Z * F :=
  (fst kv, qty (snd kv), sales_revenue (snd kv)).

End Vocabulary.

(** Strings of digits, strings without a digit, strings that begin with one. *)
Fixpoint all_digits (s : string) : bool :=
  match s with
  | String c s' => is_digit c && all_digits s'
  | EmptyString => true
  end.

Fixpoint no_digits (s : string) : bool :=
  match s with
  | String c s' => negb (is_digit c) && no_digits s'
  | EmptyString => true
  end.

Definition starts_with_digit (s : string) : bool :=
  match s with
  | String c _ => is_digit c
  | EmptyString => false
  end.

(** The loops that group transactions all have one shape: a missing key gets
    the initial entry, then the entry of the key is updated. *)
Section Grouping.
Variables (T V : Type) (key : T -> string) (init : V) (upd : T -> V -> V).

Definition group_step (d : list (string * V)) (t : T) : list (string * V) :=
  od_update (key t) (upd t) (od_setdefault (key t) init d).

(** The entry of key [k]: the updates of its own elements, in input order. *)
Definition group_value (k : string) (l : list T) : V :=
  fold_left (fun v t => upd t v) (List.filter (fun t => String.eqb (key t) k) l) init.

Definition grouped (l : list T) : list (string * V) :=
  map (fun k => (k, group_value k l)) (first_seen (map key l)).
End Grouping.

(** ** Text: the string methods and conversions the parser uses *)

(** [c.isspace()] for a character below 256: what [str.strip()] removes. *)
Definition is_space (c : ascii) : bool :=
  let n := N_of_ascii c in
  ((9 <=? n) && (n <=? 13) || (28 <=? n) && (n <=? 32) || (n =? 133) || (n =? 160))%N.

(** The blanks [int] and [float] accept around a number. *)
Definition is_number_space (c : ascii) : bool :=
  let n := N_of_ascii c in
  ((9 <=? n) && (n <=? 13) || (n =? 32) || (n =? 133) || (n =? 160))%N.

Fixpoint lstrip_with (blank : ascii -> bool) (s : string) : string :=
  match s with
  | String c s' => if blank c then lstrip_with blank s' else s
  | EmptyString => EmptyString
  end.

Fixpoint rstrip_with (blank : ascii -> bool) (s : string) : string :=
  match s with
  | String c s' =>
      match rstrip_with blank s' with
      | EmptyString => if blank c then EmptyString else String c EmptyString
      | r => String c r
      end
  | EmptyString => EmptyString
  end.

Definition strip_with (blank : ascii -> bool) (s : string) : string :=
  lstrip_with blank (rstrip_with blank s).

(** [s.strip()] *)
Definition strip (s : string) : string := strip_with is_space s.

(** [s.split(sep)] for a separator of one character: always at least one part. *)
Fixpoint split_on (sep : ascii) (s : string) : list string :=
  match s with
  | String c s' =>
      if Ascii.eqb c sep then EmptyString :: split_on sep s'
      else match split_on sep s' with
           | part :: parts => String c part :: parts
           | [] => [String c EmptyString]
           end
  | EmptyString => [EmptyString]
  end.

(** [s.replace(c, "")] for a single character [c]. *)
Fixpoint remove_char (c : ascii) (s : string) : string :=
  match s with
  | String a s' => if Ascii.eqb a c then remove_char c s' else String a (remove_char c s')
  | EmptyString => EmptyString
  end.

(** The underscores of a numeric literal: each must stand between two digits.
    [prev] is the character before [s]. *)
Fixpoint drop_underscores (prev : option ascii) (s : string) : option string :=
  match s with
  | String c s' =>
      if Ascii.eqb c "_" then
        match prev with
        | Some p => if is_digit p then drop_underscores (Some c) s' else None
        | None => None
        end
      else
        match prev with
        | Some p =>
            if Ascii.eqb p "_" && negb (is_digit c) then None
            else option_map (String c) (drop_underscores (Some c) s')
        | None => option_map (String c) (drop_underscores (Some c) s')
        end
  | EmptyString =>
      match prev with
      | Some p => if Ascii.eqb p "_" then None else Some EmptyString
      | None => Some EmptyString
      end
  end.

(** What follows the digits at the head of [s]. *)
Fixpoint after_digits (s : string) : string :=
  match s with
  | String c s' => if is_digit c then after_digits s' else s
  | EmptyString => EmptyString
  end.

(** An optional sign: whether it is a minus, and the rest. *)
Definition take_sign (s : string) : bool * string :=
  match s with
  | String c s' =>
      if Ascii.eqb c "-" then (true, s')
      else if Ascii.eqb c "+" then (false, s')
      else (false, s)
  | EmptyString => (false, s)
  end.

(** [int(s)] of a string; [None] stands for the [ValueError] it raises:
    blanks around, an optional sign, digits with single underscores between
    them, at most [int_max_str_digits] digits. *)
Definition int_of_str (s : string) : option Z :=
  let '(negative, body) := take_sign (strip_with is_number_space s) in
  match drop_underscores None body with
  | Some digits =>
      match digits with
      | EmptyString => None
      | _ =>
          if negb (all_digits digits) then None
          else if (int_max_str_digits <? String.length digits)%nat then None
          else Some (if negative then - digits_value 0 digits else digits_value 0 digits)
      end
  | None => None
  end.

(** [s.lower()] on the letters A to Z.  The program only compares lower-cased
    text with words of ASCII letters, and no other character below 256
    lower-cases to an ASCII letter. *)
Definition lower_ascii (c : ascii) : ascii :=
  let n := N_of_ascii c in
  if ((65 <=? n) && (n <=? 90))%N then ascii_of_N (n + 32) else c.

Fixpoint lower (s : string) : string :=
  match s with
  | String c s' => String (lower_ascii c) (lower s')
  | EmptyString => EmptyString
  end.

(** The double nearest to [m * 10 ^ e10], ties to even, with the sign
    [negative]; beyond the largest double it is an infinity. *)
Definition float_of_decimal (negative : bool) (m e10 : Z) : float :=
  match m with
  | Z.pos p =>
      if 0 <=? e10 then
        SF2Prim (binary_normalize prec emax (if negative then - (m * 10 ^ e10) else m * 10 ^ e10)
                                  0 false)
      else
        SF2Prim (SFdiv prec emax (S754_finite negative p 0)
                       (S754_finite false (Z.to_pos (10 ^ (- e10))) 0))
  | _ => if negative then neg_zero else zero
  end.

(** The exponent part of a decimal literal: empty, or [e], an optional sign
    and digits. *)
Definition exponent_of_str (s : string) : option Z :=
  match s with
  | EmptyString => Some 0
  | String c s' =>
      if Ascii.eqb (lower_ascii c) "e" then
        let '(negative, digits) := take_sign s' in
        match digits with
        | EmptyString => None
        | _ =>
            if all_digits digits
            then Some (if negative then - digits_value 0 digits else digits_value 0 digits)
            else None
        end
      else None
  end.

(** [float(s)] of a string; [None] stands for the [ValueError] it raises.
    The literal is a decimal number with an optional fraction and exponent,
    or one of the words inf, infinity and nan in any case, with an optional
    sign; a number too large for a double is read as an infinity. *)
Definition float_of_str (s : string) : option float :=
  match drop_underscores None (strip_with is_number_space s) with
  | Some literal =>
      let '(negative, body) := take_sign literal in
      let word := lower body in
      if String.eqb word "inf" || String.eqb word "infinity" then
        Some (if negative then neg_infinity else infinity)
      else if String.eqb word "nan" then Some nan
      else
        let whole := digits_prefix body in
        let rest := after_digits body in
        let '(fraction, rest) :=
          match rest with
          | String c rest' =>
              if Ascii.eqb c "." then (digits_prefix rest', after_digits rest') else (EmptyString, rest)
          | EmptyString => (EmptyString, rest)
          end in
        match (whole ++ fraction)%string with
        | EmptyString => None
        | mantissa =>
            match exponent_of_str rest with
            | Some e =>
                Some (float_of_decimal negative (digits_value 0 mantissa)
                                       (e - Z.of_nat (String.length fraction)))
            | None => None
            end
        end
  | None => None
  end.

(** ** file_handler.py: reading and parsing *)

(** [read_sales_data(filename)].  [file] is what [f.readlines()] gives for
    the file, [None] when there is no such file ([FileNotFoundError]).  The
    encoding [latin-1] decodes every file, so the lines are always read. *)
Definition read_sales_data (file : option (list string)) : list string :=
  match file with
  | Some lines =>
      map strip (List.filter (fun line => negb (String.eqb (strip line) "")) (skipn 1 lines))
  | None => []
  end.

(** The body of the loop of [parse_transactions]: the dictionary built for
    [line], [None] where the loop goes on to the next line. *)
Definition parse_line (line : string) : option (Transaction float) :=
  match split_on "|" line with
  | [transaction_id; date; product_id; product_name; quantity; unit_price; customer_id; region] =>
      let product_name := remove_char "," product_name in
      let quantity := remove_char "," quantity in
      let unit_price := remove_char "," unit_price in
      match int_of_str quantity with
      | Some quantity =>
          match float_of_str unit_price with
          | Some unit_price =>
              Some {| TransactionID := strip transaction_id;
                      Date := strip date;
                      ProductID := strip product_id;
                      ProductName := strip product_name;
                      Quantity := quantity;
                      UnitPrice := unit_price;
                      CustomerID := strip customer_id;
                      Region := strip region |}
          | None => None
          end
      | None => None
      end
  | _ => None
  end.

Definition parse_transactions (raw_lines : list string) : list (Transaction float) :=
  fold_left
    (fun transactions line =>
       match parse_line line with
       | Some transaction => transactions ++ [transaction]
       | None => transactions
       end)
    raw_lines [].

(** ** data_processor.py: customer_analysis *)

Section Customers.
Context {F : Type} {A : Arith F}.

Local Abbreviation Tx := (Transaction F).

(** [x / n] for a float [x] and an int [n]. *)
Definition truediv (x : F) (n : Z) : res F :=
  if n =? 0 then Raise ZeroDivisionError else Ret (x /! of_int n).

(** The entry of a customer while it is accumulated, and as it is returned.
    [list(set)] lists the products in an order the program does not choose,
    so the result keeps them as a set. *)
Record CustomerAcc : Type := {
  acc_total_spent : F;
  acc_purchase_count : Z;
  acc_products_bought : gset string
}.

Record CustomerStats : Type := {
  total_spent : F;
  purchase_count : Z;
  avg_order_value : F;
  products_bought : gset string
}.

Definition customer_step (customer_stats : list (string * CustomerAcc)) (tx : Tx)
    : list (string * CustomerAcc) :=
  let cust_id := CustomerID tx in
  let amount := amount tx in
  let product := ProductName tx in
  let customer_stats :=
    od_setdefault cust_id
      {| acc_total_spent := of_int 0; acc_purchase_count := 0; acc_products_bought := ∅ |}
      customer_stats in
  od_update cust_id
    (fun stats => {| acc_total_spent := acc_total_spent stats +! amount;
                     acc_purchase_count := acc_purchase_count stats + 1;
                     acc_products_bought := {[ product ]} ∪ acc_products_bought stats |})
    customer_stats.

(** Step 2: the average order value of every customer, in turn. *)
Fixpoint customer_averages (customer_stats : list (string * CustomerAcc))
    : res (list (string * CustomerStats)) :=
  match customer_stats with
  | [] => Ret []
  | (cust_id, stats) :: rest =>
      bind (truediv (acc_total_spent stats) (acc_purchase_count stats))
        (fun avg =>
           bind (customer_averages rest)
             (fun rest =>
                Ret ((cust_id,
                      {| total_spent := acc_total_spent stats;
                         purchase_count := acc_purchase_count stats;
                         avg_order_value := round2 avg;
                         products_bought := acc_products_bought stats |}) :: rest)))
  end.

(** [customer_analysis(transactions)], for quantities that convert to a
    float (see [amount]). *)
Definition customer_analysis (transactions : list Tx) : res (list (string * CustomerStats)) :=
  bind (customer_averages (fold_left customer_step transactions []))
    (fun customer_stats =>
       Ret (sorted_reverse fltb (fun kv => total_spent (snd kv)) customer_stats)).

End Customers.

(** ** api_handler.py: the other tables of the report *)

Section Report.
Context {F : Type} {A : Arith F}.

Local Abbreviation Tx := (Transaction F).

(** An entry of [region_sales] and of [customer_sales]. *)
Record RegionSales : Type := {
  region_revenue : F;
  region_count : Z
}.

Record CustomerSales : Type := {
  spent : F;
  orders : Z
}.

(** Section 3 of the report: [region_sales] and [region_summary]. *)
Definition region_sales_default (k : string) (d : list (string * RegionSales))
    : list (string * RegionSales) :=
  od_setdefault k {| region_revenue := of_int 0; region_count := 0 |} d.

Definition region_sales_step (region_sales : list (string * RegionSales)) (tx : Tx)
    : list (string * RegionSales) :=
  let region_sales :=
    od_update (Region tx)
      (fun stats => {| region_revenue := region_revenue stats +! amount tx;
                       region_count := region_count stats |})
      (region_sales_default (Region tx) region_sales) in
  od_update (Region tx)
    (fun stats => {| region_revenue := region_revenue stats;
                     region_count := region_count stats + 1 |})
    (region_sales_default (Region tx) region_sales).

Definition report_region_sales (transactions : list Tx) : list (string * RegionSales) :=
  fold_left region_sales_step transactions [].

Definition report_region_summary (transactions : list Tx) : list (string * RegionSales) :=
  sorted_reverse fltb (fun kv => region_revenue (snd kv)) (report_region_sales transactions).

(** Section 7: [avg_tx_value_region]; the literal [0] of the guard is
    [of_int 0]. *)
Definition report_avg_tx_value_region (transactions : list Tx) : res (list (string * F)) :=
  fold_right
    (fun kv rest =>
       bind (if region_count (snd kv) =? 0 then Ret (of_int 0)
             else truediv (region_revenue (snd kv)) (region_count (snd kv)))
         (fun avg => bind rest (fun rest => Ret ((fst kv, avg) :: rest))))
    (Ret []) (report_region_sales transactions).

(** Section 5: [customer_sales] and [top_customers]. *)
Definition customer_sales_default (k : string) (d : list (string * CustomerSales))
    : list (string * CustomerSales) :=
  od_setdefault k {| spent := of_int 0; orders := 0 |} d.

Definition customer_sales_step (customer_sales : list (string * CustomerSales)) (tx : Tx)
    : list (string * CustomerSales) :=
  let customer_sales :=
    od_update (CustomerID tx)
      (fun stats => {| spent := spent stats +! amount tx; orders := orders stats |})
      (customer_sales_default (CustomerID tx) customer_sales) in
  od_update (CustomerID tx)
    (fun stats => {| spent := spent stats; orders := orders stats + 1 |})
    (customer_sales_default (CustomerID tx) customer_sales).

Definition report_top_customers (transactions : list Tx) : list (string * CustomerSales) :=
  slice_to 5
    (sorted_reverse fltb (fun kv => spent (snd kv))
       (fold_left customer_sales_step transactions [])).

(** Section 6: [daily_summary].  [sorted] compares the items as pairs; the
    dates, being keys of one dictionary, differ, so that the dates alone
    decide. *)
Definition report_daily_summary (transactions : list Tx) : list (string * DayAcc) :=
  sorted String.ltb fst (fold_left daily_sales_step transactions []).

(** Section 8: [enriched_count] and [failed_products]. *)
Definition report_enriched_count (enriched_transactions : list (Enriched F)) : Z :=
  fold_left (fun count tx => if API_Match tx then count + 1 else count)
            enriched_transactions 0.

Definition report_failed_products (enriched_transactions : list (Enriched F)) : list string :=
  map (fun tx => ProductName (base tx))
      (List.filter (fun tx => negb (API_Match tx)) enriched_transactions).

End Report.

(** ** The snapshot as a file *)

(** The text of a file to which each of [lines] was written followed by a
    newline (as on POSIX, where text mode writes the newline as it is). *)
Fixpoint file_text (lines : list string) : string :=
  match lines with
  | [] => EmptyString
  | line :: rest => (line ++ String "010" (file_text rest))%string
  end.

(** [f.readlines()] of a file opened for reading in text mode: a line ends
    at a line feed, at a carriage return or at the two in a row, each read as
    one line feed; the last line may have none.  [line] is what was read of
    the current line. *)
Fixpoint readlines_from (line : string) (text : string) : list string :=
  match text with
  | EmptyString =>
      match line with
      | EmptyString => []
      | _ => [line]
      end
  | String c rest =>
      if Ascii.eqb c "010" then
        (line ++ String "010" EmptyString)%string :: readlines_from EmptyString rest
      else if Ascii.eqb c "013" then
        (line ++ String "010" EmptyString)%string ::
        readlines_from EmptyString
          match rest with
          | String d rest' => if Ascii.eqb d "010" then rest' else rest
          | EmptyString => rest
          end
      else readlines_from (line ++ String c EmptyString)%string rest
  end.

Definition readlines (text : string) : list string := readlines_from EmptyString text.

(** The lines that [f.readlines()] gives for the snapshot file. *)
Definition snapshot_file {F : Type} (str_float : F -> string) (enriched : list (Enriched F))
    : list string :=
  readlines (file_text (save_enriched_data str_float enriched)).

(** ** main.py *)

Section Main.

(** [str(x)] of a float, for the snapshot file. *)
Variable str_float : float -> string.

Local Abbreviation Tx := (Transaction float).

(** [min(l)] of a list of floats: the first element no later one is below;
    [ValueError] on an empty list. *)
Fixpoint min_from (best : float) (l : list float) : float :=
  match l with
  | [] => best
  | x :: l' => min_from (if x <! best then x else best) l'
  end.

Definition py_min (l : list float) : res float :=
  match l with
  | [] => Raise ValueError
  | x :: l' => Ret (min_from x l')
  end.

(** What the user types at the four prompts of step 3. *)
Record Answers : Type := {
  choice : string;
  region_choice : string;
  min_amt : string;
  max_amt : string
}.

(** [not bound or test(float(bound))]: the bound is converted only when it
    was given and the test is reached. *)
Definition bound_test (bound : string) (test : float -> bool) : res bool :=
  if String.eqb bound "" then Ret true
  else match float_of_str bound with
       | Some x => Ret (test x)
       | None => Raise ValueError
       end.

(** The condition of the filter loop of step 3, with the order in which
    [and] evaluates its operands. *)
Definition keeps (region_choice min_amt max_amt : string) (tx : Tx) : res bool :=
  let amt := amount tx in
  if String.eqb region_choice "" || String.eqb (Region tx) region_choice then
    bind (bound_test min_amt (fun lo => lo <=! amt))
      (fun above =>
         if above then bound_test max_amt (fun hi => amt <=! hi) else Ret false)
  else Ret false.

Fixpoint filter_loop (region_choice min_amt max_amt : string) (transactions : list Tx)
    (filtered : list Tx) : res (list Tx) :=
  match transactions with
  | [] => Ret filtered
  | tx :: rest =>
      bind (keeps region_choice min_amt max_amt tx)
        (fun keep =>
           filter_loop region_choice min_amt max_amt rest
             (if keep then filtered ++ [tx] else filtered))
  end.

(** [tx["Quantity"] * tx["UnitPrice"]] with the conversion of the quantity
    to a float, which raises [OverflowError] when it does not fit. *)
Definition amount_or_overflow (tx : Tx) : res float :=
  if int_fits_float (Quantity tx) then Ret (amount tx) else Raise OverflowError.

(** [[tx["Quantity"] * tx["UnitPrice"] for tx in transactions]] *)
Fixpoint amounts_of (transactions : list Tx) : res (list float) :=
  match transactions with
  | [] => Ret []
  | tx :: rest =>
      bind (amount_or_overflow tx)
        (fun amt => bind (amounts_of rest) (fun amounts => Ret (amt :: amounts)))
  end.

(** Lines 38 to 51: the filters, applied when the answer is "y". *)
Definition filters (answers : Answers) (transactions : list Tx) : res (list Tx) :=
  if String.eqb (lower (strip (choice answers))) "y" then
    filter_loop (strip (region_choice answers)) (strip (min_amt answers))
                (strip (max_amt answers)) transactions []
  else Ret transactions.

(** Step 3 of [main]: the amounts are computed, the amount range is printed,
    which needs a transaction, and the filters are applied.  Every quantity
    is converted here, so that the products of the later steps, which are of
    the same transactions, are defined. *)
Definition filter_options (answers : Answers) (transactions : list Tx) : res (list Tx) :=
  bind (amounts_of transactions)
    (fun amounts =>
       bind (py_min amounts)
         (fun _ =>
            bind (py_max fltb (fun x => x) amounts)
              (fun _ => filters answers transactions))).

(** [main()] up to the call of [generate_sales_report]: the two lists it
    passes to the report, or the exception that the handler of [main]
    prints instead.  [file] is the content of [data/sales_data.txt] and
    [api_products] the list that [fetch_all_products] returns. *)
Definition main (file : option (list string)) (answers : Answers)
    (api_products : list (ApiProduct float)) : res (list Tx * list (Enriched float)) :=
  let raw_lines := read_sales_data file in
  let transactions := parse_transactions raw_lines in
  bind (filter_options answers transactions)
    (fun transactions =>
       let '(valid_tx, invalid_count, summary) :=
         validate_and_filter transactions None None None in
       let product_map := create_product_mapping api_products in
       bind (returned (enrich_sales_data str_float valid_tx product_map))
         (fun enriched_tx => Ret (valid_tx, enriched_tx))).

End Main.

(** ** Vocabulary of the further statements *)

(** How often the character [c] occurs in [s]. *)
Fixpoint count_char (c : ascii) (s : string) : nat :=
  match s with
  | String a s' => if Ascii.eqb a c then S (count_char c s') else count_char c s'
  | EmptyString => 0%nat
  end.

Section FilterVocabulary.
Context {F : Type} {A : Arith F}.

Local Abbreviation Tx := (Transaction F).

(** The three optional filters of [validate_and_filter], each as the test
    it applies to a transaction; [None] and the empty region test nothing. *)
Definition in_region (region : option string) (tx : Tx) : bool :=
  match region with
  | Some r => String.eqb r "" || String.eqb (Region tx) r
  | None => true
  end.

Definition at_least (min_amount : option F) (tx : Tx) : bool :=
  match min_amount with
  | Some lo => lo <=! amount tx
  | None => true
  end.

Definition at_most (max_amount : option F) (tx : Tx) : bool :=
  match max_amount with
  | Some hi => amount tx <=! hi
  | None => true
  end.

Definition selected (region : option string) (min_amount max_amount : option F) (tx : Tx) : bool :=
  passes_validation tx && in_region region tx && at_least min_amount tx && at_most max_amount tx.

End FilterVocabulary.

(** A bound typed at a prompt of [main]: none when nothing was typed, the
    number typed, or the [ValueError] of [float]. *)
Definition bound_of (typed : string) : res (option float) :=
  if String.eqb typed "" then Ret None
  else match float_of_str typed with
       | Some x => Ret (Some x)
       | None => Raise ValueError
       end.

Section GroupVocabulary.
Context {F : Type} {A : Arith F}.

Local Abbreviation Tx := (Transaction F).

(** The transactions of one customer, of one day, in input order. *)
Definition of_customer (c : string) (txs : list Tx) : list Tx :=
  List.filter (fun tx => String.eqb (CustomerID tx) c) txs.

Definition of_day (d : string) (txs : list Tx) : list Tx :=
  List.filter (fun tx => String.eqb (Date tx) d) txs.

End GroupVocabulary.

Section CatalogVocabulary.
Context {F : Type}.

(** The entry that [create_product_mapping] makes of a product, and the
    products that carry a given id. *)
Definition catalog_entry (p : ApiProduct F) : CatalogInfo F :=
  {| title := p_title p; category := p_category p; brand := p_brand p; rating := p_rating p |}.

Definition has_id (id : Z) (p : ApiProduct F) : bool :=
  match p_id p with
  | Some i => i =? id
  | None => false
  end.

(** A transaction enriched with the entry of a product. *)
Definition matched_with (p : ApiProduct F) (tx : Transaction F) : Enriched F :=
  {| base := tx; API_Category := p_category p; API_Brand := p_brand p;
     API_Rating := p_rating p; API_Match := true |}.

End CatalogVocabulary.

(** The number that [enrich_sales_data] reads in a product id: the value of
    its first run of digits, when there is one that [int] converts. *)
Definition numeric_id (product_id : string) : option Z :=
  match re_search_digits product_id with
  | Some group =>
      if (int_max_str_digits <? String.length group)%nat then None
      else Some (digits_value 0 group)
  | None => None
  end.

(** The triples of one revenue (as [==] compares floats). *)
Definition with_revenue (r : float) (l : list (string * Z * float)) : list (string * Z * float) :=
  List.filter (fun t => PrimFloat.eqb (triple_revenue t) r) l.

(** A field without line break. *)
Definition no_line_break (field : string) : bool :=
  Nat.eqb (count_char "010" field) 0 && Nat.eqb (count_char "013" field) 0.

(** [sum(f(x) for x in l)] for integers. *)
Definition sum_Z {X : Type} (f : X -> Z) (l : list X) : Z :=
  fold_left (fun total x => total + f x) l 0.

(** The same sum for amounts, added from left to right. *)
Definition sum_F {F : Type} {A : Arith F} {X : Type} (f : X -> F) (l : list X) : F :=
  fold_left (fun total x => total +! f x) l (of_int 0).

(** ** Sample data *)

Module Samples.
Local Set Warnings "-inexact-float".

Definition tx (id date pid name : string) (q : Z) (price : float) (cust region : string)
    : Transaction float :=
  {| TransactionID := id; Date := date; ProductID := pid; ProductName := name;
     Quantity := q; UnitPrice := price; CustomerID := cust; Region := region |}.

(** The two rows of the spec's worked example, with its catalog. *)
Definition mouse := tx "T1" "2024-01-01" "P101" "Mouse" 2 500 "C1" "North".
Definition keyboard := tx "T2" "2024-01-01" "P999" "KB" 1 100 "C2" "South".
Definition orders : list (Transaction float) := [mouse; keyboard].

Definition catalog : gmap Z (CatalogInfo float) :=
  {[ 101 := {| title := PyStr "Mouse"; category := PyStr "Electronics";
               brand := PyStr "X"; rating := PyFloat 4.5%float |} ]}.

(** What the code computes for them per region: name, total sales, percentage. *)
Definition orders_by_region : list (string * float * float) :=
  [("North", 1000%float, 90.91%float); ("South", 100%float, 9.09%float)].

(** One expensive item against many cheap ones. *)
Definition laptop := tx "T1" "2024-01-01" "P1" "Laptop" 1 1000 "C1" "North".
Definition pens := tx "T2" "2024-01-02" "P2" "Pen" 5 10 "C2" "South".

(** Prices in tenths. *)
Definition tenth := tx "T1" "2024-01-01" "P1" "A" 1 0.1 "C1" "North".
Definition fifth := tx "T2" "2024-01-01" "P2" "B" 1 0.2 "C2" "South".
Definition three_tenths := tx "T3" "2024-01-01" "P3" "C" 1 0.3 "C3" "South".
Definition tenths : list (Transaction float) := [tenth; fifth; three_tenths].

(** The row [T9|2024-01-01|P7|Cable|1|nan|C3|East]: [float("nan")] parses. *)
Definition nan_priced := tx "T9" "2024-01-01" "P7" "Cable" 1 nan "C3" "East".

(** A give-away: the price 0 does not pass validation, and the aggregation
    functions accept it all the same. *)
Definition give_away := tx "T7" "2024-01-04" "P8" "Sticker" 3 0 "C5" "North".

(** A product whose numeric id is 0, and a catalog that lists it. *)
Definition product_zero := tx "T5" "2024-01-03" "P0" "Sample" 1 5 "C4" "West".

Definition sample_product : ApiProduct float :=
  {| p_id := Some 0; p_title := PyStr "Sample"; p_category := PyStr "Misc";
     p_brand := PyStr "Unknown"; p_price := PyFloat 5%float; p_rating := PyFloat 3.5%float |}.

Definition catalog_zero : gmap Z (CatalogInfo float) :=
  create_product_mapping [sample_product].

(** The data of [tenths] over exact rationals (prices 1/10, 1/5, 3/10). *)
Definition qtx (id date pid name : string) (q : Z) (price : Q) (cust region : string)
    : Transaction Qc :=
  {| TransactionID := id; Date := date; ProductID := pid; ProductName := name;
     Quantity := q; UnitPrice := Q2Qc price; CustomerID := cust; Region := region |}.

Definition exact_tenths : list (Transaction Qc) :=
  [qtx "T1" "2024-01-01" "P1" "A" 1 (1 # 10) "C1" "North";
   qtx "T2" "2024-01-01" "P2" "B" 1 (2 # 10) "C2" "South";
   qtx "T3" "2024-01-01" "P3" "C" 1 (3 # 10) "C3" "South"].

(** [str(x)] for the floats of the worked example. *)
Definition str_price (x : float) : string :=
  if PrimFloat.eqb x 500 then "500.0"
  else if PrimFloat.eqb x 100 then "100.0"
  else "4.5".

(** A line whose quantity, 10^400, has 401 digits. *)
Definition huge_quantity_line : string :=
  String.append "T1|2024-01-01|P1|Mouse|1"
    (String.append (string_of_list_ascii (repeat "0"%char 400)) "|5.0|C1|North").

(** A record whose enrichment fields hold line breaks: its row is three
    lines of the snapshot file, the second of them a line of eight fields. *)
Definition broken_row : Enriched float :=
  {| base := mouse;
     API_Category := PyStr (String.append "A" (String "010" "T9|2024-01-01|P7|Cable|1|5"));
     API_Brand := PyStr "C3";
     API_Rating := PyStr (String.append "East" (String "010" "x"));
     API_Match := true |}.

End Samples.

(** * Properties *)

(** ** Sorting *)

Section SortingFacts.
Variables (T K : Type) (lt : K -> K -> bool) (key : T -> K).

Lemma insert_desc_perm (x : T) (l : list T) :
  Permutation (insert_desc lt key x l) (x :: l).
Proof.
  induction l as [|y l IH]; simpl.
  - apply Permutation_refl.
  - destruct (lt (key x) (key y)).
    + apply Permutation_trans with (y :: x :: l).
      * apply perm_skip, IH.
      * apply perm_swap.
    + apply Permutation_refl.
Qed.

Lemma sorted_reverse_perm (l : list T) :
  Permutation (sorted_reverse lt key l) l.
Proof.
  induction l as [|x l IH]; simpl.
  - apply perm_nil.
  - apply Permutation_trans with (x :: sorted_reverse lt key l).
    + apply insert_desc_perm.
    + apply perm_skip, IH.
Qed.

(** Elements that [<] never orders among themselves are not moved past
    each other. *)
Lemma insert_desc_stable (P : T -> bool) (x : T) (l : list T) :
  (forall a b, P a = true -> P b = true -> lt (key a) (key b) = false) ->
  List.filter P (insert_desc lt key x l) = List.filter P (x :: l).
Proof.
  intros HP. induction l as [|y l IH]; simpl; [reflexivity|].
  destruct (lt (key x) (key y)) eqn:Hxy; [|reflexivity].
  simpl. rewrite IH. simpl.
  destruct (P x) eqn:Px, (P y) eqn:Py; try reflexivity.
  rewrite (HP x y Px Py) in Hxy. discriminate.
Qed.

Lemma sorted_reverse_stable (P : T -> bool) (l : list T) :
  (forall a b, P a = true -> P b = true -> lt (key a) (key b) = false) ->
  List.filter P (sorted_reverse lt key l) = List.filter P l.
Proof.
  intros HP. induction l as [|x l IH]; simpl; [reflexivity|].
  rewrite insert_desc_stable by exact HP. simpl. now rewrite IH.
Qed.

(** When [<] is a strict weak order on the keys, no element is followed by
    one with a larger key. *)
Hypothesis lt_asym : forall a b, lt a b = true -> lt b a = false.
Hypothesis lt_negtrans : forall a b c, lt a b = false -> lt b c = false -> lt a c = false.

Lemma insert_desc_sorted (x : T) (l : list T) :
  StronglySorted (fun a b => lt (key a) (key b) = false) l ->
  StronglySorted (fun a b => lt (key a) (key b) = false) (insert_desc lt key x l).
Proof.
  induction l as [|y l IH]; intros Hs; simpl.
  - constructor; constructor.
  - inversion Hs as [|? ? Hl Hy]; subst.
    destruct (lt (key x) (key y)) eqn:Hxy.
    + constructor; [apply IH, Hl|].
      apply (Permutation_Forall (Permutation_sym (insert_desc_perm x l))).
      constructor; [apply lt_asym, Hxy | exact Hy].
    + constructor; [exact Hs|].
      constructor; [exact Hxy|].
      apply Forall_forall. intros z Hz.
      apply lt_negtrans with (key y); [exact Hxy|].
      rewrite Forall_forall in Hy. apply Hy, Hz.
Qed.

Lemma sorted_reverse_sorted (l : list T) :
  StronglySorted (fun a b => lt (key a) (key b) = false) (sorted_reverse lt key l).
Proof.
  induction l as [|x l IH]; simpl.
  - constructor.
  - apply insert_desc_sorted, IH.
Qed.

End SortingFacts.

(** Sorting commutes with a relabelling that keeps the keys. *)
Lemma sorted_reverse_map (T U K : Type) (lt : K -> K -> bool)
    (key : T -> K) (key' : U -> K) (f : T -> U) (l : list T) :
  (forall a, key' (f a) = key a) ->
  map f (sorted_reverse lt key l) = sorted_reverse lt key' (map f l).
Proof.
  intros Hk. induction l as [|x l IH]; simpl; [reflexivity|].
  rewrite <- IH. generalize (sorted_reverse lt key l). intros s.
  induction s as [|y s IHs]; simpl; [reflexivity|].
  rewrite !Hk. destruct (lt (key x) (key y)); simpl; [now rewrite IHs | reflexivity].
Qed.

Lemma slice_to_map (T U : Type) (f : T -> U) (n : Z) (l : list T) :
  map f (slice_to n l) = slice_to n (map f l).
Proof.
  unfold slice_to, len. rewrite length_map.
  destruct (0 <=? n); symmetry; apply firstn_map.
Qed.

Lemma slice_to_nonneg (T : Type) (n : Z) (l : list T) :
  0 <= n -> slice_to n l = firstn (Z.to_nat n) l.
Proof.
  intros Hn. unfold slice_to. destruct (Z.leb_spec 0 n); [reflexivity | lia].
Qed.

(** ** Dictionaries in insertion order *)

Lemma existsb_eqb_In (k : string) (l : list string) :
  existsb (String.eqb k) l = true <-> In k l.
Proof.
  rewrite existsb_exists. split.
  - intros [x [Hx He]]. apply String.eqb_eq in He. now subst.
  - intros H. exists k. split; [exact H | apply String.eqb_refl].
Qed.

Lemma first_seen_snoc (l : list string) (k : string) :
  first_seen (l ++ [k]) =
  if existsb (String.eqb k) (first_seen l) then first_seen l else first_seen l ++ [k].
Proof. unfold first_seen. now rewrite fold_left_app. Qed.

Lemma first_seen_In (l : list string) (k : string) :
  In k (first_seen l) <-> In k l.
Proof.
  revert k. induction l as [|x l IH] using rev_ind; intros k; [reflexivity|].
  rewrite first_seen_snoc, in_app_iff. simpl.
  destruct (existsb (String.eqb x) (first_seen l)) eqn:E.
  - apply existsb_eqb_In in E. rewrite IH. rewrite IH in E.
    intuition (subst; auto).
  - rewrite in_app_iff. simpl. rewrite IH. reflexivity.
Qed.

Lemma first_seen_NoDup (l : list string) : List.NoDup (first_seen l).
Proof.
  induction l as [|x l IH] using rev_ind; [constructor|].
  rewrite first_seen_snoc.
  destruct (existsb (String.eqb x) (first_seen l)) eqn:E; [exact IH|].
  apply List.NoDup_app; [exact IH | constructor; [intros [] | constructor] |].
  intros k Hk [Hx|[]]. subst k.
  apply existsb_eqb_In in Hk. congruence.
Qed.

Section DictFacts.
Variable V : Type.

Lemma od_mem_keys (k : string) (g : string -> V) (ks : list string) :
  od_mem k (map (fun k' => (k', g k')) ks) = existsb (String.eqb k) ks.
Proof.
  unfold od_mem. induction ks as [|k' ks IH]; simpl; [reflexivity|].
  now rewrite IH, (String.eqb_sym k' k).
Qed.

Lemma od_update_absent (k : string) (f : V -> V) (g : string -> V) (ks : list string) :
  ~ In k ks ->
  od_update k f (map (fun k' => (k', g k')) ks) = map (fun k' => (k', g k')) ks.
Proof.
  induction ks as [|k' ks IH]; simpl; intros Hk; [reflexivity|].
  destruct (String.eqb_spec k' k) as [->|Hne].
  - exfalso. apply Hk. now left.
  - rewrite IH; [reflexivity | tauto].
Qed.

Lemma od_update_present (k : string) (f : V -> V) (g : string -> V) (ks : list string) :
  List.NoDup ks ->
  od_update k f (map (fun k' => (k', g k')) ks) =
  map (fun k' => (k', if String.eqb k' k then f (g k') else g k')) ks.
Proof.
  induction 1 as [|k' ks Hk' Hnd IH]; simpl; [reflexivity|].
  destruct (String.eqb_spec k' k) as [->|Hne].
  - f_equal. apply map_ext_in. intros k' Hin.
    destruct (String.eqb_spec k' k) as [->|_]; [contradiction | reflexivity].
  - now rewrite IH.
Qed.

Lemma od_update_last (k : string) (f : V -> V) (d : list (string * V)) (v : V) :
  od_mem k d = false ->
  od_update k f (d ++ [(k, v)]) = d ++ [(k, f v)].
Proof.
  unfold od_mem. induction d as [|[k' v'] d IH]; simpl.
  - now rewrite String.eqb_refl.
  - intros H. apply orb_false_iff in H as [H1 H2].
    rewrite H1. now rewrite IH.
Qed.

Lemma od_mem_update (k k' : string) (f : V -> V) (d : list (string * V)) :
  od_mem k (od_update k' f d) = od_mem k d.
Proof.
  unfold od_mem. induction d as [|[k'' v] d IH]; simpl; [reflexivity|].
  destruct (String.eqb k'' k'); simpl; [reflexivity | now rewrite IH].
Qed.

Lemma od_mem_setdefault (k : string) (v : V) (d : list (string * V)) :
  od_mem k (od_setdefault k v d) = true.
Proof.
  unfold od_setdefault. destruct (od_mem k d) eqn:E; [exact E|].
  unfold od_mem. rewrite existsb_app. simpl. rewrite String.eqb_refl.
  now rewrite orb_true_r.
Qed.

Lemma od_update_update (k : string) (f g : V -> V) (d : list (string * V)) :
  od_update k f (od_update k g d) = od_update k (fun v => f (g v)) d.
Proof.
  induction d as [|[k' v] d IH]; simpl; [reflexivity|].
  destruct (String.eqb k' k) eqn:E; simpl; rewrite E; [reflexivity | now rewrite IH].
Qed.

(** A second access through the [defaultdict] finds the key in place. *)
Lemma od_setdefault_again (k : string) (v : V) (f : V -> V) (d : list (string * V)) :
  od_setdefault k v (od_update k f (od_setdefault k v d)) = od_update k f (od_setdefault k v d).
Proof.
  unfold od_setdefault at 1. now rewrite od_mem_update, od_mem_setdefault.
Qed.

End DictFacts.

(** ** Grouping *)

Section GroupingFacts.
Variables (T V : Type) (key : T -> string) (init : V) (upd : T -> V -> V).

Lemma group_value_snoc (k : string) (l : list T) (t : T) :
  group_value key init upd k (l ++ [t]) =
  if String.eqb (key t) k then upd t (group_value key init upd k l)
  else group_value key init upd k l.
Proof.
  unfold group_value. rewrite List.filter_app. simpl.
  destruct (String.eqb (key t) k); [| now rewrite app_nil_r].
  now rewrite fold_left_app.
Qed.

Lemma group_value_absent (k : string) (l : list T) :
  ~ In k (map key l) -> group_value key init upd k l = init.
Proof.
  intros Hk. unfold group_value.
  replace (List.filter (fun t => String.eqb (key t) k) l) with (@nil T); [reflexivity|].
  symmetry. induction l as [|t l IH]; simpl in *; [reflexivity|].
  destruct (String.eqb_spec (key t) k) as [E|_]; [tauto|]. apply IH. tauto.
Qed.

Lemma grouped_snoc (l : list T) (t : T) :
  grouped key init upd (l ++ [t]) = group_step key init upd (grouped key init upd l) t.
Proof.
  unfold grouped, group_step, od_setdefault.
  rewrite map_app. simpl. rewrite first_seen_snoc, od_mem_keys.
  destruct (existsb (String.eqb (key t)) (first_seen (map key l))) eqn:E.
  - rewrite od_update_present by apply first_seen_NoDup.
    apply map_ext. intros k. now rewrite group_value_snoc, (String.eqb_sym k).
  - assert (Hk : ~ In (key t) (first_seen (map key l))).
    { intros H. apply existsb_eqb_In in H. congruence. }
    rewrite od_update_last by (now rewrite od_mem_keys).
    rewrite map_app. simpl. f_equal.
    + apply map_ext_in. intros k Hin. rewrite group_value_snoc.
      destruct (String.eqb_spec (key t) k) as [<-|_]; [contradiction | reflexivity].
    + rewrite group_value_snoc, String.eqb_refl.
      rewrite group_value_absent; [reflexivity|]. now rewrite <- first_seen_In.
Qed.

(** The loop computes the groups in first-seen order. *)
Lemma fold_group_step (l : list T) :
  fold_left (group_step key init upd) l [] = grouped key init upd l.
Proof.
  induction l as [|t l IH] using rev_ind; [reflexivity|].
  now rewrite fold_left_app, IH, grouped_snoc.
Qed.

Lemma grouped_keys (l : list T) :
  map fst (grouped key init upd l) = first_seen (map key l).
Proof.
  unfold grouped. rewrite map_map. simpl. apply map_id.
Qed.

End GroupingFacts.

(** ** Validation and filtering *)

Section ValidationFacts.
Context {F : Type} {A : Arith F}.

Local Abbreviation Tx := (Transaction F).

Lemma is_invalid_passes (tx : Tx) : is_invalid tx = negb (passes_validation tx).
Proof.
  unfold is_invalid, passes_validation.
  destruct (Quantity tx <=? 0), (UnitPrice tx <=! of_int 0),
    (startswith (TransactionID tx) "T"), (startswith (ProductID tx) "P"),
    (startswith (CustomerID tx) "C"); reflexivity.
Qed.

(** The validation loop counts what it drops and keeps the rest in order. *)
Lemma validation_loop (txs : list Tx) (invalid_count : Z) (kept : list Tx) :
  fold_left validation_step txs (invalid_count, kept) =
  (invalid_count + len (List.filter is_invalid txs),
   kept ++ List.filter passes_validation txs).
Proof.
  revert invalid_count kept. induction txs as [|tx txs IH]; intros c kept; simpl.
  - unfold len. simpl. now rewrite Z.add_0_r, app_nil_r.
  - rewrite is_invalid_passes.
    destruct (passes_validation tx); simpl; rewrite IH; unfold len; simpl.
    + now rewrite <- app_assoc.
    + f_equal. lia.
Qed.

Lemma len_filter_split (P : Tx -> bool) (txs : list Tx) :
  len txs = len (List.filter (fun tx => negb (P tx)) txs) + len (List.filter P txs).
Proof.
  unfold len. induction txs as [|tx txs IH]; simpl; [reflexivity|].
  destruct (P tx); simpl; lia.
Qed.

Lemma len_invalid_valid (txs : list Tx) :
  len txs = len (List.filter is_invalid txs) + len (List.filter passes_validation txs).
Proof.
  rewrite (len_filter_split passes_validation txs). do 2 f_equal.
  apply List.filter_ext. intros tx. symmetry. apply is_invalid_passes.
Qed.

Lemma passes_validation_positive (tx : Tx) :
  passes_validation tx = true ->
  0 < Quantity tx /\ (UnitPrice tx <=! of_int 0) = false.
Proof.
  unfold passes_validation. intros H.
  repeat (apply andb_prop in H as [H ?]).
  apply negb_true_iff in H. apply Z.leb_gt in H.
  split; [exact H | now apply negb_true_iff].
Qed.

Lemma validate_without_filters (txs : list Tx) :
  validate_and_filter txs None None None =
  (List.filter passes_validation txs,
   len (List.filter is_invalid txs),
   {| total_input := len txs;
      invalid := len (List.filter is_invalid txs);
      filtered_by_region := 0;
      filtered_by_amount := 0;
      final_count := len (List.filter passes_validation txs) |}).
Proof.
  unfold validate_and_filter. rewrite validation_loop. reflexivity.
Qed.

(** C8. The filter summary of [validate_and_filter] adds up, for every input
    and every choice of the optional filters:
    [final_count = total_input - invalid - filtered_by_region - filtered_by_amount],
    and [final_count] is the length of the list of valid transactions returned. *)
Theorem filter_summary_adds_up (txs : list Tx) (region : option string)
    (min_amount max_amount : option F) :
  let r := validate_and_filter txs region min_amount max_amount in
  final_count (summary_of r) =
    total_input (summary_of r) - invalid (summary_of r)
    - filtered_by_region (summary_of r) - filtered_by_amount (summary_of r)
  /\ final_count (summary_of r) = len (valid_of r).
Proof.
  unfold validate_and_filter. rewrite validation_loop.
  pose proof (len_invalid_valid txs) as Hlen.
  set (dropped := len (List.filter is_invalid txs)) in *.
  change ([] ++ List.filter passes_validation txs)
    with (List.filter passes_validation txs).
  set (valid0 := List.filter passes_validation txs) in *.
  destruct (region_given region) as [r|];
    destruct min_amount as [lo|]; destruct max_amount as [hi|];
    cbv beta iota zeta; unfold summary_of, valid_of;
    cbn [fst snd final_count total_input invalid filtered_by_region filtered_by_amount];
    split; try reflexivity; lia.
Qed.

End ValidationFacts.

(** ** Sums over the entries of a grouping *)

Section MonoidSums.
Variables (M : Type) (op : M -> M -> M) (e : M).
Hypothesis op_assoc : forall x y z, op x (op y z) = op (op x y) z.
Hypothesis op_comm : forall x y, op x y = op y x.
Hypothesis op_unit : forall x, op e x = x.

Lemma fold_op_start (X : Type) (g : X -> M) (l : list X) (a : M) :
  fold_left (fun acc x => op acc (g x)) l a =
  op a (fold_left (fun acc x => op acc (g x)) l e).
Proof.
  revert a. induction l as [|x l IH]; intros a; simpl.
  - now rewrite op_comm, op_unit.
  - rewrite IH, (IH (op e (g x))), op_unit. now rewrite op_assoc.
Qed.

Lemma fold_op_cons (X : Type) (g : X -> M) (x : X) (l : list X) :
  fold_left (fun acc x => op acc (g x)) (x :: l) e =
  op (g x) (fold_left (fun acc x => op acc (g x)) l e).
Proof. simpl. now rewrite fold_op_start, op_unit. Qed.

Lemma fold_op_perm (X : Type) (g : X -> M) (l l' : list X) :
  Permutation l l' ->
  fold_left (fun acc x => op acc (g x)) l e = fold_left (fun acc x => op acc (g x)) l' e.
Proof.
  induction 1 as [|x l l' _ IH|x y l|l l' l'' _ IH1 _ IH2].
  - reflexivity.
  - now rewrite !fold_op_cons, IH.
  - rewrite !fold_op_cons, !op_assoc. now rewrite (op_comm (g y)).
  - now rewrite IH1.
Qed.

Variables (T V : Type) (key : T -> string) (init : V) (upd : T -> V -> V).
Variables (f : V -> M) (a : T -> M).
Hypothesis f_init : f init = e.
Hypothesis f_upd : forall t v, f (upd t v) = op (f v) (a t).

Lemma sum_od_update (t : T) (d : list (string * V)) :
  od_mem (key t) d = true ->
  fold_left (fun acc kv => op acc (f (snd kv))) (od_update (key t) (upd t) d) e =
  op (fold_left (fun acc kv => op acc (f (snd kv))) d e) (a t).
Proof.
  unfold od_mem. induction d as [|[k v] d IH]; simpl fold_left at 1; [discriminate|].
  intros Hk. cbn [od_update]. cbn [existsb fst] in Hk.
  destruct (String.eqb k (key t)).
  - rewrite !fold_op_cons. cbn [snd]. rewrite f_upd.
    rewrite <- !op_assoc. f_equal. apply op_comm.
  - rewrite !fold_op_cons. cbn [snd]. rewrite IH by exact Hk.
    now rewrite op_assoc.
Qed.

Lemma sum_group_step (t : T) (d : list (string * V)) :
  fold_left (fun acc kv => op acc (f (snd kv))) (group_step key init upd d t) e =
  op (fold_left (fun acc kv => op acc (f (snd kv))) d e) (a t).
Proof.
  unfold group_step. rewrite sum_od_update by apply od_mem_setdefault.
  f_equal. unfold od_setdefault. destruct (od_mem (key t) d); [reflexivity|].
  rewrite fold_left_app. simpl. now rewrite f_init, op_comm, op_unit.
Qed.

(** The entries of the groups add up to the total over the elements. *)
Lemma sum_grouped (l : list T) :
  fold_left (fun acc kv => op acc (f (snd kv))) (grouped key init upd l) e =
  fold_left (fun acc t => op acc (a t)) l e.
Proof.
  rewrite <- fold_group_step.
  induction l as [|t l IH] using rev_ind; [reflexivity|].
  now rewrite !fold_left_app, <- IH; simpl; rewrite sum_group_step.
Qed.

End MonoidSums.

(** ** The aggregation functions *)

Section AggregationFacts.
Context {F : Type} {A : Arith F}.

Local Abbreviation Tx := (Transaction F).

Local Abbreviation region_init :=
  {| total_sales := of_int 0; transaction_count := 0; percentage := of_int 0 |}.
Local Abbreviation region_upd :=
  (fun (tx : Tx) (stats : RegionStats) =>
     {| total_sales := total_sales stats +! amount tx;
        transaction_count := transaction_count stats + 1;
        percentage := percentage stats |}).
Local Abbreviation product_init := {| total_qty := 0; total_revenue := of_int 0 |}.
Local Abbreviation product_upd :=
  (fun (tx : Tx) (stats : ProductStats) =>
     {| total_qty := total_qty stats + Quantity tx;
        total_revenue := total_revenue stats +! amount tx |}).

Lemma region_loop (txs : list Tx) :
  fold_left region_step txs [] = grouped (@Region F) region_init region_upd txs.
Proof. exact (fold_group_step _ _ _ txs). Qed.

Lemma region_fold (l : list Tx) (s0 : RegionStats) :
  let s := fold_left (fun v t => region_upd t v) l s0 in
  total_sales s = fold_left (fun total tx => total +! amount tx) l (total_sales s0) /\
  transaction_count s = transaction_count s0 + len l /\
  percentage s = percentage s0.
Proof.
  revert s0. induction l as [|tx l IH]; intros s0; simpl.
  - unfold len. simpl. repeat split. lia.
  - destruct (IH (region_upd tx s0)) as (H1 & H2 & H3).
    rewrite H1, H2, H3. unfold len. simpl. repeat split. lia.
Qed.

Lemma region_value (r : string) (txs : list Tx) :
  let s := group_value (@Region F) region_init region_upd r txs in
  total_sales s = calculate_total_revenue (of_region r txs) /\
  transaction_count s = len (of_region r txs) /\
  percentage s = of_int 0.
Proof.
  unfold group_value.
  destruct (region_fold (List.filter (fun t => String.eqb (Region t) r) txs) region_init)
    as (H1 & H2 & H3).
  repeat split; [exact H1 | | exact H3].
  rewrite H2. reflexivity.
Qed.

Lemma set_percentage_keeps (total : F) (s : RegionStats) :
  total_sales (set_percentage total s) = total_sales s /\
  transaction_count (set_percentage total s) = transaction_count s.
Proof. unfold set_percentage. destruct (of_int 0 <! total); split; reflexivity. Qed.

(** An entry of the result is the entry of its group, with its percentage. *)
Lemma region_wise_sales_entry (txs : list Tx) (r : string) (s : RegionStats) :
  In (r, s) (region_wise_sales txs) ->
  In r (first_seen (map (@Region F) txs)) /\
  s = set_percentage (calculate_total_revenue txs)
        (group_value (@Region F) region_init region_upd r txs).
Proof.
  unfold region_wise_sales. intros H.
  apply (Permutation_in _ (sorted_reverse_perm _ _ _)) in H.
  rewrite region_loop in H. unfold grouped in H. rewrite map_map in H.
  apply in_map_iff in H as [k [E Hk]]. simpl in E.
  inversion E; subst. split; [exact Hk | reflexivity].
Qed.

Lemma region_wise_sales_keys (txs : list Tx) :
  Permutation (map fst (region_wise_sales txs)) (first_seen (map (@Region F) txs)).
Proof.
  unfold region_wise_sales.
  eapply Permutation_trans; [apply Permutation_map, sorted_reverse_perm|].
  rewrite region_loop, map_map. simpl. unfold grouped. rewrite map_map. simpl.
  rewrite map_id. apply Permutation_refl.
Qed.

Lemma count_one (l : list Tx) (z : Z) :
  fold_left (fun acc (_ : Tx) => acc + 1) l z = z + len l.
Proof.
  revert z. unfold len. induction l as [|t l IH]; intros z; simpl; [lia|].
  rewrite IH. lia.
Qed.

Lemma sum_transaction_count_len (txs : list Tx) :
  sum_transaction_count (region_wise_sales txs) = len txs.
Proof.
  unfold sum_transaction_count, region_wise_sales.
  rewrite (@fold_op_perm Z Z.add 0 Z.add_assoc Z.add_comm Z.add_0_l _
             (fun kv => transaction_count (snd kv)) _ _ (sorted_reverse_perm _ _ _)).
  rewrite region_loop.
  rewrite <- (count_one txs 0) at 1.
  rewrite <- (@sum_grouped Z Z.add 0 Z.add_assoc Z.add_comm Z.add_0_l _ _
                (@Region F) region_init region_upd
                (@transaction_count F) (fun _ => 1) eq_refl (fun _ _ => eq_refl) txs).
  generalize (grouped (@Region F) region_init region_upd txs). intros d.
  generalize 0. induction d as [|kv d IH]; intros z; simpl; [reflexivity|].
  rewrite IH. do 2 f_equal. apply set_percentage_keeps.
Qed.

Lemma sum_total_sales_exact (txs : list Tx) :
  ExactAdd A -> sum_total_sales (region_wise_sales txs) = calculate_total_revenue txs.
Proof.
  intros (Hassoc & Hcomm & Hunit).
  unfold sum_total_sales, region_wise_sales.
  rewrite (@fold_op_perm F fadd (of_int 0) Hassoc Hcomm Hunit _
             (fun kv => total_sales (snd kv)) _ _ (sorted_reverse_perm _ _ _)).
  rewrite region_loop. unfold calculate_total_revenue at 2.
  rewrite <- (@sum_grouped F fadd (of_int 0) Hassoc Hcomm Hunit _ _
                (@Region F) region_init region_upd
                (@total_sales F) amount eq_refl (fun _ _ => eq_refl) txs).
  generalize (grouped (@Region F) region_init region_upd txs). intros d.
  generalize (of_int 0). induction d as [|kv d IH]; intros z; simpl; [reflexivity|].
  rewrite IH. do 2 f_equal. apply set_percentage_keeps.
Qed.

Lemma zero_percentages (txs : list Tx) :
  (of_int 0 <! calculate_total_revenue txs) = false ->
  Forall (fun kv => percentage (snd kv) = of_int 0) (region_wise_sales txs).
Proof.
  intros Hz. apply List.Forall_forall. intros [r s] Hin.
  apply region_wise_sales_entry in Hin as [_ ->].
  unfold set_percentage. rewrite Hz. apply region_value.
Qed.

End AggregationFacts.

Lemma exact_add : ExactAdd exact.
Proof.
  repeat split.
  - exact Qcplus_assoc.
  - exact Qcplus_comm.
  - exact Qcplus_0_l.
Qed.

Section Aggregation.
Context {F : Type} {A : Arith F}.

Local Abbreviation Tx := (Transaction F).

(** C1, evaluated on the code.  On the empty list the total revenue is [0.0]
    and the groupings are empty, but [find_peak_sales_day] does not return:
    [max] of the empty daily trend raises [ValueError].  The report's own
    [best_day] guards the same call and yields [None]. *)
Theorem empty_input (n threshold : Z) :
  calculate_total_revenue (@nil Tx) = of_int 0 /\
  region_wise_sales (@nil Tx) = [] /\
  top_selling_products (@nil Tx) n = [] /\
  low_performing_products (@nil Tx) threshold = [] /\
  daily_sales_trend (@nil Tx) = [] /\
  find_peak_sales_day (@nil Tx) = Raise ValueError /\
  report_best_day (@nil Tx) = None.
Proof.
  repeat split.
  unfold top_selling_products, slice_to. simpl.
  destruct (0 <=? n); now rewrite firstn_nil.
Qed.

(** C6, amended.  Every region's [total_sales] and [transaction_count] are the
    revenue and the number of that region's own transactions; the regions of
    the result are those of the input, once each; the counts add up to the
    number of transactions; whenever the total revenue is not positive (0 in
    particular) every percentage is [0.0]; and the regional totals add up to
    the total revenue when addition does not round. *)
Theorem region_totals_partition (txs : list Tx) :
  let stats := region_wise_sales txs in
  (forall r s, In (r, s) stats ->
     total_sales s = calculate_total_revenue (of_region r txs) /\
     transaction_count s = len (of_region r txs)) /\
  List.NoDup (map fst stats) /\
  (forall r, In r (map fst stats) <-> In r (map (@Region F) txs)) /\
  sum_transaction_count stats = len txs /\
  ((of_int 0 <! calculate_total_revenue txs) = false ->
   Forall (fun kv => percentage (snd kv) = of_int 0) stats) /\
  (ExactAdd A -> sum_total_sales stats = calculate_total_revenue txs).
Proof.
  cbv zeta. split; [|split; [|split; [|split; [|split]]]].
  - intros r s Hin. apply region_wise_sales_entry in Hin as [_ ->].
    destruct (set_percentage_keeps (calculate_total_revenue txs)
      (group_value (@Region F)
         {| total_sales := of_int 0; transaction_count := 0; percentage := of_int 0 |}
         (fun tx stats =>
            {| total_sales := total_sales stats +! amount tx;
               transaction_count := transaction_count stats + 1;
               percentage := percentage stats |}) r txs)) as [-> ->].
    split; apply region_value.
  - apply (Permutation_NoDup (Permutation_sym (region_wise_sales_keys txs))).
    apply first_seen_NoDup.
  - intros r. rewrite <- (first_seen_In (map (@Region F) txs) r).
    split; apply Permutation_in.
    + apply region_wise_sales_keys.
    + apply Permutation_sym, region_wise_sales_keys.
  - apply sum_transaction_count_len.
  - apply zero_percentages.
  - apply sum_total_sales_exact.
Qed.

End Aggregation.

(** A total revenue of 0 is not positive, in either arithmetic. *)
Lemma zero_revenue_not_positive :
  (@of_int float _ 0 <! of_int 0) = false /\ (@of_int Qc _ 0 <! of_int 0) = false.
Proof. split; reflexivity. Qed.

(** The witness of C6: over exact rationals the regional totals of the
    sample add up, and in binary64 a give-away alone, with total revenue 0,
    has the percentage 0. *)
Lemma region_totals_partition_witness :
  (ExactAdd exact /\
   sum_total_sales (region_wise_sales Samples.exact_tenths)
   = calculate_total_revenue Samples.exact_tenths) /\
  ((of_int 0 <! calculate_total_revenue [Samples.give_away]) = false /\
   Forall (fun kv => percentage (snd kv) = of_int 0)
          (region_wise_sales [Samples.give_away])).
Proof.
  split; split.
  - exact exact_add.
  - apply (region_totals_partition Samples.exact_tenths). exact exact_add.
  - reflexivity.
  - apply (region_totals_partition [Samples.give_away]). reflexivity.
Defined.

(** C6 as stated fails in binary64: with prices 0.1 (North), 0.2 and 0.3
    (South) the total revenue is 0.6000000000000001 while the regional totals
    0.5 and 0.1 add up to 0.6, in either order. *)
Lemma regional_totals_miss_total_revenue :
  sum_total_sales (region_wise_sales Samples.tenths)
    <> calculate_total_revenue Samples.tenths /\
  sum_total_sales (rev (region_wise_sales Samples.tenths))
    <> calculate_total_revenue Samples.tenths /\
  PrimFloat.eqb (sum_total_sales (region_wise_sales Samples.tenths))
                (calculate_total_revenue Samples.tenths) = false.
Proof.
  repeat split.
  - intros H.
    apply (f_equal (fun x => PrimFloat.eqb x (calculate_total_revenue Samples.tenths))) in H.
    vm_compute in H. discriminate.
  - intros H.
    apply (f_equal (fun x => PrimFloat.eqb x (calculate_total_revenue Samples.tenths))) in H.
    vm_compute in H. discriminate.
Qed.

(** ** Product rankings *)

Lemma fold_left_pointwise (X Y : Type) (f g : X -> Y -> X) (l : list Y) (x : X) :
  (forall a b, f a b = g a b) -> fold_left f l x = fold_left g l x.
Proof.
  intros H. revert x. induction l as [|y l IH]; intros x; simpl; [reflexivity|].
  now rewrite H, IH.
Qed.

Lemma filter_nothing (X : Type) (P : X -> bool) (l : list X) :
  (forall x, In x l -> P x = false) -> List.filter P l = [].
Proof.
  induction l as [|x l IH]; intros H; simpl; [reflexivity|].
  rewrite (H x (or_introl eq_refl)). apply IH. intros y Hy. apply H. now right.
Qed.

Lemma StronglySorted_weaken (X : Type) (R R' : X -> X -> Prop) (l : list X) :
  (forall a b, R a b -> R' a b) -> StronglySorted R l -> StronglySorted R' l.
Proof.
  intros HR Hs. induction Hs as [|t l _ IH Hall]; constructor; [exact IH|].
  eapply List.Forall_impl; [|exact Hall]. intros u. apply HR.
Qed.

Lemma Zltb_asym (a b : Z) : (a <? b) = true -> (b <? a) = false.
Proof. intros H. apply Z.ltb_lt in H. apply Z.ltb_ge. lia. Qed.

Lemma Zltb_negtrans (a b c : Z) : (a <? b) = false -> (b <? c) = false -> (a <? c) = false.
Proof. intros H1 H2. apply Z.ltb_ge in H1, H2. apply Z.ltb_ge. lia. Qed.

Section ProductFacts.
Context {F : Type} {A : Arith F}.

Local Abbreviation Tx := (Transaction F).

Local Abbreviation product_init := {| total_qty := 0; total_revenue := of_int 0 |}.
Local Abbreviation product_upd :=
  (fun (tx : Tx) (stats : ProductStats) =>
     {| total_qty := total_qty stats + Quantity tx;
        total_revenue := total_revenue stats +! amount tx |}).
Local Abbreviation sales_init := {| qty := 0; sales_revenue := of_int 0 |}.
Local Abbreviation sales_upd :=
  (fun (tx : Tx) (v : ProductSales) =>
     (fun stats => {| qty := qty stats; sales_revenue := sales_revenue stats +! amount tx |})
       ((fun stats => {| qty := qty stats + Quantity tx; sales_revenue := sales_revenue stats |})
          v)).

Lemma product_loop (txs : list Tx) :
  fold_left product_step txs [] = grouped (@ProductName F) product_init product_upd txs.
Proof. exact (fold_group_step _ _ _ txs). Qed.

Lemma product_fold (l : list Tx) (s0 : ProductStats) :
  let s := fold_left (fun v t => product_upd t v) l s0 in
  total_qty s = fold_left (fun total tx => total + Quantity tx) l (total_qty s0) /\
  total_revenue s = fold_left (fun total tx => total +! amount tx) l (total_revenue s0).
Proof.
  revert s0. induction l as [|tx l IH]; intros s0; simpl; [split; reflexivity|].
  apply (IH (product_upd tx s0)).
Qed.

(** The product loop of [data_processor] computes the groups of the spec. *)
Lemma product_stats_groups (txs : list Tx) :
  map product_triple (fold_left product_step txs []) = product_groups txs.
Proof.
  rewrite product_loop. unfold grouped, product_groups. rewrite map_map.
  apply map_ext. intros p.
  destruct (product_fold (of_product p txs) product_init) as [Hq Hr].
  unfold product_triple. simpl. f_equal; [f_equal|]; [exact Hq | exact Hr].
Qed.

Lemma product_sales_step_group (d : list (string * ProductSales)) (tx : Tx) :
  product_sales_step d tx = group_step (@ProductName F) sales_init sales_upd d tx.
Proof.
  unfold product_sales_step, product_sales_default, group_step.
  now rewrite od_setdefault_again, od_update_update.
Qed.

Lemma sales_fold (l : list Tx) (s0 : ProductSales) :
  let s := fold_left (fun v t => sales_upd t v) l s0 in
  qty s = fold_left (fun total tx => total + Quantity tx) l (qty s0) /\
  sales_revenue s = fold_left (fun total tx => total +! amount tx) l (sales_revenue s0).
Proof.
  revert s0. induction l as [|tx l IH]; intros s0; simpl; [split; reflexivity|].
  apply (IH (sales_upd tx s0)).
Qed.

(** The report's own product loop computes the same groups. *)
Lemma report_product_sales_groups (txs : list Tx) :
  map sales_triple (report_product_sales txs) = product_groups txs.
Proof.
  unfold report_product_sales.
  rewrite (fold_left_pointwise _ _ txs [] product_sales_step_group).
  rewrite fold_group_step. unfold grouped, product_groups. rewrite map_map.
  apply map_ext. intros p.
  destruct (sales_fold (of_product p txs) sales_init) as [Hq Hr].
  unfold sales_triple. simpl. f_equal; [f_equal|]; [exact Hq | exact Hr].
Qed.

Lemma top_selling_products_eq (txs : list Tx) (n : Z) :
  top_selling_products txs n =
  slice_to n (sorted_reverse Z.ltb triple_qty (product_groups txs)).
Proof.
  unfold top_selling_products.
  rewrite slice_to_map, <- product_stats_groups. f_equal.
  apply sorted_reverse_map. reflexivity.
Qed.

Lemma report_top_products_eq (txs : list Tx) :
  map sales_triple (report_top_products txs) =
  slice_to 5 (sorted_reverse fltb triple_revenue (product_groups txs)).
Proof.
  unfold report_top_products.
  rewrite slice_to_map, <- report_product_sales_groups. f_equal.
  apply sorted_reverse_map. reflexivity.
Qed.

Lemma total_quantity_grows (l : list Tx) (a : Z) :
  Forall (fun tx => 0 < Quantity tx) l ->
  a + len l <= fold_left (fun total tx => total + Quantity tx) l a.
Proof.
  intros H. revert a. unfold len.
  induction H as [|tx l Hq _ IH]; intros a; simpl; [lia|].
  specialize (IH (a + Quantity tx)). lia.
Qed.

Lemma valid_quantity (tx : Tx) : is_invalid tx = false -> 0 < Quantity tx.
Proof.
  unfold is_invalid. intros H.
  repeat (apply orb_false_iff in H as [H _]).
  now apply Z.leb_gt.
Qed.

(** Every product group of transactions with positive quantities has a
    positive quantity. *)
Lemma group_quantity_positive (txs : list Tx) (t : string * Z * F) :
  Forall (fun tx => 0 < Quantity tx) txs ->
  In t (product_groups txs) -> 0 < triple_qty t.
Proof.
  intros Hpos Hin. unfold product_groups in Hin.
  apply in_map_iff in Hin as [p [<- Hp]]. unfold triple_qty. simpl.
  apply first_seen_In, in_map_iff in Hp as [tx [Hname Htx]].
  assert (Hin : In tx (of_product p txs)).
  { apply List.filter_In. split; [exact Htx|]. rewrite Hname. apply String.eqb_refl. }
  assert (Hall : Forall (fun tx => 0 < Quantity tx) (of_product p txs)).
  { apply List.Forall_forall. intros x Hx. apply List.filter_In in Hx as [Hx _].
    rewrite List.Forall_forall in Hpos. now apply Hpos. }
  pose proof (total_quantity_grows 0 Hall) as Hge.
  unfold total_quantity.
  destruct (of_product p txs) as [|x l]; [destruct Hin|].
  unfold len in Hge. simpl length in Hge. lia.
Qed.

End ProductFacts.

Section Rankings.
Context {F : Type} {A : Arith F}.

Local Abbreviation Tx := (Transaction F).

(** C7.  For a count [n] of products, [0 <= n], [top_selling_products]
    returns the first [n] entries of a ranking of the product groups (one
    triple of name, total quantity and total revenue per product name,
    [product_groups]): the ranking holds exactly the groups, in descending
    order of total quantity, and groups of equal quantity keep their
    first-seen order.  So it returns [min n (number of distinct product
    names)] triples; [n] defaults to 5. *)
Theorem top_selling_products_ranking (txs : list Tx) (n : Z) :
  0 <= n ->
  (exists ranking,
     top_selling_products txs n = firstn (Z.to_nat n) ranking /\
     Permutation ranking (product_groups txs) /\
     StronglySorted (fun a b => triple_qty b <= triple_qty a) ranking /\
     (forall q, with_qty q ranking = with_qty q (product_groups txs))) /\
  map triple_name (product_groups txs) = first_seen (map (@ProductName F) txs) /\
  len (top_selling_products txs n) = Z.min n (len (first_seen (map (@ProductName F) txs))) /\
  top_selling_products_default txs = top_selling_products txs 5.
Proof.
  intros Hn. rewrite top_selling_products_eq, slice_to_nonneg by exact Hn.
  pose proof (sorted_reverse_perm Z.ltb triple_qty (product_groups txs)) as Hperm.
  split; [|split; [|split]].
  - exists (sorted_reverse Z.ltb triple_qty (product_groups txs)).
    split; [reflexivity|]. split; [exact Hperm|]. split.
    + eapply StronglySorted_weaken;
        [|exact (sorted_reverse_sorted Z.ltb triple_qty Zltb_asym Zltb_negtrans
                   (product_groups txs))].
      intros a b Hab. now apply Z.ltb_ge.
    + intros q. apply sorted_reverse_stable. intros a b Ha Hb.
      apply Z.eqb_eq in Ha, Hb. apply Z.ltb_ge. lia.
  - unfold product_groups. rewrite map_map. apply map_id.
  - unfold len. rewrite length_firstn, (Permutation_length Hperm).
    unfold product_groups. rewrite length_map. lia.
  - reflexivity.
Qed.

(** C10.  On transactions that passed validation the report's list of low
    performing products is empty, so the line always reads "None". *)
Theorem report_low_products_none (txs : list Tx) :
  Forall (fun tx => is_invalid tx = false) txs ->
  report_low_products txs = [] /\
  report_low_products_line txs = "Low Performing Products: None".
Proof.
  intros Hvalid.
  assert (Hnone : report_low_products txs = []).
  { unfold report_low_products. rewrite filter_nothing; [reflexivity|].
    intros kv Hkv. apply Z.eqb_neq.
    assert (Hin : In (sales_triple kv) (product_groups txs)).
    { rewrite <- report_product_sales_groups. now apply in_map. }
    apply group_quantity_positive in Hin.
    - unfold triple_qty, sales_triple in Hin. simpl in Hin. lia.
    - eapply List.Forall_impl; [|exact Hvalid]. intros tx. apply valid_quantity. }
  split; [exact Hnone|].
  unfold report_low_products_line. now rewrite Hnone.
Qed.

End Rankings.

(** The witness of C7, on the two orders of the spec's example. *)
Lemma top_selling_products_ranking_witness :
  0 <= 5 /\
  len (top_selling_products Samples.orders 5)
  = Z.min 5 (len (first_seen (map (@ProductName float) Samples.orders))).
Proof.
  split; [lia|].
  apply (top_selling_products_ranking Samples.orders (n := 5)). lia.
Defined.

(** An [n] below 0 is no count: the slice [l[:-1]] drops the last entry. *)
Lemma top_selling_products_negative_slice :
  map triple_name (top_selling_products Samples.orders 5) = ["Mouse"; "KB"] /\
  map triple_name (top_selling_products Samples.orders (-1)) = ["Mouse"].
Proof. split; reflexivity. Qed.

(** The two rankings differ: one laptop at 1000 outranks five pens at 10 in
    the report, and the pens outrank the laptop in [top_selling_products]. *)
Lemma report_ranks_by_revenue_not_quantity :
  forallb passes_validation [Samples.laptop; Samples.pens] = true /\
  map fst (report_top_products [Samples.laptop; Samples.pens]) = ["Laptop"; "Pen"] /\
  map triple_name (top_selling_products [Samples.laptop; Samples.pens] 5) = ["Pen"; "Laptop"].
Proof. repeat split. Qed.

(** The witness of C10, on the spec's example: both products count as low
    performing for the threshold 10, and the report lists none. *)
Lemma report_low_products_none_witness :
  Forall (fun tx => is_invalid tx = false) Samples.orders /\
  map triple_name (low_performing_products_default Samples.orders) = ["KB"; "Mouse"] /\
  report_low_products_line Samples.orders = "Low Performing Products: None".
Proof.
  assert (H : Forall (fun tx => is_invalid tx = false) Samples.orders).
  { repeat constructor. }
  split; [exact H|]. split; [reflexivity|].
  apply (report_low_products_none H).
Defined.

(** ** Validation: what the returned list holds *)

Section Validation.
Context {F : Type} {A : Arith F}.

Local Abbreviation Tx := (Transaction F).

(** Without optional filters the returned list holds exactly the
    input transactions that meet none of the five invalidity conditions
    (quantity <= 0, unit price <= 0, a missing prefix of the transaction,
    product or customer id), in input order; so it holds no record with
    quantity <= 0 or unit price <= 0.  The records dropped are counted, and
    those kept are returned as they came. *)
Theorem validate_keeps_what_passes (txs : list Tx) :
  let r := validate_and_filter txs None None None in
  valid_of r = List.filter passes_validation txs /\
  (forall tx, In tx (valid_of r) <-> In tx txs /\ is_invalid tx = false) /\
  Forall (fun tx => 0 < Quantity tx /\ (UnitPrice tx <=! of_int 0) = false) (valid_of r) /\
  invalid_count_of r = len txs - len (valid_of r) /\
  invalid (summary_of r) = invalid_count_of r.
Proof.
  cbv zeta. rewrite validate_without_filters. unfold valid_of, invalid_count_of, summary_of.
  cbn [fst snd invalid]. split; [reflexivity|]. split; [|split; [|split]].
  - intros tx. rewrite List.filter_In, is_invalid_passes, negb_false_iff. reflexivity.
  - apply List.Forall_forall. intros tx Htx. apply List.filter_In in Htx as [_ Htx].
    now apply passes_validation_positive.
  - pose proof (len_invalid_valid txs). lia.
  - reflexivity.
Qed.

End Validation.

(** In binary64 a price is not [<= 0] exactly when it is positive or NaN. *)
Lemma binary64_not_le_zero (x : float) :
  negb (x <=! of_int 0) = (of_int 0 <! x) || is_nan x.
Proof.
  change (negb (PrimFloat.leb x zero) = PrimFloat.ltb zero x || is_nan x).
  unfold is_nan. rewrite FloatAxioms.leb_spec, FloatAxioms.ltb_spec, FloatAxioms.eqb_spec.
  change (Prim2SF zero) with (S754_zero false).
  destruct (Prim2SF x) as [s| s| |s m e];
    [destruct s; reflexivity | destruct s; reflexivity | reflexivity |].
  unfold SFleb, SFltb, SFeqb, SFcompare.
  rewrite Z.compare_refl, Pos.compare_cont_refl.
  destruct s; reflexivity.
Qed.

(** Among numbers the validator keeps what the rule of the positive price
    keeps. *)
Lemma passes_validation_numbers (tx : Transaction float) :
  is_nan (UnitPrice tx) = false ->
  passes_validation tx = positive_and_prefixed tx.
Proof.
  intros Hnum. unfold passes_validation, positive_and_prefixed.
  rewrite binary64_not_le_zero, Hnum, orb_false_r.
  now rewrite Z.ltb_antisym.
Qed.

(** C5, evaluated on the code.  The line [T9|2024-01-01|P7|Cable|1|nan|C3|East]
    is parsed, [float("nan")] being a float; its unit price is not greater
    than 0, and the validator returns the record as valid and counts nothing
    invalid, because the test [UnitPrice <= 0] is false of NaN.  The list of
    the transactions with a positive quantity, a positive unit price and the
    three prefixes is empty. *)
Theorem nan_price_passes_validation :
  parse_transactions ["T9|2024-01-01|P7|Cable|1|nan|C3|East"] = [Samples.nan_priced] /\
  valid_of (validate_and_filter [Samples.nan_priced] None None None) = [Samples.nan_priced] /\
  invalid_count_of (validate_and_filter [Samples.nan_priced] None None None) = 0 /\
  (UnitPrice Samples.nan_priced <=! of_int 0) = false /\
  (of_int 0 <! UnitPrice Samples.nan_priced) = false /\
  List.filter positive_and_prefixed [Samples.nan_priced] = [].
Proof. repeat split. Qed.

(** ** Enrichment and the snapshot file *)

Lemma string_append_assoc (a b c : string) :
  ((a ++ b) ++ c = a ++ (b ++ c))%string.
Proof.
  induction a as [|x a IH]; [reflexivity|].
  change (String x ((a ++ b) ++ c) = String x (a ++ (b ++ c)))%string.
  now rewrite IH.
Qed.

Lemma digits_prefix_spec (s : string) :
  exists post,
    s = (digits_prefix s ++ post)%string /\
    all_digits (digits_prefix s) = true /\
    starts_with_digit post = false.
Proof.
  induction s as [|c s (post & Hs & Hd & Hp)]; simpl.
  - exists EmptyString. repeat split.
  - destruct (is_digit c) eqn:Hc.
    + exists post. split; [|split].
      * change (String c s = String c (digits_prefix s ++ post)%string).
        now rewrite <- Hs.
      * cbn [all_digits]. now rewrite Hc, Hd.
      * exact Hp.
    + exists (String c s). split; [reflexivity|]. split; [reflexivity|].
      simpl. exact Hc.
Qed.

(** [re.search] returns the first run of digits, as long as it can be. *)
Lemma re_search_digits_some (s group : string) :
  re_search_digits s = Some group ->
  exists pre post,
    s = (pre ++ group ++ post)%string /\
    no_digits pre = true /\
    all_digits group = true /\ group <> EmptyString /\
    starts_with_digit post = false.
Proof.
  induction s as [|c s IH]; simpl; [discriminate|].
  destruct (is_digit c) eqn:Hc.
  - intros E. injection E as <-.
    destruct (digits_prefix_spec s) as (post & Hs & Hd & Hp).
    exists EmptyString, post. split; [|split; [|split; [|split]]].
    + change (String c s = String c (digits_prefix s ++ post)%string).
      now rewrite <- Hs.
    + reflexivity.
    + cbn [all_digits]. now rewrite Hc, Hd.
    + discriminate.
    + exact Hp.
  - intros E. destruct (IH E) as (pre & post & Hs & Hn & Hd & Hne & Hp).
    exists (String c pre), post. split; [|split; [|split; [|split]]].
    + change (String c s = String c (pre ++ group ++ post)%string).
      now rewrite <- Hs.
    + cbn [no_digits]. now rewrite Hc, Hn.
    + exact Hd.
    + exact Hne.
    + exact Hp.
Qed.

Lemma re_search_digits_none (s : string) :
  re_search_digits s = None <-> no_digits s = true.
Proof.
  induction s as [|c s IH]; simpl; [tauto|].
  destruct (is_digit c); simpl; [split; discriminate | exact IH].
Qed.

Section Enrichment.
Context {F : Type} {A : Arith F}.
Variable str_float : F -> string.

Local Abbreviation Tx := (Transaction F).

Lemma enrich_one_base (product_mapping : gmap Z (CatalogInfo F)) (tx : Tx) :
  base (enrich_one product_mapping tx) = tx.
Proof.
  unfold enrich_one, enrich_try, py_int.
  destruct (re_search_digits (ProductID tx)) as [group|]; simpl; [|reflexivity].
  destruct (int_max_str_digits <? String.length group)%nat; simpl; [reflexivity|].
  destruct (digits_value 0 group =? 0); simpl; [reflexivity|].
  destruct (product_mapping !! digits_value 0 group); reflexivity.
Qed.

(** C2, evaluated on the code.  An enrichment field that is [None] is written
    as the text "None", as [str(None)] gives it, whichever of the three it is;
    the first definition of [save_enriched_data], which the module replaces,
    writes the empty string there.  [API_Match] is written as "True" or
    "False" by both. *)
Theorem snapshot_row_renders_None (tx : Tx) (c b r : pyval F) (m : bool) :
  let field (n : nat) (e : Enriched F) := nth n (row str_float e) "" in
  let field_first (n : nat) (e : Enriched F) := nth n (row_first_definition str_float e) "" in
  let record c b r :=
    {| base := tx; API_Category := c; API_Brand := b; API_Rating := r; API_Match := m |} in
  field 8%nat (record PyNone b r) = "None" /\
  field 9%nat (record c PyNone r) = "None" /\
  field 10%nat (record c b PyNone) = "None" /\
  field 11%nat (record c b r) = (if m then "True" else "False") /\
  field_first 8%nat (record PyNone b r) = "" /\
  field_first 9%nat (record c PyNone r) = "" /\
  field_first 10%nat (record c b PyNone) = "" /\
  field_first 11%nat (record c b r) = (if m then "True" else "False") /\
  join "|" (row str_float (no_match tx))
    = (join "|" (base_fields str_float tx) ++ "|None|None|None|False")%string.
Proof.
  cbv zeta. unfold row, row_first_definition, base_fields.
  cbn [app nth py_str API_Category API_Brand API_Rating API_Match base no_match join].
  repeat split; try (destruct m; reflexivity).
  rewrite !string_append_assoc. reflexivity.
Qed.

(** C9, evaluated on the code.  On the empty list [enrich_sales_data] writes
    the header of the snapshot and then raises [ZeroDivisionError] in its
    console summary: no list is returned. *)
Theorem enrich_sales_data_empty (product_mapping : gmap Z (CatalogInfo F)) :
  returned (enrich_sales_data str_float [] product_mapping) = Raise ZeroDivisionError /\
  snapshot (enrich_sales_data str_float [] product_mapping) = [join "|" header].
Proof. split; reflexivity. Qed.

(** X20.  On a list that is not empty [enrich_sales_data] returns one record
    per input record, in input order, each the input record with its four
    new keys, and the snapshot holds the header and the row of each. *)
Lemma enrich_sales_data_nonempty (txs : list Tx) (product_mapping : gmap Z (CatalogInfo F)) :
  txs <> [] ->
  exists enriched,
    returned (enrich_sales_data str_float txs product_mapping) = Ret enriched /\
    map (@base F) enriched = txs /\
    enriched = map (enrich_one product_mapping) txs /\
    snapshot (enrich_sales_data str_float txs product_mapping)
      = join "|" header :: map (fun e => join "|" (row str_float e)) enriched.
Proof.
  intros Hne. exists (map (enrich_one product_mapping) txs).
  unfold enrich_sales_data. cbn [returned snapshot].
  split; [|split; [|split; reflexivity]].
  - destruct txs as [|tx txs]; [contradiction | reflexivity].
  - rewrite map_map. rewrite <- (map_id txs) at 2.
    apply map_ext. apply enrich_one_base.
Qed.

(** The rule of enrichment for every id but 0: a record whose numeric id
    the catalog lists takes the entry's category, brand and rating. *)
Lemma enrich_one_matched (product_mapping : gmap Z (CatalogInfo F)) (tx : Tx)
    (group : string) (api_info : CatalogInfo F) :
  re_search_digits (ProductID tx) = Some group ->
  (String.length group <= int_max_str_digits)%nat ->
  digits_value 0 group <> 0 ->
  product_mapping !! digits_value 0 group = Some api_info ->
  enrich_one product_mapping tx =
  {| base := tx; API_Category := category api_info; API_Brand := brand api_info;
     API_Rating := rating api_info; API_Match := true |}.
Proof.
  intros Hg Hlen Hid Hm. unfold enrich_one, enrich_try, py_int. rewrite Hg.
  apply Nat.ltb_ge in Hlen. rewrite Hlen. simpl.
  apply Z.eqb_neq in Hid. now rewrite Hid, Hm.
Qed.

(** A record without digits in its product id, or whose numeric id the
    catalog does not list, is recorded as unmatched. *)
Lemma enrich_one_unmatched (product_mapping : gmap Z (CatalogInfo F)) (tx : Tx) :
  match re_search_digits (ProductID tx) with
  | Some group => product_mapping !! digits_value 0 group = None
  | None => True
  end ->
  enrich_one product_mapping tx = no_match tx.
Proof.
  unfold enrich_one, enrich_try, py_int.
  destruct (re_search_digits (ProductID tx)) as [group|]; simpl; [|reflexivity].
  intros Hm. destruct (int_max_str_digits <? String.length group)%nat; simpl; [reflexivity|].
  rewrite Hm. now destruct (digits_value 0 group =? 0).
Qed.

(** The id 0 is never matched, whatever the catalog lists. *)
Lemma enrich_one_zero (product_mapping : gmap Z (CatalogInfo F)) (tx : Tx) (group : string) :
  re_search_digits (ProductID tx) = Some group ->
  digits_value 0 group = 0 ->
  enrich_one product_mapping tx = no_match tx.
Proof.
  intros Hg Hz. unfold enrich_one, enrich_try, py_int. rewrite Hg.
  destruct (int_max_str_digits <? String.length group)%nat; simpl; [reflexivity|].
  now rewrite Hz.
Qed.

(** A record whose id cannot be converted is recorded as unmatched. *)
Lemma enrich_one_conversion_error (product_mapping : gmap Z (CatalogInfo F)) (tx : Tx)
    (group : string) :
  re_search_digits (ProductID tx) = Some group ->
  (int_max_str_digits < String.length group)%nat ->
  enrich_try product_mapping tx = Raise ValueError /\
  enrich_one product_mapping tx = no_match tx.
Proof.
  intros Hg Hlen. unfold enrich_one, enrich_try, py_int. rewrite Hg.
  apply Nat.ltb_lt in Hlen. rewrite Hlen. split; reflexivity.
Qed.

End Enrichment.

(** C4, evaluated on the code.  The product id "P0" yields the numeric id 0,
    which the catalog lists ([create_product_mapping] keeps every id that is
    not [None]), and the record is still recorded as unmatched: the test
    [if product_id and ...] takes the id 0 for a missing id. *)
Theorem product_id_zero_is_unmatched :
  re_search_digits (ProductID Samples.product_zero) = Some "0" /\
  py_int "0" = Ret 0 /\
  Samples.catalog_zero !! 0 =
    Some {| title := PyStr "Sample"; category := PyStr "Misc";
            brand := PyStr "Unknown"; rating := PyFloat 3.5%float |} /\
  enrich_one Samples.catalog_zero Samples.product_zero = no_match Samples.product_zero.
Proof. repeat split. Qed.

(** The worked example of the spec, run on the code: total revenue 1100,
    North with 1000 (90.91 percent), the first record matched and the second
    not. *)
Example worked_example :
  calculate_total_revenue Samples.orders = 1100%float /\
  map (fun kv => (fst kv, total_sales (snd kv), percentage (snd kv)))
      (region_wise_sales Samples.orders) = Samples.orders_by_region /\
  map (@API_Match float) (map (enrich_one Samples.catalog) Samples.orders) = [true; false].
Proof. repeat split. Qed.

(** * Further properties of the code *)

(** ** Text *)

Section StripFacts.
Variable blank : ascii -> bool.

Lemma lstrip_with_idem (s : string) :
  lstrip_with blank (lstrip_with blank s) = lstrip_with blank s.
Proof.
  induction s as [|c s IH]; simpl; [reflexivity|].
  destruct (blank c) eqn:E; [exact IH|]. simpl. now rewrite E.
Qed.

Lemma rstrip_lstrip (s : string) :
  rstrip_with blank (lstrip_with blank s) = lstrip_with blank (rstrip_with blank s).
Proof.
  induction s as [|c s IH]; simpl; [reflexivity|].
  destruct (blank c) eqn:E.
  - rewrite IH. destruct (rstrip_with blank s) as [|d r]; [reflexivity|].
    cbn [lstrip_with]. now rewrite E.
  - cbn [rstrip_with]. destruct (rstrip_with blank s) as [|d r]; cbn [lstrip_with]; now rewrite E.
Qed.

Lemma rstrip_with_idem (s : string) :
  rstrip_with blank (rstrip_with blank s) = rstrip_with blank s.
Proof.
  induction s as [|c s IH]; simpl; [reflexivity|].
  destruct (rstrip_with blank s) as [|d r] eqn:E.
  - destruct (blank c) eqn:Ec; [reflexivity|]. cbn [rstrip_with]. now rewrite Ec.
  - cbn [rstrip_with] in *. now rewrite IH.
Qed.

Lemma strip_with_idem (s : string) :
  strip_with blank (strip_with blank s) = strip_with blank s.
Proof.
  unfold strip_with.
  now rewrite rstrip_lstrip, lstrip_with_idem, rstrip_with_idem.
Qed.

(** A stripped string neither begins nor ends with a blank. *)
Lemma lstrip_with_head (s : string) (c : ascii) (rest : string) :
  lstrip_with blank s = String c rest -> blank c = false.
Proof.
  induction s as [|d s IH]; simpl; [discriminate|].
  destruct (blank d) eqn:E; [exact IH|]. intros H. now inversion H; subst.
Qed.

Lemma rstrip_with_last (s pre : string) (c : ascii) :
  rstrip_with blank s = (pre ++ String c EmptyString)%string -> blank c = false.
Proof.
  revert pre. induction s as [|d s IH]; intros pre; simpl.
  - destruct pre; discriminate.
  - destruct (rstrip_with blank s) as [|e r] eqn:E.
    + destruct (blank d) eqn:Ed; [destruct pre; discriminate|].
      destruct pre as [|p pre]; [intros H; now inversion H; subst|].
      intros H. inversion H as [[Hd Hp]]. destruct pre; discriminate.
    + destruct pre as [|p pre]; [discriminate|].
      intros H. inversion H as [[Hd Hp]]. now apply (IH pre).
Qed.

Lemma strip_with_head (s : string) (c : ascii) (rest : string) :
  strip_with blank s = String c rest -> blank c = false.
Proof. apply lstrip_with_head. Qed.

Lemma strip_with_last (s pre : string) (c : ascii) :
  strip_with blank s = (pre ++ String c EmptyString)%string -> blank c = false.
Proof. unfold strip_with. rewrite <- rstrip_lstrip. apply rstrip_with_last. Qed.

End StripFacts.

Lemma append_cons (c : ascii) (a b : string) :
  (String c a ++ b)%string = String c (a ++ b)%string.
Proof. reflexivity. Qed.

Lemma append_nil_l (b : string) : (EmptyString ++ b)%string = b.
Proof. reflexivity. Qed.

Lemma count_char_append (c : ascii) (a b : string) :
  count_char c (a ++ b)%string = (count_char c a + count_char c b)%nat.
Proof.
  induction a as [|x a IH]; [reflexivity|].
  rewrite append_cons. simpl. destruct (Ascii.eqb x c); simpl; now rewrite IH.
Qed.

Lemma split_on_length (sep : ascii) (s : string) :
  length (split_on sep s) = S (count_char sep s).
Proof.
  induction s as [|c s IH]; simpl; [reflexivity|].
  destruct (Ascii.eqb c sep); simpl; [now rewrite IH|].
  destruct (split_on sep s); simpl in *; [discriminate | exact IH].
Qed.

(** A field without separator, followed by a separator, is the first part. *)
Lemma split_on_field (sep : ascii) (a b : string) :
  count_char sep a = 0%nat ->
  split_on sep (a ++ String sep b)%string = a :: split_on sep b.
Proof.
  induction a as [|c a IH]; intros Ha.
  - rewrite append_nil_l. simpl. now rewrite Ascii.eqb_refl.
  - rewrite append_cons. simpl in *.
    destruct (Ascii.eqb c sep); [discriminate|]. now rewrite IH.
Qed.

Lemma split_on_whole (sep : ascii) (a : string) :
  count_char sep a = 0%nat -> split_on sep a = [a].
Proof.
  induction a as [|c a IH]; intros Ha; simpl in *; [reflexivity|].
  destruct (Ascii.eqb c sep); [discriminate|]. now rewrite IH.
Qed.

(** Splitting undoes joining when no field holds the separator. *)
Lemma split_on_join (sep : ascii) (fields : list string) :
  fields <> [] ->
  Forall (fun f => count_char sep f = 0%nat) fields ->
  split_on sep (join (String sep EmptyString) fields) = fields.
Proof.
  intros Hne Hall. induction Hall as [|f fields Hf Hall IH]; [contradiction|].
  destruct fields as [|g fields].
  - simpl. now apply split_on_whole.
  - change (join (String sep EmptyString) (f :: g :: fields))
      with (f ++ String sep EmptyString ++ join (String sep EmptyString) (g :: fields))%string.
    rewrite append_cons, append_nil_l, split_on_field by exact Hf.
    f_equal. apply IH. discriminate.
Qed.

(** Joining [n] fields gives a string with at least [n - 1] separators. *)
Lemma count_char_join (sep : ascii) (fields : list string) :
  (length fields <= S (count_char sep (join (String sep EmptyString) fields)))%nat.
Proof.
  induction fields as [|f fields IH]; [simpl; lia|].
  destruct fields as [|g fields]; [simpl; lia|].
  change (join (String sep EmptyString) (f :: g :: fields))
    with (f ++ String sep EmptyString ++ join (String sep EmptyString) (g :: fields))%string.
  rewrite count_char_append, append_cons, append_nil_l.
  cbn [count_char]. rewrite Ascii.eqb_refl.
  simpl length in *. lia.
Qed.

(** ** Reading and parsing *)

Lemma count_char_lstrip (blank : ascii -> bool) (c : ascii) (s : string) :
  (count_char c (lstrip_with blank s) <= count_char c s)%nat.
Proof.
  induction s as [|a s IH]; simpl; [lia|].
  destruct (blank a); simpl; destruct (Ascii.eqb a c); lia.
Qed.

Lemma count_char_rstrip (blank : ascii -> bool) (c : ascii) (s : string) :
  (count_char c (rstrip_with blank s) <= count_char c s)%nat.
Proof.
  induction s as [|a s IH]; simpl; [lia|].
  destruct (rstrip_with blank s) as [|d r].
  - destruct (blank a); simpl; destruct (Ascii.eqb a c); simpl in *; lia.
  - cbn [count_char] in *. destruct (Ascii.eqb a c); lia.
Qed.

Lemma count_char_strip (c : ascii) (s : string) :
  count_char c s = 0%nat -> count_char c (strip s) = 0%nat.
Proof.
  intros H. unfold strip, strip_with.
  pose proof (count_char_lstrip is_space c (rstrip_with is_space s)).
  pose proof (count_char_rstrip is_space c s). lia.
Qed.

Lemma count_char_lstrip_eq (blank : ascii -> bool) (c : ascii) (s : string) :
  blank c = false -> count_char c (lstrip_with blank s) = count_char c s.
Proof.
  intros Hc. induction s as [|a s IH]; simpl; [reflexivity|].
  destruct (blank a) eqn:Ea; [|reflexivity].
  destruct (Ascii.eqb_spec a c) as [->|_]; [congruence | exact IH].
Qed.

Lemma count_char_rstrip_eq (blank : ascii -> bool) (c : ascii) (s : string) :
  blank c = false -> count_char c (rstrip_with blank s) = count_char c s.
Proof.
  intros Hc. induction s as [|a s IH]; simpl; [reflexivity|].
  destruct (rstrip_with blank s) as [|d r].
  - simpl in IH. destruct (blank a) eqn:Ea; simpl.
    + destruct (Ascii.eqb_spec a c) as [->|_]; [congruence | exact IH].
    + rewrite <- IH. reflexivity.
  - cbn [count_char] in *. now rewrite IH.
Qed.

Lemma count_char_strip_eq (c : ascii) (s : string) :
  is_space c = false -> count_char c (strip s) = count_char c s.
Proof.
  intros Hc. unfold strip, strip_with.
  now rewrite count_char_lstrip_eq, count_char_rstrip_eq.
Qed.

Lemma count_char_remove (c : ascii) (s : string) :
  count_char c (remove_char c s) = 0%nat.
Proof.
  induction s as [|a s IH]; simpl; [reflexivity|].
  destruct (Ascii.eqb a c) eqn:E; [exact IH|]. simpl. now rewrite E.
Qed.

Lemma count_char_remove_other (c d : ascii) (s : string) :
  count_char c s = 0%nat -> count_char c (remove_char d s) = 0%nat.
Proof.
  induction s as [|a s IH]; simpl; [reflexivity|].
  destruct (Ascii.eqb a c) eqn:E; [discriminate|]. intros H.
  destruct (Ascii.eqb a d); [now apply IH|]. simpl. rewrite E. now apply IH.
Qed.

Lemma split_on_parts (sep : ascii) (s : string) :
  Forall (fun part => count_char sep part = 0%nat) (split_on sep s).
Proof.
  induction s as [|c s IH]; simpl; [repeat constructor|].
  destruct (Ascii.eqb c sep) eqn:E; [constructor; [reflexivity | exact IH]|].
  destruct (split_on sep s) as [|part parts]; [repeat constructor; simpl; now rewrite E|].
  inversion IH; subst. constructor; [simpl; now rewrite E | assumption].
Qed.

(** The loop of [parse_transactions] keeps what [parse_line] builds, line by
    line. *)
Lemma parse_loop (raw_lines : list string) (transactions : list (Transaction float)) :
  fold_left
    (fun transactions line =>
       match parse_line line with
       | Some transaction => transactions ++ [transaction]
       | None => transactions
       end) raw_lines transactions
  = transactions ++
    flat_map (fun line => match parse_line line with Some tx => [tx] | None => [] end) raw_lines.
Proof.
  revert transactions. induction raw_lines as [|line l IH]; intros acc; simpl.
  - now rewrite app_nil_r.
  - rewrite IH. destruct (parse_line line); [now rewrite <- app_assoc | reflexivity].
Qed.

Lemma parse_transactions_flat_map (raw_lines : list string) :
  parse_transactions raw_lines =
  flat_map (fun line => match parse_line line with Some tx => [tx] | None => [] end) raw_lines.
Proof. unfold parse_transactions. now rewrite parse_loop. Qed.

Lemma parse_transactions_In (raw_lines : list string) (tx : Transaction float) :
  In tx (parse_transactions raw_lines) <->
  exists line, In line raw_lines /\ parse_line line = Some tx.
Proof.
  rewrite parse_transactions_flat_map, in_flat_map. split.
  - intros [line [Hin Htx]]. exists line. split; [exact Hin|].
    destruct (parse_line line) as [t|]; [|destruct Htx].
    destruct Htx as [->|[]]. reflexivity.
  - intros [line [Hin Htx]]. exists line. split; [exact Hin|]. rewrite Htx. now left.
Qed.

(** A line is only parsed when it holds exactly seven separators. *)
Lemma parse_line_separators (line : string) (tx : Transaction float) :
  parse_line line = Some tx -> count_char "|" line = 7%nat.
Proof.
  unfold parse_line. intros H.
  pose proof (split_on_length "|" line) as Hlen.
  destruct (split_on "|" line) as [|f1 [|f2 [|f3 [|f4 [|f5 [|f6 [|f7 [|f8 [|f9 l]]]]]]]]];
    try discriminate.
  simpl in Hlen. lia.
Qed.

(** X2.  [parse_transactions] handles the lines one by one: the result for a
    list of lines followed by another is the result for the first followed by
    the result for the second, so that the order of the lines is kept; there
    are at most as many transactions as lines, each built from a line of the
    input; and a line that does not hold exactly seven separators [|] yields
    none. *)
Theorem parse_transactions_line_by_line (lines more : list string) :
  parse_transactions (lines ++ more) = parse_transactions lines ++ parse_transactions more /\
  (length (parse_transactions lines) <= length lines)%nat /\
  (forall tx, In tx (parse_transactions lines) <->
              exists line, In line lines /\ parse_line line = Some tx) /\
  (forall line, count_char "|" line <> 7%nat -> parse_transactions [line] = []).
Proof.
  split; [|split; [|split]].
  - rewrite !parse_transactions_flat_map. apply flat_map_app.
  - rewrite parse_transactions_flat_map.
    induction lines as [|line l IH]; simpl; [lia|].
    rewrite length_app. destruct (parse_line line); simpl; lia.
  - intros tx. apply parse_transactions_In.
  - intros line Hn. rewrite parse_transactions_flat_map. simpl.
    destruct (parse_line line) as [tx|] eqn:E; [|reflexivity].
    apply parse_line_separators in E. contradiction.
Qed.

(** X4.  Every transaction that [parse_transactions] returns has its six text
    fields stripped (to strip them again changes nothing), none of them holds
    a [|], and its product name holds no comma. *)
Theorem parse_transactions_clean (raw_lines : list string) :
  Forall (fun tx =>
            Forall (fun field => strip field = field /\ count_char "|" field = 0%nat)
                   [TransactionID tx; Date tx; ProductID tx; ProductName tx;
                    CustomerID tx; Region tx] /\
            count_char "," (ProductName tx) = 0%nat)
         (parse_transactions raw_lines).
Proof.
  apply List.Forall_forall. intros tx Htx.
  apply parse_transactions_In in Htx as [line [_ Hp]].
  unfold parse_line in Hp. pose proof (split_on_parts "|" line) as Hparts.
  destruct (split_on "|" line) as [|f1 [|f2 [|f3 [|f4 [|f5 [|f6 [|f7 [|f8 [|f9 l]]]]]]]]];
    try discriminate.
  destruct (int_of_str (remove_char "," f5)) as [q|]; [|discriminate].
  destruct (float_of_str (remove_char "," f6)) as [p|]; [|discriminate].
  injection Hp as <-. cbn [TransactionID Date ProductID ProductName CustomerID Region].
  repeat match goal with H : Forall _ (_ :: _) |- _ => inversion H; clear H; subst end.
  split.
  - repeat constructor;
      try apply strip_with_idem;
      try (apply count_char_strip; try apply count_char_remove_other; assumption).
  - apply count_char_strip, count_char_remove.
Qed.

(** X3.  A line of eight fields without [|], joined by [|], whose quantity and
    unit price convert once their commas are removed, is parsed to the
    transaction of its fields: the ids, the date and the region stripped of
    surrounding white space, the product name without its commas and
    stripped, the quantity and the price as [int] and [float] read them. *)
Theorem parse_line_fields (tid date pid name qty price cust region : string) (q : Z) (p : float) :
  Forall (fun field => count_char "|" field = 0%nat)
         [tid; date; pid; name; qty; price; cust; region] ->
  int_of_str (remove_char "," qty) = Some q ->
  float_of_str (remove_char "," price) = Some p ->
  parse_line (join "|" [tid; date; pid; name; qty; price; cust; region]) =
  Some {| TransactionID := strip tid; Date := strip date; ProductID := strip pid;
          ProductName := strip (remove_char "," name); Quantity := q; UnitPrice := p;
          CustomerID := strip cust; Region := strip region |}.
Proof.
  intros Hsep Hq Hp. unfold parse_line.
  rewrite (@split_on_join "|" [tid; date; pid; name; qty; price; cust; region])
    by (discriminate || exact Hsep).
  now rewrite Hq, Hp.
Qed.

Lemma parse_line_fields_witness :
  parse_line "T1|2024-01-01|P101|Mouse|2|500|C1|North" = Some Samples.mouse /\
  parse_line " T3 |2024-01-02|P3|Lap,top |1,500|45,000.50|C3| East" =
  Some (Samples.tx "T3" "2024-01-02" "P3" "Laptop" 1500 45000.5 "C3" "East").
Proof.
  split.
  - apply (@parse_line_fields "T1" "2024-01-01" "P101" "Mouse" "2" "500" "C1" "North" 2 500%float);
      [repeat constructor | reflexivity | reflexivity].
  - apply (@parse_line_fields " T3 " "2024-01-02" "P3" "Lap,top " "1,500" "45,000.50" "C3" " East"
             1500 45000.5%float);
      [repeat constructor | reflexivity | reflexivity].
Defined.

Lemma no_line_break_append (a b : string) :
  no_line_break (a ++ b) = no_line_break a && no_line_break b.
Proof.
  unfold no_line_break. rewrite !count_char_append.
  destruct (count_char "010" a), (count_char "013" a), (count_char "010" b),
           (count_char "013" b); reflexivity.
Qed.

Lemma no_line_break_join (fields : list string) :
  forallb no_line_break fields = true -> no_line_break (join "|" fields) = true.
Proof.
  induction fields as [|f fields IH]; [reflexivity|].
  cbn [forallb]. intros H. apply andb_prop in H as [Hf Hfields].
  destruct fields as [|g fields]; [simpl; now rewrite Hf|].
  change (join "|" (f :: g :: fields)) with (f ++ "|" ++ join "|" (g :: fields))%string.
  rewrite !no_line_break_append, Hf, (IH Hfields). reflexivity.
Qed.

(** A line without line break, written with its newline, is read back as
    one line. *)
Lemma readlines_from_line (line read rest : string) :
  no_line_break line = true ->
  readlines_from read (line ++ String "010" rest) =
  (read ++ line ++ String "010" EmptyString)%string :: readlines_from EmptyString rest.
Proof.
  revert read. induction line as [|c line IH]; intros read Hline.
  - reflexivity.
  - rewrite append_cons. cbn [readlines_from].
    unfold no_line_break in Hline. cbn [count_char] in Hline.
    destruct (Ascii.eqb c "010") eqn:Hlf; [discriminate|].
    destruct (Ascii.eqb c "013") eqn:Hcr; [now rewrite andb_false_r in Hline|].
    rewrite IH by exact Hline.
    now rewrite string_append_assoc, !append_cons, append_nil_l.
Qed.

Lemma readlines_file_text (lines : list string) :
  Forall (fun line => no_line_break line = true) lines ->
  readlines (file_text lines) = map (fun line => line ++ String "010" EmptyString)%string lines.
Proof.
  unfold readlines. induction 1 as [|line lines Hline _ IH]; [reflexivity|].
  cbn [file_text map]. rewrite readlines_from_line by exact Hline.
  now rewrite IH.
Qed.

Section Snapshot.
Variable str_float : float -> string.

(** X5.  Where no field of the records holds a line break, the lines of the
    snapshot file that [save_enriched_data] writes are the header and one row
    for each record, each of twelve fields or more, and the snapshot is not
    an input of the parser: [parse_transactions] returns no transaction for
    its lines, read through [read_sales_data] or as they are. *)
Theorem snapshot_is_not_parsed (enriched : list (Enriched float)) :
  Forall (fun e => forallb no_line_break (row str_float e) = true) enriched ->
  snapshot_file str_float enriched =
    map (fun line => line ++ String "010" EmptyString)%string
        (join "|" header :: map (fun e => join "|" (row str_float e)) enriched) /\
  Forall (fun line => (11 <= count_char "|" line)%nat) (snapshot_file str_float enriched) /\
  parse_transactions (snapshot_file str_float enriched) = [] /\
  parse_transactions (read_sales_data (Some (snapshot_file str_float enriched))) = [].
Proof.
  intros Hfields.
  assert (Hnone : forall lines : list string,
             Forall (fun line => (11 <= count_char "|" line)%nat) lines ->
             parse_transactions lines = []).
  { intros lines Hall. rewrite parse_transactions_flat_map.
    induction Hall as [|line lines Hline _ IH]; [reflexivity|]. simpl. rewrite IH.
    destruct (parse_line line) as [tx|] eqn:E; [|reflexivity].
    apply parse_line_separators in E. lia. }
  assert (Hrows : Forall (fun line => (11 <= count_char "|" line)%nat)
                         (save_enriched_data str_float enriched)).
  { constructor; [vm_compute; lia|].
    apply List.Forall_forall. intros line Hin.
    apply in_map_iff in Hin as [e [<- _]].
    pose proof (count_char_join "|" (row str_float e)) as Hc.
    change (length (row str_float e)) with 12%nat in Hc. lia. }
  assert (Hfile : snapshot_file str_float enriched =
                  map (fun line => line ++ String "010" EmptyString)%string
                      (save_enriched_data str_float enriched)).
  { unfold snapshot_file. apply readlines_file_text.
    constructor; [reflexivity|].
    apply Forall_map. eapply List.Forall_impl; [|exact Hfields].
    intros e. apply no_line_break_join. }
  assert (Hlines : Forall (fun line => (11 <= count_char "|" line)%nat)
                          (snapshot_file str_float enriched)).
  { rewrite Hfile. apply Forall_map. eapply List.Forall_impl; [|exact Hrows].
    intros line Hline. cbv beta in *. rewrite count_char_append. lia. }
  split; [exact Hfile|]. split; [exact Hlines|]. split; [now apply Hnone|].
  apply Hnone. cbn [read_sales_data].
  apply List.Forall_forall. intros line Hin.
  apply in_map_iff in Hin as [raw [<- Hraw]].
  rewrite count_char_strip_eq by reflexivity.
  apply List.filter_In in Hraw as [Hraw _].
  rewrite List.Forall_forall in Hlines. apply Hlines.
  destruct (snapshot_file str_float enriched) as [|first rest]; [destruct Hraw|].
  now right.
Qed.

End Snapshot.

Lemma snapshot_is_not_parsed_witness :
  let enriched := map (enrich_one Samples.catalog) Samples.orders in
  Forall (fun e => forallb no_line_break (row Samples.str_price e) = true) enriched /\
  snapshot_file Samples.str_price enriched =
    map (fun line => line ++ String "010" EmptyString)%string
      ["TransactionID|Date|ProductID|ProductName|Quantity|UnitPrice|CustomerID|Region|API_Category|API_Brand|API_Rating|API_Match";
       "T1|2024-01-01|P101|Mouse|2|500.0|C1|North|Electronics|X|4.5|True";
       "T2|2024-01-01|P999|KB|1|100.0|C2|South|None|None|None|False"] /\
  parse_transactions (read_sales_data (Some (snapshot_file Samples.str_price enriched))) = [].
Proof.
  cbv zeta.
  assert (H : Forall (fun e => forallb no_line_break (row Samples.str_price e) = true)
                     (map (enrich_one Samples.catalog) Samples.orders)).
  { repeat constructor. }
  split; [exact H|].
  destruct (snapshot_is_not_parsed Samples.str_price H) as (Hfile & _ & _ & Hparse).
  split; [|exact Hparse].
  rewrite Hfile. reflexivity.
Defined.

(** A field with a line break makes a row several lines of the file, of
    which one may be a line of eight fields: the parser then reads a
    transaction from the snapshot. *)
Lemma snapshot_with_line_breaks :
  length (snapshot_file Samples.str_price [Samples.broken_row]) = 4%nat /\
  parse_transactions (read_sales_data (Some (snapshot_file Samples.str_price [Samples.broken_row])))
  = [Samples.tx "T9" "2024-01-01" "P7" "Cable" 1 5 "C3" "East"].
Proof. split; reflexivity. Qed.


(** X1.  [read_sales_data] returns nothing for a missing file and for a file
    without lines; the first line is skipped whatever it holds; the lines
    after it are returned in file order, each stripped, those that are blank
    left out: no line returned is empty, begins or ends with white space. *)
Theorem read_sales_data_lines (first : string) (rest more : list string) :
  read_sales_data None = [] /\
  read_sales_data (Some []) = [] /\
  read_sales_data (Some (first :: rest)) = read_sales_data (Some (EmptyString :: rest)) /\
  read_sales_data (Some (first :: rest ++ more)) =
    read_sales_data (Some (first :: rest)) ++ read_sales_data (Some (first :: more)) /\
  (forall line, In line (read_sales_data (Some (first :: rest))) <->
                exists raw, In raw rest /\ strip raw = line /\ line <> EmptyString) /\
  Forall (fun line =>
            strip line = line /\
            (forall c tail, line = String c tail -> is_space c = false) /\
            (forall pre c, line = (pre ++ String c EmptyString)%string -> is_space c = false))
         (read_sales_data (Some (first :: rest))) /\
  (length (read_sales_data (Some (first :: rest))) <= length rest)%nat.
Proof.
  split; [reflexivity|]. split; [reflexivity|]. split; [reflexivity|].
  unfold read_sales_data. cbn [skipn]. rewrite !skipn_O. split; [|split; [|split]].
  - now rewrite List.filter_app, map_app.
  - intros line. rewrite in_map_iff. split.
    + intros [raw [<- Hraw]]. apply List.filter_In in Hraw as [Hin Hne].
      exists raw. split; [exact Hin|]. split; [reflexivity|].
      apply negb_true_iff, String.eqb_neq in Hne. exact Hne.
    + intros [raw [Hin [<- Hne]]]. exists raw. split; [reflexivity|].
      apply List.filter_In. split; [exact Hin|].
      now apply negb_true_iff, String.eqb_neq.
  - apply List.Forall_forall. intros line Hin.
    apply in_map_iff in Hin as [raw [<- _]]. split; [|split].
    + apply strip_with_idem.
    + intros c tail. apply strip_with_head.
    + intros pre c. apply strip_with_last.
  - rewrite length_map. apply List.filter_length_le.
Qed.

(** ** Validation with filters *)

Lemma filter_filter (X : Type) (P Q : X -> bool) (l : list X) :
  List.filter P (List.filter Q l) = List.filter (fun x => Q x && P x) l.
Proof.
  induction l as [|x l IH]; simpl; [reflexivity|].
  destruct (Q x); simpl; [destruct (P x); now rewrite IH | exact IH].
Qed.

Lemma filter_all (X : Type) (P : X -> bool) (l : list X) :
  (forall x, In x l -> P x = true) -> List.filter P l = l.
Proof.
  induction l as [|x l IH]; intros H; simpl; [reflexivity|].
  rewrite (H x (or_introl eq_refl)). f_equal. apply IH. intros y Hy. apply H. now right.
Qed.

Section FilterFacts.
Context {F : Type} {A : Arith F}.

Local Abbreviation Tx := (Transaction F).

Lemma validate_and_filter_valid (txs : list Tx) (region : option string)
    (min_amount max_amount : option F) :
  valid_of (validate_and_filter txs region min_amount max_amount) =
  List.filter (selected region min_amount max_amount) txs /\
  invalid_count_of (validate_and_filter txs region min_amount max_amount) =
  len (List.filter is_invalid txs).
Proof.
  unfold validate_and_filter. rewrite validation_loop.
  change ([] ++ List.filter passes_validation txs) with (List.filter passes_validation txs).
  unfold selected, in_region, at_least, at_most, region_given.
  destruct region as [r|]; [destruct (String.eqb r "")|];
    destruct min_amount as [lo|]; destruct max_amount as [hi|];
    cbv beta iota zeta; unfold valid_of, invalid_count_of; cbn [fst snd];
    (split; [|reflexivity]); rewrite ?filter_filter;
    apply List.filter_ext; intros tx; cbn [orb];
    rewrite ?andb_assoc, ?andb_true_r; reflexivity.
Qed.

(** X6.  With its optional filters [validate_and_filter] returns exactly the
    input transactions, in input order, that meet none of the invalidity
    conditions, lie in the region asked for and have an amount between the
    two bounds given; the number of invalid records does not depend on the
    filters; and the empty region filters nothing, like [None]. *)
Theorem validate_and_filter_selects (txs : list Tx) (region : option string)
    (min_amount max_amount : option F) :
  let r := validate_and_filter txs region min_amount max_amount in
  valid_of r = List.filter (selected region min_amount max_amount) txs /\
  (forall tx, In tx (valid_of r) <->
     In tx txs /\ is_invalid tx = false /\ in_region region tx = true /\
     at_least min_amount tx = true /\ at_most max_amount tx = true) /\
  invalid_count_of r = invalid_count_of (validate_and_filter txs None None None) /\
  validate_and_filter txs (Some EmptyString) min_amount max_amount =
    validate_and_filter txs None min_amount max_amount.
Proof.
  cbv zeta.
  destruct (validate_and_filter_valid txs region min_amount max_amount) as [Hv Hc].
  split; [exact Hv|]. split; [|split].
  - intros tx. rewrite Hv, List.filter_In. unfold selected.
    rewrite !andb_true_iff, is_invalid_passes, negb_false_iff. tauto.
  - rewrite Hc. symmetry. apply validate_and_filter_valid.
  - reflexivity.
Qed.

(** X7.  Validating the returned list once more, with the same filters,
    returns it unchanged, with no invalid record and nothing filtered. *)
Theorem validate_and_filter_idempotent (txs : list Tx) (region : option string)
    (min_amount max_amount : option F) :
  let valid := valid_of (validate_and_filter txs region min_amount max_amount) in
  validate_and_filter valid region min_amount max_amount =
  (valid, 0,
   {| total_input := len valid; invalid := 0; filtered_by_region := 0;
      filtered_by_amount := 0; final_count := len valid |}).
Proof.
  cbv zeta.
  destruct (validate_and_filter_valid txs region min_amount max_amount) as [-> _].
  set (valid := List.filter (selected region min_amount max_amount) txs).
  assert (Hsel : forall tx, In tx valid -> selected region min_amount max_amount tx = true).
  { intros tx Hin. now apply List.filter_In in Hin. }
  assert (Hpass : List.filter passes_validation valid = valid).
  { apply filter_all. intros tx Hin. apply Hsel in Hin. unfold selected in Hin.
    now rewrite !andb_true_iff in Hin. }
  assert (Hinv : List.filter is_invalid valid = []).
  { apply filter_nothing. intros tx Hin. apply Hsel in Hin. unfold selected in Hin.
    rewrite !andb_true_iff in Hin. rewrite is_invalid_passes. now apply negb_false_iff. }
  unfold validate_and_filter. rewrite validation_loop, Hinv, Hpass.
  change ([] ++ valid) with valid.
  assert (Hreg : forall r, region_given region = Some r ->
                           List.filter (fun tx : Tx => String.eqb (Region tx) r) valid = valid).
  { intros r Hr. apply filter_all. intros tx Hin. apply Hsel in Hin. unfold selected in Hin.
    rewrite !andb_true_iff in Hin. destruct Hin as [[[_ Hin] _] _].
    unfold region_given in Hr. destruct region as [r'|]; [|discriminate].
    simpl in Hin. destruct (String.eqb r' ""); [discriminate|].
    injection Hr as <-. exact Hin. }
  assert (Hlo : forall lo, min_amount = Some lo ->
                           List.filter (fun tx : Tx => lo <=! amount tx) valid = valid).
  { intros lo ->. apply filter_all. intros tx Hin. apply Hsel in Hin. unfold selected in Hin.
    rewrite !andb_true_iff in Hin. apply Hin. }
  assert (Hhi : forall hi, max_amount = Some hi ->
                           List.filter (fun tx : Tx => amount tx <=! hi) valid = valid).
  { intros hi ->. apply filter_all. intros tx Hin. apply Hsel in Hin. unfold selected in Hin.
    rewrite !andb_true_iff in Hin. apply Hin. }
  destruct (region_given region) as [r|]; [rewrite (Hreg r eq_refl)|];
    (destruct min_amount as [lo|]; [rewrite (Hlo lo eq_refl)|]);
    (destruct max_amount as [hi|]; [rewrite (Hhi hi eq_refl)|]);
    cbv beta iota zeta; unfold len; simpl; rewrite ?Z.sub_diag; reflexivity.
Qed.

End FilterFacts.

(** ** main: the filter of step 3 *)

(** The quantities that convert to a float end before 2^1024 - 2^970, the
    first integer to round to 2^1024. *)
Lemma int_fits_float_bound :
  int_fits_float (2 ^ 1024 - 2 ^ 970 - 1) = true /\
  int_fits_float (2 ^ 1024 - 2 ^ 970) = false /\
  int_fits_float (- (2 ^ 1024 - 2 ^ 970 - 1)) = true /\
  int_fits_float (- (2 ^ 1024 - 2 ^ 970)) = false.
Proof. vm_compute. repeat split. Qed.

Section MainFilter.

Local Abbreviation Tx := (Transaction float).

Lemma keeps_bounds (region_choice min_amt max_amt : string) (lo hi : option float) (tx : Tx) :
  bound_of min_amt = Ret lo -> bound_of max_amt = Ret hi ->
  keeps region_choice min_amt max_amt tx =
  Ret (in_region (Some region_choice) tx && at_least lo tx && at_most hi tx).
Proof.
  unfold bound_of, keeps, bound_test, in_region, at_least, at_most.
  intros Hlo Hhi.
  destruct (String.eqb region_choice "" || String.eqb (Region tx) region_choice);
    [|reflexivity].
  destruct (String.eqb min_amt "");
    [injection Hlo as <- | destruct (float_of_str min_amt) as [x|]; [injection Hlo as <- | discriminate]];
    cbn [bind andb].
  - destruct (String.eqb max_amt "");
      [injection Hhi as <- | destruct (float_of_str max_amt) as [y|]; [injection Hhi as <- | discriminate]];
      reflexivity.
  - destruct (x <=! amount tx); [|reflexivity].
    destruct (String.eqb max_amt "");
      [injection Hhi as <- | destruct (float_of_str max_amt) as [y|]; [injection Hhi as <- | discriminate]];
      reflexivity.
Qed.

Lemma filter_loop_bounds (region_choice min_amt max_amt : string) (lo hi : option float)
    (transactions filtered : list Tx) :
  bound_of min_amt = Ret lo -> bound_of max_amt = Ret hi ->
  filter_loop region_choice min_amt max_amt transactions filtered =
  Ret (filtered ++
       List.filter (fun tx => in_region (Some region_choice) tx && at_least lo tx && at_most hi tx)
                   transactions).
Proof.
  intros Hlo Hhi. revert filtered.
  induction transactions as [|tx l IH]; intros acc; cbn [filter_loop List.filter].
  - now rewrite app_nil_r.
  - rewrite (@keeps_bounds region_choice min_amt max_amt lo hi tx Hlo Hhi). cbn [bind]. rewrite IH.
    destruct (in_region (Some region_choice) tx && at_least lo tx && at_most hi tx);
      [now rewrite <- app_assoc | reflexivity].
Qed.

(** X8.  When the bounds typed at the prompts are numbers (or left empty), the
    filter loop of [main] keeps the transactions of the region typed whose
    amount lies between the bounds, and validating its result without
    filters, as [main] does, gives the list that [validate_and_filter]
    returns when the same filters are passed to it as parameters. *)
Theorem main_filter_agrees (region_choice min_amt max_amt : string) (lo hi : option float)
    (transactions : list Tx) :
  bound_of min_amt = Ret lo -> bound_of max_amt = Ret hi ->
  exists filtered,
    filter_loop region_choice min_amt max_amt transactions [] = Ret filtered /\
    filtered =
      List.filter (fun tx => in_region (Some region_choice) tx && at_least lo tx && at_most hi tx)
                  transactions /\
    valid_of (validate_and_filter filtered None None None) =
    valid_of (validate_and_filter transactions (Some region_choice) lo hi).
Proof.
  intros Hlo Hhi. eexists. split; [|split; [reflexivity|]].
  - now rewrite (@filter_loop_bounds region_choice min_amt max_amt lo hi transactions [] Hlo Hhi).
  - destruct (validate_and_filter_valid transactions (Some region_choice) lo hi) as [-> _].
    rewrite validate_without_filters. unfold valid_of. cbn [fst].
    rewrite filter_filter. apply List.filter_ext. intros tx. unfold selected.
    destruct (passes_validation tx), (in_region (Some region_choice) tx),
      (at_least lo tx), (at_most hi tx); reflexivity.
Qed.

Lemma main_filter_agrees_witness :
  bound_of "150" = Ret (Some 150%float) /\ bound_of "" = Ret None /\
  exists filtered,
    filter_loop "North" "150" "" Samples.orders [] = Ret filtered /\
    filtered = [Samples.mouse] /\
    valid_of (validate_and_filter filtered None None None) =
    valid_of (validate_and_filter Samples.orders (Some "North") (Some 150%float) None).
Proof.
  split; [reflexivity|]. split; [reflexivity|].
  exact (@main_filter_agrees "North" "150" "" (Some 150%float) None Samples.orders
           eq_refl eq_refl).
Defined.

Lemma filter_loop_bad_min (region_choice min_amt max_amt : string)
    (transactions filtered : list Tx) :
  min_amt <> EmptyString -> float_of_str min_amt = None ->
  filter_loop region_choice min_amt max_amt transactions filtered =
  if existsb (in_region (Some region_choice)) transactions then Raise ValueError
  else Ret filtered.
Proof.
  intros Hne Hbad. apply String.eqb_neq in Hne. revert filtered.
  induction transactions as [|tx l IH]; intros acc; simpl; [reflexivity|].
  unfold keeps, bound_test. rewrite Hne, Hbad.
  destruct (String.eqb region_choice "" || String.eqb (Region tx) region_choice);
    cbn [bind orb]; [reflexivity | apply IH].
Qed.

Lemma filter_loop_bad_max (region_choice min_amt max_amt : string) (lo : option float)
    (transactions filtered : list Tx) :
  bound_of min_amt = Ret lo ->
  max_amt <> EmptyString -> float_of_str max_amt = None ->
  filter_loop region_choice min_amt max_amt transactions filtered =
  if existsb (fun tx => in_region (Some region_choice) tx && at_least lo tx) transactions
  then Raise ValueError else Ret filtered.
Proof.
  intros Hlo Hne Hbad. apply String.eqb_neq in Hne. revert filtered.
  induction transactions as [|tx l IH]; intros acc; simpl; [reflexivity|].
  unfold keeps, bound_test, bound_of, at_least in *. rewrite Hne, Hbad.
  destruct (String.eqb region_choice "" || String.eqb (Region tx) region_choice);
    cbn [bind orb andb]; [|apply IH].
  destruct (String.eqb min_amt "");
    [injection Hlo as <- | destruct (float_of_str min_amt) as [x|]; [injection Hlo as <- | discriminate]];
    cbn [bind orb]; [reflexivity|].
  destruct (x <=! amount tx); cbn [orb]; [reflexivity | apply IH].
Qed.

Lemma filter_loop_cases (region_choice min_amt max_amt : string) (transactions : list Tx) :
  filter_loop region_choice min_amt max_amt transactions [] =
  match bound_of min_amt with
  | Raise e =>
      if existsb (in_region (Some region_choice)) transactions then Raise e else Ret []
  | Ret lo =>
      match bound_of max_amt with
      | Raise e =>
          if existsb (fun tx => in_region (Some region_choice) tx && at_least lo tx) transactions
          then Raise e else Ret []
      | Ret hi =>
          Ret (List.filter
                 (fun tx => in_region (Some region_choice) tx && at_least lo tx && at_most hi tx)
                 transactions)
      end
  end.
Proof.
  destruct (bound_of min_amt) as [lo|e] eqn:Hlo.
  - destruct (bound_of max_amt) as [hi|e] eqn:Hhi.
    + now rewrite (@filter_loop_bounds region_choice min_amt max_amt lo hi transactions [] Hlo Hhi).
    + unfold bound_of in Hhi. destruct (String.eqb_spec max_amt "") as [|Hne]; [discriminate|].
      destruct (float_of_str max_amt) as [y|] eqn:Hy; [discriminate|]. injection Hhi as <-.
      now apply filter_loop_bad_max.
  - unfold bound_of in Hlo. destruct (String.eqb_spec min_amt "") as [|Hne]; [discriminate|].
    destruct (float_of_str min_amt) as [x|] eqn:Hx; [discriminate|]. injection Hlo as <-.
    now apply filter_loop_bad_min.
Qed.

(** X9.  How the filter loop of [main] ends.  A minimum that is not a number
    raises [ValueError] exactly when some transaction lies in the region
    typed; otherwise it goes unnoticed and no record remains.  A maximum that
    is not a number raises exactly when some transaction of the region
    reaches the minimum.  With both bounds converted the loop returns the
    transactions that pass the three tests, in input order. *)
Theorem filter_loop_outcome (region_choice min_amt max_amt : string) (transactions : list Tx) :
  filter_loop region_choice min_amt max_amt transactions [] =
  match bound_of min_amt with
  | Raise e =>
      if existsb (in_region (Some region_choice)) transactions then Raise e else Ret []
  | Ret lo =>
      match bound_of max_amt with
      | Raise e =>
          if existsb (fun tx => in_region (Some region_choice) tx && at_least lo tx) transactions
          then Raise e else Ret []
      | Ret hi =>
          Ret (List.filter
                 (fun tx => in_region (Some region_choice) tx && at_least lo tx && at_most hi tx)
                 transactions)
      end
  end.
Proof. apply filter_loop_cases. Qed.

Lemma bound_of_raises (typed : string) (e : exn) : bound_of typed = Raise e -> e = ValueError.
Proof.
  unfold bound_of. destruct (String.eqb typed ""); [discriminate|].
  destruct (float_of_str typed); [discriminate|]. now intros [= <-].
Qed.

Lemma amounts_of_eq (transactions : list Tx) :
  amounts_of transactions =
  if forallb (fun tx => int_fits_float (Quantity tx)) transactions
  then Ret (map amount transactions) else Raise OverflowError.
Proof.
  induction transactions as [|tx l IH]; [reflexivity|].
  cbn [amounts_of forallb map]. unfold amount_or_overflow.
  destruct (int_fits_float (Quantity tx)); [|reflexivity].
  cbn [bind andb]. rewrite IH.
  destruct (forallb _ l); reflexivity.
Qed.

Lemma forallb_fits (transactions : list Tx) :
  forallb (fun tx => int_fits_float (Quantity tx)) transactions = true <->
  Forall (fun tx => int_fits_float (Quantity tx) = true) transactions.
Proof. rewrite forallb_forall, List.Forall_forall. reflexivity. Qed.

Lemma forallb_fits_not (transactions : list Tx) :
  forallb (fun tx => int_fits_float (Quantity tx)) transactions = false <->
  Exists (fun tx => int_fits_float (Quantity tx) = false) transactions.
Proof.
  induction transactions as [|tx l IH]; cbn [forallb].
  - split; [discriminate | intros H; inversion H].
  - destruct (int_fits_float (Quantity tx)) eqn:E; cbn [andb].
    + rewrite IH. split; [now constructor 2|].
      intros H. inversion H; subst; [congruence | assumption].
    + split; [now constructor 1 | reflexivity].
Qed.

Lemma filter_options_eq (answers : Answers) (transactions : list Tx) :
  filter_options answers transactions =
  if forallb (fun tx => int_fits_float (Quantity tx)) transactions then
    match transactions with
    | [] => Raise ValueError
    | _ :: _ => filters answers transactions
    end
  else Raise OverflowError.
Proof.
  unfold filter_options. rewrite amounts_of_eq.
  destruct (forallb _ transactions); [|reflexivity].
  destruct transactions; reflexivity.
Qed.

Lemma filters_returns (answers : Answers) (transactions filtered : list Tx) :
  filters answers transactions = Ret filtered ->
  forall tx, In tx filtered -> In tx transactions.
Proof.
  unfold filters. intros H.
  destruct (String.eqb (lower (strip (choice answers))) "y");
    [|injection H as <-; trivial].
  rewrite filter_loop_cases in H.
  destruct (bound_of (strip (min_amt answers))) as [lo|e].
  - destruct (bound_of (strip (max_amt answers))) as [hi|e].
    + injection H as <-. intros tx Hin. now apply List.filter_In in Hin.
    + destruct (existsb _ transactions); [discriminate|]. injection H as <-. intros tx [].
  - destruct (existsb _ transactions); [discriminate|]. injection H as <-. intros tx [].
Qed.

Lemma filters_raises (answers : Answers) (transactions : list Tx) (e : exn) :
  filters answers transactions = Raise e ->
  e = ValueError /\
  lower (strip (choice answers)) = "y" /\
  (bound_of (strip (min_amt answers)) = Raise ValueError \/
   bound_of (strip (max_amt answers)) = Raise ValueError).
Proof.
  unfold filters.
  destruct (String.eqb_spec (lower (strip (choice answers))) "y") as [Hy|_]; [|discriminate].
  rewrite filter_loop_cases.
  destruct (bound_of (strip (min_amt answers))) as [lo|e1] eqn:Hlo.
  - destruct (bound_of (strip (max_amt answers))) as [hi|e2] eqn:Hhi; [discriminate|].
    pose proof (bound_of_raises _ Hhi) as ->.
    destruct (existsb _ transactions); [|discriminate]. intros [= <-].
    split; [reflexivity|]. split; [exact Hy | now right].
  - pose proof (bound_of_raises _ Hlo) as ->.
    destruct (existsb _ transactions); [|discriminate]. intros [= <-].
    split; [reflexivity|]. split; [exact Hy | now left].
Qed.

End MainFilter.

Section MainFacts.
Variable str_float : float -> string.

Local Abbreviation Tx := (Transaction float).

Lemma main_eq (file : option (list string)) (answers : Answers)
    (api_products : list (ApiProduct float)) :
  main str_float file answers api_products =
  bind (filter_options answers (parse_transactions (read_sales_data file)))
    (fun transactions =>
       match List.filter passes_validation transactions with
       | [] => Raise ZeroDivisionError
       | valid_tx =>
           Ret (valid_tx, map (enrich_one (create_product_mapping api_products)) valid_tx)
       end).
Proof.
  unfold main. destruct (filter_options answers _) as [txs|e]; [|reflexivity].
  cbn [bind]. rewrite validate_without_filters.
  destruct (List.filter passes_validation txs); reflexivity.
Qed.

Lemma none_valid (transactions : list Tx) :
  List.filter passes_validation transactions = [] <->
  Forall (fun tx => is_invalid tx = true) transactions.
Proof.
  rewrite List.Forall_forall. split.
  - intros Hv tx Hin. rewrite is_invalid_passes.
    apply negb_true_iff. destruct (passes_validation tx) eqn:Hp; [|reflexivity].
    assert (Hin' : In tx (List.filter passes_validation transactions)).
    { apply List.filter_In. now split. }
    rewrite Hv in Hin'. destruct Hin'.
  - intros H. destruct (List.filter passes_validation transactions) as [|tx l] eqn:Hv;
      [reflexivity|].
    assert (Hin : In tx (List.filter passes_validation transactions)).
    { rewrite Hv. now left. }
    apply List.filter_In in Hin as [Hin Hp].
    specialize (H tx Hin). rewrite is_invalid_passes, Hp in H. discriminate.
Qed.

Lemma main_cases (file : option (list string)) (answers : Answers)
    (api_products : list (ApiProduct float)) :
  let parsed := parse_transactions (read_sales_data file) in
  main str_float file answers api_products =
  if forallb (fun tx => int_fits_float (Quantity tx)) parsed then
    match parsed with
    | [] => Raise ValueError
    | _ :: _ =>
        match filters answers parsed with
        | Raise _ => Raise ValueError
        | Ret filtered =>
            match List.filter passes_validation filtered with
            | [] => Raise ZeroDivisionError
            | valid_tx =>
                Ret (valid_tx, map (enrich_one (create_product_mapping api_products)) valid_tx)
            end
        end
    end
  else Raise OverflowError.
Proof.
  cbv zeta. rewrite main_eq, filter_options_eq.
  destruct (forallb _ _); [|reflexivity].
  destruct (parse_transactions (read_sales_data file)) as [|t l]; [reflexivity|].
  destruct (filters answers (t :: l)) as [filtered|e] eqn:Hf; [reflexivity|].
  destruct (filters_raises _ _ Hf) as [-> _]. reflexivity.
Qed.

Lemma filters_nil (answers : Answers) : filters answers [] = Ret [].
Proof. unfold filters. destruct (String.eqb _ "y"); reflexivity. Qed.

(** X10.  How a run of [main] ends, up to the enrichment of step 7, with
    [parsed] the transactions parsed from the file and the filters those of
    lines 38 to 51.  It ends with [OverflowError] at line 34 exactly when the
    quantity of some parsed transaction does not fit a float.  Otherwise it
    ends with [ValueError] exactly when nothing was parsed or the filters
    raise, which they do only for a bound typed that is not a number; with
    [ZeroDivisionError] exactly when transactions were parsed and none that
    the filters leave is valid; and it passes the lists [valid_tx] and
    [enriched_tx] on exactly when [valid_tx] holds the valid ones among those
    the filters leave, is not empty, and [enriched_tx] is its enrichment.
    The transactions passed on are then parsed ones, and the enriched list
    holds one record for each of them, in order. *)
Theorem main_outcome (file : option (list string)) (answers : Answers)
    (api_products : list (ApiProduct float)) :
  let parsed := parse_transactions (read_sales_data file) in
  let run := main str_float file answers api_products in
  let fit := Forall (fun tx : Tx => int_fits_float (Quantity tx) = true) parsed in
  (run = Raise OverflowError <->
   Exists (fun tx : Tx => int_fits_float (Quantity tx) = false) parsed) /\
  (run = Raise ValueError <->
   fit /\ (parsed = [] \/ filters answers parsed = Raise ValueError)) /\
  (run = Raise ZeroDivisionError <->
   fit /\ parsed <> [] /\
   exists filtered,
     filters answers parsed = Ret filtered /\
     Forall (fun tx => is_invalid tx = true) filtered) /\
  (forall valid_tx enriched_tx,
     run = Ret (valid_tx, enriched_tx) <->
     fit /\ valid_tx <> [] /\
     exists filtered,
       filters answers parsed = Ret filtered /\
       valid_tx = List.filter passes_validation filtered /\
       enriched_tx = map (enrich_one (create_product_mapping api_products)) valid_tx) /\
  (forall valid_tx enriched_tx,
     run = Ret (valid_tx, enriched_tx) ->
     (forall tx, In tx valid_tx -> In tx parsed /\ is_invalid tx = false) /\
     map (@base float) enriched_tx = valid_tx) /\
  (forall e, filters answers parsed = Raise e ->
     e = ValueError /\
     lower (strip (choice answers)) = "y" /\
     (bound_of (strip (min_amt answers)) = Raise ValueError \/
      bound_of (strip (max_amt answers)) = Raise ValueError)).
Proof.
  cbv zeta. rewrite main_cases.
  set (parsed := parse_transactions (read_sales_data file)).
  clearbody parsed.
  pose proof (forallb_fits parsed) as Hfit.
  pose proof (forallb_fits_not parsed) as Hnot.
  destruct (forallb _ parsed).
  2:{ assert (Hno : ~ Forall (fun tx : Tx => int_fits_float (Quantity tx) = true) parsed).
      { intros H. apply Hfit in H. discriminate. }
      split; [split; [intros _; now apply Hnot | reflexivity]|].
      split; [split; [discriminate | tauto]|].
      split; [split; [discriminate | tauto]|].
      split; [intros valid_tx enriched_tx; split; [discriminate | tauto]|].
      split; [intros valid_tx enriched_tx; discriminate|].
      intros e. apply filters_raises. }
  assert (Hyes : Forall (fun tx : Tx => int_fits_float (Quantity tx) = true) parsed)
    by now apply Hfit.
  assert (Hnone : ~ Exists (fun tx : Tx => int_fits_float (Quantity tx) = false) parsed).
  { intros H. apply Hnot in H. discriminate. }
  clear Hfit Hnot.
  assert (Hret : forall valid_tx enriched_tx,
     match parsed with
     | [] => Raise ValueError
     | _ :: _ =>
         match filters answers parsed with
         | Raise _ => Raise ValueError
         | Ret filtered =>
             match List.filter passes_validation filtered with
             | [] => Raise ZeroDivisionError
             | valid_tx =>
                 Ret (valid_tx,
                      map (enrich_one (create_product_mapping api_products)) valid_tx)
             end
         end
     end = Ret (valid_tx, enriched_tx) <->
     Forall (fun tx : Tx => int_fits_float (Quantity tx) = true) parsed /\
     valid_tx <> [] /\
     exists filtered,
       filters answers parsed = Ret filtered /\
       valid_tx = List.filter passes_validation filtered /\
       enriched_tx = map (enrich_one (create_product_mapping api_products)) valid_tx).
  { intros valid_tx enriched_tx.
    destruct parsed as [|t l] eqn:Hparsed.
    - rewrite filters_nil. split; [discriminate|].
      intros (_ & Hne & filtered & [= <-] & -> & _). now elim Hne.
    - rewrite <- Hparsed in *. clear Hparsed.
      destruct (filters answers parsed) as [filtered|e];
        [|split; [discriminate | intros (_ & _ & f & H & _); discriminate]].
      destruct (List.filter passes_validation filtered) as [|tx valid] eqn:Hv.
      + split; [discriminate|].
        intros (_ & Hne & f & [= <-] & -> & _). now elim Hne.
      + split.
        * intros [= <- <-]. split; [exact Hyes|]. split; [discriminate|].
          exists filtered. now rewrite Hv.
        * intros (_ & _ & f & [= <-] & -> & ->). now rewrite Hv. }
  split; [|split; [|split; [|split; [exact Hret|split]]]].
  - split; [|tauto].
    destruct parsed; [discriminate|].
    destruct (filters answers _); [|discriminate].
    destruct (List.filter passes_validation _); discriminate.
  - destruct parsed as [|t l] eqn:Hparsed; [tauto|].
    rewrite <- Hparsed in *.
    destruct (filters answers parsed) as [filtered|e] eqn:Hf.
    + destruct (List.filter passes_validation filtered); (split; [discriminate|]);
        intros [_ [H|H]]; congruence.
    + destruct (filters_raises _ _ Hf) as [-> _]. tauto.
  - destruct parsed as [|t l] eqn:Hparsed;
      [split; [discriminate | intros (_ & H & _); now elim H]|].
    rewrite <- Hparsed in *.
    destruct (filters answers parsed) as [filtered|e] eqn:Hf;
      [|split; [discriminate | intros (_ & _ & f & H & _); discriminate]].
    destruct (List.filter passes_validation filtered) as [|tx valid] eqn:Hv.
    + split; [|reflexivity]. intros _. split; [exact Hyes|].
      split; [congruence|].
      exists filtered. split; [reflexivity | now apply none_valid].
    + split; [discriminate|].
      intros (_ & _ & f & [= <-] & Hn). apply none_valid in Hn. congruence.
  - intros valid_tx enriched_tx H.
    apply Hret in H as (_ & _ & filtered & Hf & -> & ->).
    split.
    + intros tx Hin. apply List.filter_In in Hin as [Hin Hp].
      split; [exact (filters_returns _ _ Hf tx Hin)|].
      rewrite is_invalid_passes. now rewrite Hp.
    + rewrite map_map. rewrite <- (map_id (List.filter _ _)) at 2.
      apply map_ext. apply enrich_one_base.
  - intros e. apply filters_raises.
Qed.

(** X11.  When no transaction is parsed (a missing file, a file of one line),
    [main] ends at step 3 with the [ValueError] of [min] on an empty list. *)
Theorem main_needs_a_transaction (file : option (list string)) (answers : Answers)
    (api_products : list (ApiProduct float)) :
  parse_transactions (read_sales_data file) = [] ->
  main str_float file answers api_products = Raise ValueError.
Proof. intros H. rewrite main_eq, H. reflexivity. Qed.

End MainFacts.

(** A quantity that does not fit a float ends the run at line 34. *)
Example main_overflow (str_float : float -> string) (answers : Answers)
    (api_products : list (ApiProduct float)) :
  map (@Quantity float)
      (parse_transactions (read_sales_data (Some ["header"; Samples.huge_quantity_line])))
    = [10 ^ 400] /\
  main str_float (Some ["header"; Samples.huge_quantity_line]) answers api_products
    = Raise OverflowError.
Proof.
  split; [vm_compute; reflexivity|].
  rewrite main_eq, filter_options_eq.
  replace (forallb _ _) with false by (vm_compute; reflexivity). reflexivity.
Qed.

Lemma main_needs_a_transaction_witness :
  parse_transactions (read_sales_data None) = [] /\
  forall str_float answers api_products,
    main str_float None answers api_products = Raise ValueError.
Proof.
  split; [reflexivity|]. intros str_float answers api_products.
  now apply main_needs_a_transaction.
Defined.

(** ** Orders *)

Section AscendingSort.
Variables (T K : Type) (lt : K -> K -> bool) (key : T -> K).

Lemma insert_asc_desc (x : T) (l : list T) :
  insert_asc lt key x l = insert_desc (fun a b => lt b a) key x l.
Proof. induction l as [|y l IH]; simpl; [reflexivity | now rewrite IH]. Qed.

(** Sorting in ascending order is sorting in descending order for the
    converse comparison. *)
Lemma sorted_as_reverse (l : list T) :
  sorted lt key l = sorted_reverse (fun a b => lt b a) key l.
Proof.
  unfold sorted, sorted_reverse.
  induction l as [|x l IH]; simpl; [reflexivity|].
  rewrite IH. apply insert_asc_desc.
Qed.

End AscendingSort.

Lemma ascii_compare_trans (a b c : ascii) :
  Ascii.compare a b = Lt -> Ascii.compare b c = Lt -> Ascii.compare a c = Lt.
Proof. unfold Ascii.compare. rewrite !N.compare_lt_iff. lia. Qed.

Lemma string_compare_trans (a b c : string) :
  String.compare a b = Lt -> String.compare b c = Lt -> String.compare a c = Lt.
Proof.
  revert b c. induction a as [|x a IH]; intros [|y b] [|z c]; simpl;
    try discriminate; try reflexivity.
  destruct (Ascii.compare x y) eqn:Exy; try discriminate.
  - apply Ascii.compare_eq_iff in Exy. subst y.
    destruct (Ascii.compare x z); [apply IH | reflexivity | discriminate].
  - intros _. destruct (Ascii.compare y z) eqn:Eyz; try discriminate.
    + apply Ascii.compare_eq_iff in Eyz. subst z. now rewrite Exy.
    + now rewrite (ascii_compare_trans _ _ _ Exy Eyz).
Qed.

Lemma string_ltb_asym (a b : string) : String.ltb a b = true -> String.ltb b a = false.
Proof.
  unfold String.ltb. rewrite (String.compare_antisym a b).
  destruct (String.compare b a); simpl; congruence.
Qed.

Lemma string_ltb_negtrans (a b c : string) :
  String.ltb a b = false -> String.ltb b c = false -> String.ltb a c = false.
Proof.
  unfold String.ltb. intros Hab Hbc.
  destruct (String.compare a c) eqn:Eac; try reflexivity. exfalso.
  destruct (String.compare a b) eqn:Eab; try discriminate.
  - apply String.compare_eq_iff in Eab. subst b. now rewrite Eac in Hbc.
  - assert (Eba : String.compare b a = Lt).
    { rewrite String.compare_antisym, Eab. reflexivity. }
    now rewrite (string_compare_trans _ _ _ Eba Eac) in Hbc.
Qed.

(** Two strings that [<] does not order are the same string. *)
Lemma string_ltb_total (a b : string) :
  String.ltb a b = false -> String.ltb b a = false -> a = b.
Proof.
  unfold String.ltb. intros Hab Hba.
  apply String.compare_eq_iff. rewrite (String.compare_antisym a b) in *.
  destruct (String.compare b a); simpl in *; congruence.
Qed.

(** *** binary64 *)

Ltac compare_cases :=
  change (Pos.compare_cont Eq) with Pos.compare;
  repeat match goal with
         | |- context [Z.compare ?x ?y] => destruct (Z.compare_spec x y)
         | |- context [Pos.compare ?x ?y] => destruct (Pos.compare_spec x y)
         end; simpl; try discriminate; try reflexivity; try lia.

Lemma SFltb_asym (a b : spec_float) : SFltb a b = true -> SFltb b a = false.
Proof.
  unfold SFltb, SFcompare.
  destruct a as [sa|sa| |sa ma ea], b as [sb|sb| |sb mb eb];
    try destruct sa; try destruct sb; try discriminate; try reflexivity;
    compare_cases.
Qed.

Lemma SFltb_negtrans (a b c : spec_float) :
  b <> S754_nan ->
  SFltb a b = false -> SFltb b c = false -> SFltb a c = false.
Proof.
  unfold SFltb, SFcompare. intros Hb.
  destruct a as [sa|sa| |sa ma ea], b as [sb|sb| |sb mb eb], c as [sc|sc| |sc mc ec];
    try contradiction;
    try destruct sa; try destruct sb; try destruct sc;
    try discriminate; try reflexivity;
    compare_cases.
Qed.

Lemma is_nan_Prim2SF (x : float) : is_nan x = false -> Prim2SF x <> S754_nan.
Proof.
  unfold is_nan. rewrite FloatAxioms.eqb_spec. intros H E. rewrite E in H. discriminate.
Qed.

Lemma float_ltb_asym (a b : float) : (a <! b) = true -> (b <! a) = false.
Proof.
  change (PrimFloat.ltb a b = true -> PrimFloat.ltb b a = false).
  rewrite !FloatAxioms.ltb_spec. apply SFltb_asym.
Qed.

Lemma float_ltb_negtrans (a b c : float) :
  is_nan b = false -> (a <! b) = false -> (b <! c) = false -> (a <! c) = false.
Proof.
  change (is_nan b = false -> PrimFloat.ltb a b = false -> PrimFloat.ltb b c = false ->
          PrimFloat.ltb a c = false).
  rewrite !FloatAxioms.ltb_spec. intros Hb. apply SFltb_negtrans. now apply is_nan_Prim2SF.
Qed.

(** Among numbers, [a < b] fails exactly when [b <= a]. *)
Lemma float_ltb_leb (a b : float) :
  is_nan a = false -> is_nan b = false -> (a <! b) = negb (b <=! a).
Proof.
  change (is_nan a = false -> is_nan b = false ->
          PrimFloat.ltb a b = negb (PrimFloat.leb b a)).
  rewrite FloatAxioms.ltb_spec, FloatAxioms.leb_spec. intros Ha Hb.
  apply is_nan_Prim2SF in Ha, Hb. revert Ha Hb.
  unfold SFltb, SFleb, SFcompare.
  destruct (Prim2SF a) as [sa|sa| |sa ma ea], (Prim2SF b) as [sb|sb| |sb mb eb];
    intros Ha Hb; try contradiction;
    try destruct sa; try destruct sb; try reflexivity; compare_cases.
Qed.

(** ** Sorting when [<] is an order on the keys that occur *)

Section SortedOn.
Variables (T K : Type) (lt : K -> K -> bool) (key : T -> K) (ok : K -> Prop).
Hypothesis lt_asym : forall a b, lt a b = true -> lt b a = false.
Hypothesis lt_negtrans :
  forall a b c, ok b -> lt a b = false -> lt b c = false -> lt a c = false.

Lemma insert_desc_sorted_on (x : T) (l : list T) :
  Forall (fun y => ok (key y)) l ->
  StronglySorted (fun a b => lt (key a) (key b) = false) l ->
  StronglySorted (fun a b => lt (key a) (key b) = false) (insert_desc lt key x l).
Proof.
  induction l as [|y l IH]; intros Hok Hs; simpl.
  - constructor; constructor.
  - inversion Hs as [|? ? Hl Hy]; subst. inversion Hok as [|? ? Hoky Hokl]; subst.
    destruct (lt (key x) (key y)) eqn:Hxy.
    + constructor; [now apply IH|].
      apply (Permutation_Forall (Permutation_sym (insert_desc_perm lt key x l))).
      constructor; [apply lt_asym, Hxy | exact Hy].
    + constructor; [exact Hs|].
      constructor; [exact Hxy|].
      apply List.Forall_forall. intros z Hz.
      apply lt_negtrans with (key y); [exact Hoky | exact Hxy |].
      rewrite List.Forall_forall in Hy. apply Hy, Hz.
Qed.

Lemma sorted_reverse_sorted_on (l : list T) :
  Forall (fun y => ok (key y)) l ->
  StronglySorted (fun a b => lt (key a) (key b) = false) (sorted_reverse lt key l).
Proof.
  induction 1 as [|x l Hx Hl IH]; simpl.
  - constructor.
  - apply insert_desc_sorted_on; [|exact IH].
    apply (Permutation_Forall (Permutation_sym (sorted_reverse_perm lt key l))). exact Hl.
Qed.

(** [max] returns the first element that no element exceeds. *)
Lemma max_from_first (best : T) (l : list T) :
  Forall (fun y => ok (key y)) (best :: l) ->
  exists pre post,
    best :: l = pre ++ max_from lt key best l :: post /\
    Forall (fun x => lt (key x) (key (max_from lt key best l)) = true) pre /\
    Forall (fun x => lt (key (max_from lt key best l)) (key x) = false) post.
Proof.
  revert best. induction l as [|x l IH]; intros best Hok; simpl.
  - exists [], []. repeat split; constructor.
  - inversion Hok as [|? ? Hb Hxl]; subst. inversion Hxl as [|? ? Hx Hl]; subst.
    destruct (lt (key best) (key x)) eqn:Hbx.
    + destruct (IH x Hxl) as (pre & post & E & Hpre & Hpost).
      exists (best :: pre), post. rewrite E. split; [reflexivity|]. split; [|exact Hpost].
      constructor; [|exact Hpre].
      set (m := max_from lt key x l) in *.
      assert (Hmx : lt (key m) (key x) = false).
      { destruct pre as [|p pre].
        - injection E as Ex _. rewrite <- Ex. destruct (lt (key x) (key x)) eqn:Hxx; [|reflexivity].
          now rewrite (lt_asym Hxx) in Hxx.
        - injection E as Ex _. subst p. inversion Hpre; subst. now apply lt_asym. }
      destruct (lt (key best) (key m)) eqn:Hbm; [reflexivity|].
      assert (Hm : ok (key m)).
      { assert (Hin : In m (x :: l)) by (rewrite E; apply in_elt).
        rewrite List.Forall_forall in Hxl. now apply Hxl. }
      now rewrite (lt_negtrans Hm Hbm Hmx) in Hbx.
    + assert (Hbl : Forall (fun y => ok (key y)) (best :: l)) by (constructor; assumption).
      destruct (IH best Hbl) as (pre & post & E & Hpre & Hpost).
      set (m := max_from lt key best l) in *.
      destruct pre as [|p pre].
      * injection E as Eb El. exists [], (x :: l). rewrite Eb at 1.
        split; [reflexivity|]. split; [constructor|].
        constructor; [now rewrite <- Eb | rewrite El; exact Hpost].
      * injection E as Eb El. subst p. exists (best :: x :: pre), post.
        split; [now rewrite El|]. split; [|exact Hpost].
        pose proof (Forall_inv Hpre) as Hbm. pose proof (Forall_inv_tail Hpre) as Hpre'.
        cbv beta in Hbm.
        constructor; [exact Hbm|]. constructor; [|exact Hpre'].
        destruct (lt (key x) (key m)) eqn:Hxm; [reflexivity|].
        now rewrite (lt_negtrans Hx Hbx Hxm) in Hbm.
Qed.

End SortedOn.

(** ** Days *)

Lemma first_seen_length (l : list string) : (length (first_seen l) <= length l)%nat.
Proof.
  induction l as [|x l IH] using rev_ind; [simpl; lia|].
  rewrite first_seen_snoc, length_app. simpl.
  destruct (existsb (String.eqb x) (first_seen l)); [lia|].
  rewrite length_app. simpl. lia.
Qed.

Lemma first_seen_nonempty (l : list string) : l <> [] -> first_seen l <> [].
Proof.
  destruct l as [|x l]; [contradiction|]. intros _ E.
  assert (H : In x (first_seen (x :: l))) by (apply first_seen_In; now left).
  rewrite E in H. destruct H.
Qed.

(** The size of the set of the elements of a list. *)
Lemma size_list_to_set_first_seen (l : list string) :
  size (list_to_set l : gset string) = length (first_seen l).
Proof.
  assert (E : (list_to_set l : gset string) = list_to_set (first_seen l)).
  { apply set_eq. intros x. rewrite !elem_of_list_to_set, !list_elem_of_In.
    symmetry. apply first_seen_In. }
  rewrite E. apply size_list_to_set. apply NoDup_ListNoDup, first_seen_NoDup.
Qed.

Lemma grouped_In (T V : Type) (key : T -> string) (init : V) (upd : T -> V -> V)
    (l : list T) (k : string) (v : V) :
  In (k, v) (grouped key init upd l) <->
  In k (map key l) /\ v = group_value key init upd k l.
Proof.
  unfold grouped. rewrite in_map_iff, <- first_seen_In. split.
  - intros [k' [E Hk]]. inversion E; subst. now split.
  - intros [Hk ->]. now exists k.
Qed.

Lemma filter_nonempty (X : Type) (P : X -> bool) (l : list X) (x : X) :
  In x l -> P x = true -> List.filter P l <> [].
Proof.
  intros Hin HP E. assert (H : In x (List.filter P l)) by (apply List.filter_In; now split).
  rewrite E in H. destruct H.
Qed.

(** Strictly ascending keys: sorted keys that are pairwise distinct. *)
Lemma StronglySorted_strict (V : Type) (l : list (string * V)) :
  List.NoDup (map fst l) ->
  StronglySorted (fun a b => String.ltb (fst b) (fst a) = false) l ->
  StronglySorted (fun a b => String.ltb (fst a) (fst b) = true) l.
Proof.
  intros Hnd Hs. induction Hs as [|a l Hs IH Hall]; [constructor|].
  inversion Hnd as [|? ? Ha Hnd']; subst. constructor; [now apply IH|].
  apply List.Forall_forall. intros b Hb.
  rewrite List.Forall_forall in Hall. specialize (Hall b Hb). cbv beta in Hall.
  destruct (String.ltb (fst a) (fst b)) eqn:E; [reflexivity|].
  exfalso. apply Ha. rewrite (@string_ltb_total _ _ E Hall). now apply in_map.
Qed.

Section DayFacts.
Context {F : Type} {A : Arith F}.

Local Abbreviation Tx := (Transaction F).

Local Abbreviation day_init :=
  {| acc_revenue := of_int 0; acc_transaction_count := 0; acc_unique_customers := ∅ |}.
Local Abbreviation day_upd :=
  (fun (tx : Tx) (stats : DayAcc) =>
     {| acc_revenue := acc_revenue stats +! amount tx;
        acc_transaction_count := acc_transaction_count stats + 1;
        acc_unique_customers := {[ CustomerID tx ]} ∪ acc_unique_customers stats |}).
Local Abbreviation day_stats :=
  (fun kv : string * DayAcc =>
     (fst kv,
      {| revenue := acc_revenue (snd kv);
         day_transaction_count := acc_transaction_count (snd kv);
         unique_customers := Z.of_nat (size (acc_unique_customers (snd kv))) |})).

Lemma day_loop (txs : list Tx) :
  fold_left daily_step txs [] = grouped (@Date F) day_init day_upd txs.
Proof. exact (fold_group_step _ _ _ txs). Qed.

Lemma day_fold (l : list Tx) (s0 : DayAcc) :
  let s := fold_left (fun v t => day_upd t v) l s0 in
  acc_revenue s = fold_left (fun total tx => total +! amount tx) l (acc_revenue s0) /\
  acc_transaction_count s = acc_transaction_count s0 + len l /\
  acc_unique_customers s = list_to_set (map (@CustomerID F) l) ∪ acc_unique_customers s0.
Proof.
  revert s0. induction l as [|tx l IH]; intros s0; simpl.
  - unfold len. simpl. repeat split; [lia | now rewrite union_empty_l_L].
  - destruct (IH (day_upd tx s0)) as (H1 & H2 & H3).
    rewrite H1, H2, H3. unfold len. simpl. repeat split; [lia|].
    rewrite union_assoc_L. f_equal. apply union_comm_L.
Qed.

Lemma day_value (d : string) (txs : list Tx) :
  let s := group_value (@Date F) day_init day_upd d txs in
  acc_revenue s = calculate_total_revenue (of_day d txs) /\
  acc_transaction_count s = len (of_day d txs) /\
  Z.of_nat (size (acc_unique_customers s)) =
    len (first_seen (map (@CustomerID F) (of_day d txs))).
Proof.
  unfold group_value.
  destruct (day_fold (List.filter (fun t => String.eqb (Date t) d) txs) day_init)
    as (H1 & H2 & H3).
  split; [exact H1|]. split; [rewrite H2; reflexivity|].
  rewrite H3. cbn [acc_unique_customers]. rewrite union_empty_r_L.
  unfold len, of_day. now rewrite size_list_to_set_first_seen.
Qed.

Lemma daily_sales_trend_eq (txs : list Tx) :
  daily_sales_trend txs =
  sorted_reverse (fun a b => String.ltb b a) fst
    (map day_stats (grouped (@Date F) day_init day_upd txs)).
Proof. unfold daily_sales_trend. now rewrite sorted_as_reverse, day_loop. Qed.

Lemma daily_sales_trend_perm (txs : list Tx) :
  Permutation (daily_sales_trend txs)
              (map day_stats (grouped (@Date F) day_init day_upd txs)).
Proof. rewrite daily_sales_trend_eq. apply sorted_reverse_perm. Qed.

Lemma daily_sales_trend_keys (txs : list Tx) :
  Permutation (map fst (daily_sales_trend txs)) (first_seen (map (@Date F) txs)).
Proof.
  eapply Permutation_trans; [apply Permutation_map, daily_sales_trend_perm|].
  rewrite map_map. cbn [fst]. rewrite grouped_keys. apply Permutation_refl.
Qed.

Lemma daily_sales_trend_sorted (txs : list Tx) :
  StronglySorted (fun a b => String.ltb (fst a) (fst b) = true) (daily_sales_trend txs).
Proof.
  apply StronglySorted_strict.
  - apply (Permutation_NoDup (Permutation_sym (daily_sales_trend_keys txs))).
    apply first_seen_NoDup.
  - rewrite daily_sales_trend_eq.
    apply (@sorted_reverse_sorted _ _ (fun a b : string => String.ltb b a) fst).
    + intros a b. apply string_ltb_asym.
    + intros a b c H1 H2. exact (@string_ltb_negtrans _ _ _ H2 H1).
Qed.

Lemma daily_sales_trend_entry (txs : list Tx) (d : string) (s : DayStats) :
  In (d, s) (daily_sales_trend txs) ->
  In d (map (@Date F) txs) /\
  revenue s = calculate_total_revenue (of_day d txs) /\
  day_transaction_count s = len (of_day d txs) /\
  unique_customers s = len (first_seen (map (@CustomerID F) (of_day d txs))).
Proof.
  intros Hin. apply (Permutation_in _ (daily_sales_trend_perm txs)) in Hin.
  apply in_map_iff in Hin as [[d' acc] [E Hin]]. cbn [fst snd] in E.
  inversion E; subst. apply grouped_In in Hin as [Hd ->].
  split; [exact Hd|]. cbn [revenue day_transaction_count unique_customers].
  apply day_value.
Qed.

(** X15.  [daily_sales_trend] lists the dates of the input in strictly
    ascending order (as strings), each once; the [revenue] and the
    [transaction_count] of a day are the revenue and the number of the day's
    own transactions, and [unique_customers] is the number of distinct
    customer ids among them, at least 1 and at most the number of
    transactions. *)
Theorem daily_sales_trend_days (txs : list Tx) :
  let trend := daily_sales_trend txs in
  StronglySorted (fun a b => String.ltb (fst a) (fst b) = true) trend /\
  (forall d, In d (map fst trend) <-> In d (map (@Date F) txs)) /\
  (forall d s, In (d, s) trend ->
     revenue s = calculate_total_revenue (of_day d txs) /\
     day_transaction_count s = len (of_day d txs) /\
     unique_customers s = len (first_seen (map (@CustomerID F) (of_day d txs))) /\
     1 <= unique_customers s <= day_transaction_count s).
Proof.
  cbv zeta. split; [apply daily_sales_trend_sorted|]. split.
  - intros d. rewrite <- (first_seen_In (map (@Date F) txs) d).
    split; apply Permutation_in.
    + apply daily_sales_trend_keys.
    + apply Permutation_sym, daily_sales_trend_keys.
  - intros d s Hin. apply daily_sales_trend_entry in Hin as (Hd & Hr & Hc & Hu).
    split; [exact Hr|]. split; [exact Hc|]. split; [exact Hu|].
    rewrite Hu, Hc. unfold len.
    pose proof (first_seen_length (map (@CustomerID F) (of_day d txs))) as Hle.
    rewrite length_map in Hle.
    assert (Hne : map (@CustomerID F) (of_day d txs) <> []).
    { apply in_map_iff in Hd as [tx [Htx Hin]].
      intros E. apply map_eq_nil in E. revert E.
      apply (@filter_nonempty _ _ _ tx Hin). rewrite Htx. apply String.eqb_refl. }
    apply first_seen_nonempty in Hne.
    destruct (first_seen (map (@CustomerID F) (of_day d txs))); [contradiction|].
    simpl length in *. lia.
Qed.

End DayFacts.

Lemma max_from_In (T K : Type) (lt : K -> K -> bool) (key : T -> K) (best : T) (l : list T) :
  In (max_from lt key best l) (best :: l).
Proof.
  revert best. induction l as [|x l IH]; intros best; simpl; [now left|].
  destruct (IH (if lt (key best) (key x) then x else best)) as [E|Hin].
  - rewrite <- E. destruct (lt (key best) (key x)); [right; now left | now left].
  - right. now right.
Qed.

Lemma StronglySorted_after (X : Type) (R : X -> X -> Prop) (pre post : list X) (m : X) :
  StronglySorted R (pre ++ m :: post) -> Forall (R m) post.
Proof.
  induction pre as [|p pre IH]; simpl; intros Hs; inversion Hs; subst; [assumption|].
  now apply IH.
Qed.

Lemma peak_day (txs : list (Transaction float)) :
  txs <> [] ->
  exists date rev count,
    find_peak_sales_day txs = Ret (date, rev, count) /\
    (exists s, In (date, s) (daily_sales_trend txs) /\
               revenue s = rev /\ day_transaction_count s = count) /\
    (Forall (fun kv => is_nan (revenue (snd kv)) = false) (daily_sales_trend txs) ->
     forall d s, In (d, s) (daily_sales_trend txs) ->
       (revenue s <=! rev) = true /\
       ((rev <=! revenue s) = true -> String.ltb d date = false)).
Proof.
  intros Hne. unfold find_peak_sales_day.
  pose proof (daily_sales_trend_sorted txs) as Hsorted.
  assert (Htrend : daily_sales_trend txs <> []).
  { intros E. pose proof (Permutation_length (daily_sales_trend_keys txs)) as Hlen.
    rewrite E in Hlen. simpl in Hlen.
    assert (Hd : map (@Date float) txs <> []).
    { intros E'. apply map_eq_nil in E'. contradiction. }
    apply first_seen_nonempty in Hd.
    destruct (first_seen (map (@Date float) txs)); [contradiction | discriminate]. }
  destruct (daily_sales_trend txs) as [|x l]; [contradiction|]. cbn [py_max bind].
  set (key := fun kv : string * DayStats => revenue (snd kv)) in *.
  set (m := max_from fltb key x l).
  exists (fst m), (revenue (snd m)), (day_transaction_count (snd m)).
  split; [reflexivity|]. split.
  - exists (snd m). rewrite <- surjective_pairing. split; [apply max_from_In | now split].
  - intros Hnan d s Hin.
    destruct (@max_from_first _ _ (@fltb float _) key (fun r => is_nan r = false)
                float_ltb_asym float_ltb_negtrans x l Hnan)
      as (pre & post & E & Hpre & Hpost).
    fold m in E, Hpre, Hpost. rewrite E in Hin, Hnan, Hsorted.
    assert (Hm : is_nan (key m) = false).
    { rewrite List.Forall_forall in Hnan. apply (Hnan m), in_elt. }
    assert (Hs : is_nan (key (d, s)) = false).
    { rewrite List.Forall_forall in Hnan. now apply (Hnan (d, s)). }
    change (revenue s) with (key (d, s)). change (revenue (snd m)) with (key m).
    assert (Hirr : (key m <! key m) = false).
    { destruct (key m <! key m) eqn:Hmm; [|reflexivity]. now rewrite (@float_ltb_asym _ _ Hmm) in Hmm. }
    apply in_app_or in Hin as [Hin|[Hin|Hin]].
    + rewrite List.Forall_forall in Hpre. specialize (Hpre _ Hin). cbv beta in Hpre.
      pose proof (@float_ltb_asym _ _ Hpre) as Hms.
      rewrite (@float_ltb_leb _ _ Hm Hs) in Hms. rewrite (@float_ltb_leb _ _ Hs Hm) in Hpre.
      apply negb_false_iff in Hms. apply negb_true_iff in Hpre.
      split; [exact Hms|]. rewrite Hpre. discriminate.
    + assert (Ed : d = fst m) by now rewrite Hin.
      rewrite <- Hin, Ed. split.
      * rewrite (@float_ltb_leb _ _ Hm Hm) in Hirr. now apply negb_false_iff in Hirr.
      * intros _. destruct (String.ltb (fst m) (fst m)) eqn:Hdd; [|reflexivity].
        now rewrite (@string_ltb_asym _ _ Hdd) in Hdd.
    + rewrite List.Forall_forall in Hpost. specialize (Hpost _ Hin). cbv beta in Hpost.
      rewrite (@float_ltb_leb _ _ Hm Hs) in Hpost. apply negb_false_iff in Hpost.
      split; [exact Hpost|]. intros _.
      apply StronglySorted_after in Hsorted. rewrite List.Forall_forall in Hsorted.
      specialize (Hsorted _ Hin). cbn [fst] in Hsorted. now apply string_ltb_asym.
Qed.

(** X16.  On a list that is not empty and whose quantities fit a float the
    products of [daily_sales_trend] are defined (for another quantity the
    product raises [OverflowError]) and
    [find_peak_sales_day] returns a day of the daily trend with its revenue
    and its number of transactions; when no daily revenue is NaN, no day has
    a larger revenue, and of the days that reach it the peak is the earliest
    date. *)
Theorem find_peak_sales_day_peak (txs : list (Transaction float)) :
  txs <> [] ->
  Forall (fun tx => int_fits_float (Quantity tx) = true) txs ->
  amounts_of txs = Ret (map amount txs) /\
  exists date rev count,
    find_peak_sales_day txs = Ret (date, rev, count) /\
    (exists s, In (date, s) (daily_sales_trend txs) /\
               revenue s = rev /\ day_transaction_count s = count) /\
    (Forall (fun kv => is_nan (revenue (snd kv)) = false) (daily_sales_trend txs) ->
     forall d s, In (d, s) (daily_sales_trend txs) ->
       (revenue s <=! rev) = true /\
       ((rev <=! revenue s) = true -> String.ltb d date = false)).
Proof.
  intros Hne Hfit. split; [|now apply peak_day].
  rewrite amounts_of_eq. apply forallb_fits in Hfit. now rewrite Hfit.
Qed.

Lemma find_peak_sales_day_peak_witness :
  Samples.orders <> [] /\
  Forall (fun tx => int_fits_float (Quantity tx) = true) Samples.orders /\
  amounts_of Samples.orders = Ret (map amount Samples.orders) /\
  exists date rev count,
    find_peak_sales_day Samples.orders = Ret (date, rev, count) /\
    (exists s, In (date, s) (daily_sales_trend Samples.orders) /\
               revenue s = rev /\ day_transaction_count s = count) /\
    (Forall (fun kv => is_nan (revenue (snd kv)) = false) (daily_sales_trend Samples.orders) ->
     forall d s, In (d, s) (daily_sales_trend Samples.orders) ->
       (revenue s <=! rev) = true /\
       ((rev <=! revenue s) = true -> String.ltb d date = false)).
Proof.
  split; [discriminate|].
  assert (H : Forall (fun tx => int_fits_float (Quantity tx) = true) Samples.orders).
  { repeat constructor. }
  split; [exact H|]. apply find_peak_sales_day_peak; [discriminate | exact H].
Defined.

(** ** Products below a threshold *)

Lemma map_filter_comm (X Y : Type) (f : X -> Y) (P : Y -> bool) (l : list X) :
  map f (List.filter (fun x => P (f x)) l) = List.filter P (map f l).
Proof.
  induction l as [|x l IH]; simpl; [reflexivity|].
  destruct (P (f x)); simpl; now rewrite IH.
Qed.

Section LowProducts.
Context {F : Type} {A : Arith F}.

Local Abbreviation Tx := (Transaction F).

Lemma low_performing_products_eq (txs : list Tx) (threshold : Z) :
  low_performing_products txs threshold =
  sorted_reverse (fun a b => Z.ltb b a) triple_qty
    (List.filter (fun t => triple_qty t <? threshold) (product_groups txs)).
Proof.
  rewrite <- product_stats_groups.
  rewrite <- (map_filter_comm product_triple (fun t => triple_qty t <? threshold)).
  rewrite <- sorted_as_reverse. reflexivity.
Qed.

(** X17.  [low_performing_products] returns exactly the product groups whose
    total quantity is below the threshold, in ascending order of total
    quantity, groups of equal quantity in first-seen order; the threshold
    defaults to 10. *)
Theorem low_performing_products_listing (txs : list Tx) (threshold : Z) :
  let low := low_performing_products txs threshold in
  (forall t, In t low <-> In t (product_groups txs) /\ triple_qty t < threshold) /\
  StronglySorted (fun a b => triple_qty a <= triple_qty b) low /\
  (forall q, with_qty q low =
             if q <? threshold then with_qty q (product_groups txs) else []) /\
  low_performing_products_default txs = low_performing_products txs 10.
Proof.
  cbv zeta. rewrite low_performing_products_eq.
  set (below := List.filter (fun t => triple_qty t <? threshold) (product_groups txs)).
  pose proof (sorted_reverse_perm (fun a b => Z.ltb b a) triple_qty below) as Hperm.
  split; [|split; [|split]].
  - intros t. split.
    + intros Hin. apply (Permutation_in _ Hperm) in Hin.
      apply List.filter_In in Hin as [Hin Hlt]. split; [exact Hin | now apply Z.ltb_lt].
    + intros [Hin Hlt]. apply (Permutation_in _ (Permutation_sym Hperm)).
      apply List.filter_In. split; [exact Hin | now apply Z.ltb_lt].
  - eapply StronglySorted_weaken;
      [|apply (@sorted_reverse_sorted _ _ (fun a b => Z.ltb b a) triple_qty)].
    + intros a b Hab. cbv beta in Hab. now apply Z.ltb_ge.
    + intros a b. apply Zltb_asym.
    + intros a b c H1 H2. exact (@Zltb_negtrans _ _ _ H2 H1).
  - intros q. unfold with_qty at 1.
    rewrite sorted_reverse_stable.
    + unfold below. rewrite filter_filter.
      destruct (q <? threshold) eqn:Hq.
      * apply List.filter_ext_in. intros t _.
        destruct (Z.eqb_spec (triple_qty t) q) as [->|_];
          [now rewrite Hq | apply andb_false_r].
      * apply filter_nothing. intros t _.
        destruct (Z.eqb_spec (triple_qty t) q) as [->|_];
          [now rewrite Hq | apply andb_false_r].
    + intros a b Ha Hb. apply Z.eqb_eq in Ha, Hb. apply Z.ltb_ge. lia.
  - reflexivity.
Qed.

End LowProducts.

(** ** Customers *)

Section CustomerFacts.
Context {F : Type} {A : Arith F}.

Local Abbreviation Tx := (Transaction F).

Local Abbreviation customer_init :=
  {| acc_total_spent := of_int 0; acc_purchase_count := 0; acc_products_bought := ∅ |}.
Local Abbreviation customer_upd :=
  (fun (tx : Tx) (stats : CustomerAcc) =>
     {| acc_total_spent := acc_total_spent stats +! amount tx;
        acc_purchase_count := acc_purchase_count stats + 1;
        acc_products_bought := {[ ProductName tx ]} ∪ acc_products_bought stats |}).
Local Abbreviation customer_entry :=
  (fun kv : string * CustomerAcc =>
     (fst kv,
      {| total_spent := acc_total_spent (snd kv);
         purchase_count := acc_purchase_count (snd kv);
         avg_order_value :=
           round2 (acc_total_spent (snd kv) /! of_int (acc_purchase_count (snd kv)));
         products_bought := acc_products_bought (snd kv) |})).

Lemma customer_loop (txs : list Tx) :
  fold_left customer_step txs [] = grouped (@CustomerID F) customer_init customer_upd txs.
Proof. exact (fold_group_step _ _ _ txs). Qed.

Lemma customer_fold (l : list Tx) (s0 : CustomerAcc) :
  let s := fold_left (fun v t => customer_upd t v) l s0 in
  acc_total_spent s = fold_left (fun total tx => total +! amount tx) l (acc_total_spent s0) /\
  acc_purchase_count s = acc_purchase_count s0 + len l /\
  acc_products_bought s = list_to_set (map (@ProductName F) l) ∪ acc_products_bought s0.
Proof.
  revert s0. induction l as [|tx l IH]; intros s0; simpl.
  - unfold len. simpl. repeat split; [lia | now rewrite union_empty_l_L].
  - destruct (IH (customer_upd tx s0)) as (H1 & H2 & H3).
    rewrite H1, H2, H3. unfold len. simpl. repeat split; [lia|].
    rewrite union_assoc_L. f_equal. apply union_comm_L.
Qed.

Lemma customer_value (c : string) (txs : list Tx) :
  let s := group_value (@CustomerID F) customer_init customer_upd c txs in
  acc_total_spent s = calculate_total_revenue (of_customer c txs) /\
  acc_purchase_count s = len (of_customer c txs) /\
  acc_products_bought s = list_to_set (map (@ProductName F) (of_customer c txs)).
Proof.
  unfold group_value.
  destruct (customer_fold (List.filter (fun t => String.eqb (CustomerID t) c) txs) customer_init)
    as (H1 & H2 & H3).
  split; [exact H1|]. split; [rewrite H2; reflexivity|].
  rewrite H3. cbn [acc_products_bought]. now rewrite union_empty_r_L.
Qed.

(** No customer of the grouping has a purchase count of 0, so that no
    average divides by 0. *)
Lemma customer_averages_defined (l : list (string * CustomerAcc)) :
  Forall (fun kv => acc_purchase_count (snd kv) <> 0) l ->
  customer_averages l = Ret (map customer_entry l).
Proof.
  induction 1 as [|[c s] l Hc _ IH]; [reflexivity|].
  cbn [customer_averages]. unfold truediv. cbn [snd] in Hc.
  apply Z.eqb_neq in Hc. rewrite Hc. cbn [bind]. now rewrite IH.
Qed.

Lemma customer_counts (txs : list Tx) :
  Forall (fun kv => 1 <= acc_purchase_count (snd kv))
         (grouped (@CustomerID F) customer_init customer_upd txs).
Proof.
  apply List.Forall_forall. intros [c s] Hin. apply grouped_In in Hin as [Hc ->].
  cbn [snd]. destruct (customer_value c txs) as (_ & H2 & _). rewrite H2.
  apply in_map_iff in Hc as [tx [Htx Hin]].
  assert (Hne : of_customer c txs <> []).
  { apply (@filter_nonempty _ _ _ tx Hin). rewrite Htx. apply String.eqb_refl. }
  unfold len. destruct (of_customer c txs); [contradiction | simpl length; lia].
Qed.

Lemma customer_analysis_eq (txs : list Tx) :
  customer_analysis txs =
  Ret (sorted_reverse fltb (fun kv => total_spent (snd kv))
         (map customer_entry (grouped (@CustomerID F) customer_init customer_upd txs))).
Proof.
  unfold customer_analysis. rewrite customer_loop, customer_averages_defined; [reflexivity|].
  eapply List.Forall_impl; [|apply customer_counts]. intros kv H. cbv beta in H. lia.
Qed.

(** The entries of [customer_analysis], in every arithmetic: no average
    divides by 0, each customer id of the input is listed once, with the
    totals of the customer's own transactions. *)
Lemma customer_analysis_entries (txs : list Tx) :
  exists stats,
    customer_analysis txs = Ret stats /\
    List.NoDup (map fst stats) /\
    (forall c, In c (map fst stats) <-> In c (map (@CustomerID F) txs)) /\
    (forall c s, In (c, s) stats ->
       total_spent s = calculate_total_revenue (of_customer c txs) /\
       purchase_count s = len (of_customer c txs) /\
       1 <= purchase_count s /\
       avg_order_value s = round2 (total_spent s /! of_int (purchase_count s)) /\
       (forall p, p ∈ products_bought s <->
                  In p (map (@ProductName F) (of_customer c txs)))).
Proof.
  eexists. split; [apply customer_analysis_eq|].
  set (entries := map customer_entry (grouped (@CustomerID F) customer_init customer_upd txs)).
  pose proof (sorted_reverse_perm fltb (fun kv => total_spent (snd kv)) entries) as Hperm.
  assert (Hkeys : map fst entries = first_seen (map (@CustomerID F) txs)).
  { unfold entries. rewrite map_map. cbn [fst]. apply grouped_keys. }
  split; [|split].
  - apply (Permutation_NoDup (Permutation_map fst (Permutation_sym Hperm))).
    rewrite Hkeys. apply first_seen_NoDup.
  - intros c. rewrite <- (first_seen_In (map (@CustomerID F) txs) c), <- Hkeys.
    split; apply Permutation_in; apply Permutation_map;
      [exact Hperm | exact (Permutation_sym Hperm)].
  - intros c s Hin. apply (Permutation_in _ Hperm) in Hin.
    apply in_map_iff in Hin as [[c' acc] [E Hin]]. cbn [fst snd] in E.
    inversion E; subst. clear E.
    pose proof (customer_counts txs) as Hcount. rewrite List.Forall_forall in Hcount.
    specialize (Hcount _ Hin). cbn [snd] in Hcount.
    apply grouped_In in Hin as [Hc Hacc].
    cbn [total_spent purchase_count avg_order_value products_bought].
    destruct (customer_value c txs) as (H1 & H2 & H3). rewrite <- Hacc in H1, H2, H3.
    split; [exact H1|]. split; [exact H2|]. split; [exact Hcount|]. split; [reflexivity|].
    intros p. rewrite H3, elem_of_list_to_set. apply list_elem_of_In.
Qed.

End CustomerFacts.

(** X12.  On transactions whose quantities fit a float the products of line
    163 are defined (for another quantity the product raises
    [OverflowError]) and [customer_analysis] returns:
    every customer has a purchase, so that no average divides by 0.  The
    result lists each customer id of the input once; a customer's
    [total_spent] and [purchase_count] are the revenue and the number of the
    customer's own transactions, [avg_order_value] is their quotient rounded
    to two decimals, and [products_bought] holds the product names of these
    transactions. *)
Theorem customer_analysis_result (txs : list (Transaction float)) :
  Forall (fun tx => int_fits_float (Quantity tx) = true) txs ->
  amounts_of txs = Ret (map amount txs) /\
  exists stats,
    customer_analysis txs = Ret stats /\
    List.NoDup (map fst stats) /\
    (forall c, In c (map fst stats) <-> In c (map (@CustomerID float) txs)) /\
    (forall c s, In (c, s) stats ->
       total_spent s = calculate_total_revenue (of_customer c txs) /\
       purchase_count s = len (of_customer c txs) /\
       1 <= purchase_count s /\
       avg_order_value s = round2 (total_spent s /! of_int (purchase_count s)) /\
       (forall p, p ∈ products_bought s <->
                  In p (map (@ProductName float) (of_customer c txs)))).
Proof.
  intros Hfit. split; [|apply customer_analysis_entries].
  rewrite amounts_of_eq. apply forallb_fits in Hfit. now rewrite Hfit.
Qed.

Lemma customer_analysis_result_witness :
  Forall (fun tx => int_fits_float (Quantity tx) = true) Samples.orders /\
  exists stats,
    customer_analysis Samples.orders = Ret stats /\
    map (fun kv => (fst kv, total_spent (snd kv), purchase_count (snd kv),
                    avg_order_value (snd kv))) stats
    = [("C1", 1000%float, 1, 1000%float); ("C2", 100%float, 1, 100%float)].
Proof.
  assert (H : Forall (fun tx => int_fits_float (Quantity tx) = true) Samples.orders).
  { repeat constructor. }
  split; [exact H|].
  destruct (customer_analysis_result H) as (_ & stats & Hret & _).
  exists stats. split; [exact Hret|].
  rewrite customer_analysis_eq in Hret. injection Hret as <-. reflexivity.
Defined.

(** ** Rankings by money, in binary64 *)

Lemma StronglySorted_weaken_on (X : Type) (R R' : X -> X -> Prop) (ok : X -> Prop)
    (l : list X) :
  (forall a b, ok a -> ok b -> R a b -> R' a b) ->
  Forall ok l -> StronglySorted R l -> StronglySorted R' l.
Proof.
  intros HR Hok Hs. induction Hs as [|a l _ IH Hall]; [constructor|].
  pose proof (Forall_inv Hok) as Ha. pose proof (Forall_inv_tail Hok) as Hl.
  constructor; [now apply IH|].
  rewrite List.Forall_forall in *. intros b Hb. apply HR; auto.
Qed.

Lemma sorted_reverse_descending (T : Type) (key : T -> float) (l : list T) :
  Forall (fun x => is_nan (key x) = false) l ->
  StronglySorted (fun a b => (key b <=! key a) = true) (sorted_reverse fltb key l).
Proof.
  intros Hok.
  apply (@StronglySorted_weaken_on _ (fun a b => (key a <! key b) = false) _
           (fun x => is_nan (key x) = false)).
  - intros a b Ha Hb Hab. rewrite (@float_ltb_leb _ _ Ha Hb) in Hab.
    now apply negb_false_iff in Hab.
  - apply (Permutation_Forall (Permutation_sym (sorted_reverse_perm fltb key l))). exact Hok.
  - apply (@sorted_reverse_sorted_on _ _ (@fltb float _) key (fun r => is_nan r = false)
             float_ltb_asym float_ltb_negtrans). exact Hok.
Qed.

(** X14.  In binary64 [region_wise_sales] lists the regions in descending order
    of [total_sales], provided no regional total is NaN. *)
Theorem region_wise_sales_descending (txs : list (Transaction float)) :
  Forall (fun kv => is_nan (total_sales (snd kv)) = false) (region_wise_sales txs) ->
  StronglySorted (fun a b => (total_sales (snd b) <=! total_sales (snd a)) = true)
                 (region_wise_sales txs).
Proof.
  unfold region_wise_sales. intros Hok.
  apply (@sorted_reverse_descending _ (fun kv : string * RegionStats => total_sales (snd kv))).
  eapply Permutation_Forall; [|exact Hok]. apply sorted_reverse_perm.
Qed.

Lemma region_wise_sales_descending_witness :
  Forall (fun kv => is_nan (total_sales (snd kv)) = false) (region_wise_sales Samples.orders) /\
  StronglySorted (fun a b => (total_sales (snd b) <=! total_sales (snd a)) = true)
                 (region_wise_sales Samples.orders).
Proof.
  assert (H : Forall (fun kv => is_nan (total_sales (snd kv)) = false)
                     (region_wise_sales Samples.orders)).
  { repeat constructor. }
  split; [exact H | exact (region_wise_sales_descending Samples.orders H)].
Defined.

(** X13.  In binary64 [customer_analysis] lists the customers in descending
    order of [total_spent], provided no total is NaN. *)
Theorem customer_analysis_descending (txs : list (Transaction float))
    (stats : list (string * CustomerStats)) :
  customer_analysis txs = Ret stats ->
  Forall (fun kv => is_nan (total_spent (snd kv)) = false) stats ->
  StronglySorted (fun a b => (total_spent (snd b) <=! total_spent (snd a)) = true) stats.
Proof.
  rewrite customer_analysis_eq. intros [= <-] Hok.
  apply (@sorted_reverse_descending _ (fun kv : string * CustomerStats => total_spent (snd kv))).
  eapply Permutation_Forall; [|exact Hok]. apply sorted_reverse_perm.
Qed.

Lemma customer_analysis_descending_witness :
  exists stats,
    customer_analysis Samples.orders = Ret stats /\
    Forall (fun kv => is_nan (total_spent (snd kv)) = false) stats /\
    StronglySorted (fun a b => (total_spent (snd b) <=! total_spent (snd a)) = true) stats /\
    map fst stats = ["C1"; "C2"].
Proof.
  eexists. split; [apply customer_analysis_eq|].
  match goal with
  | |- Forall ?P ?l /\ _ => assert (H : Forall P l) by repeat constructor
  end.
  split; [exact H|]. split; [|reflexivity].
  exact (customer_analysis_descending Samples.orders (customer_analysis_eq Samples.orders) H).
Defined.

(** Floats that [==] takes for equal are not ordered by [<]. *)
Lemma float_eqb_not_ltb (a b r : float) :
  PrimFloat.eqb a r = true -> PrimFloat.eqb b r = true -> (a <! b) = false.
Proof.
  change (PrimFloat.eqb a r = true -> PrimFloat.eqb b r = true -> PrimFloat.ltb a b = false).
  rewrite !FloatAxioms.eqb_spec, FloatAxioms.ltb_spec.
  unfold SFeqb, SFltb, SFcompare.
  destruct (Prim2SF a) as [sa|sa| |sa ma ea], (Prim2SF b) as [sb|sb| |sb mb eb],
           (Prim2SF r) as [sr|sr| |sr mr er];
    try destruct sa; try destruct sb; try destruct sr;
    try discriminate; try reflexivity;
    compare_cases.
Qed.

(** C3, amended.  Where no product's revenue is NaN, the rows of the report's
    top-5 table are the first five entries of the ranking of the product
    groups by revenue: it holds exactly the groups, in descending order of
    total revenue, and groups of equal revenue keep their first-seen order.
    [top_selling_products] with [n = 5] returns the first five entries of the
    ranking of the same groups by quantity, in descending order of total
    quantity with the same rule for ties.  The two lists are the same
    whenever the two rankings are. *)
Theorem report_top_products_by_revenue (txs : list (Transaction float)) :
  Forall (fun t => is_nan (triple_revenue t) = false) (product_groups txs) ->
  exists by_revenue by_quantity,
    (map sales_triple (report_top_products txs) = firstn 5 by_revenue /\
     map (fun row => (snd (fst (fst row)), snd (fst row), snd row))
         (report_top_products_table txs) = firstn 5 by_revenue /\
     map (fun row => fst (fst (fst row))) (report_top_products_table txs)
       = map Z.of_nat (seq 1 (length (firstn 5 by_revenue)))) /\
    (Permutation by_revenue (product_groups txs) /\
     StronglySorted (fun a b => (triple_revenue b <=! triple_revenue a) = true) by_revenue /\
     (forall r, with_revenue r by_revenue = with_revenue r (product_groups txs))) /\
    top_selling_products txs 5 = firstn 5 by_quantity /\
    (Permutation by_quantity (product_groups txs) /\
     StronglySorted (fun a b => triple_qty b <= triple_qty a) by_quantity /\
     (forall q, with_qty q by_quantity = with_qty q (product_groups txs))) /\
    (by_revenue = by_quantity ->
     map sales_triple (report_top_products txs) = top_selling_products txs 5).
Proof.
  intros Hnum.
  exists (sorted_reverse fltb triple_revenue (product_groups txs)),
         (sorted_reverse Z.ltb triple_qty (product_groups txs)).
  assert (Htable : forall (l : list (string * ProductSales)) (z : Z),
             map (fun row : Z * string * Z * float => (snd (fst (fst row)), snd (fst row), snd row))
                 (map (fun r => (fst r, fst (snd r), qty (snd (snd r)),
                                 sales_revenue (snd (snd r))))
                      (enumerate z l))
             = map sales_triple l).
  { induction l as [|kv l IH]; intros z; simpl; [reflexivity|]. now rewrite IH. }
  assert (Hrank : forall (l : list (string * ProductSales)) (z : nat),
             map (fun row : Z * string * Z * float => fst (fst (fst row)))
                 (map (fun r => (fst r, fst (snd r), qty (snd (snd r)),
                                 sales_revenue (snd (snd r))))
                      (enumerate (Z.of_nat z) l))
             = map Z.of_nat (seq z (length (map sales_triple l)))).
  { induction l as [|kv l IH]; intros z; simpl; [reflexivity|].
    replace (Z.of_nat z + 1) with (Z.of_nat (S z)) by lia. now rewrite IH. }
  split; [split; [|split]|split; [split; [|split]|split; [|split; [split; [|split]|]]]].
  - exact (report_top_products_eq txs).
  - unfold report_top_products_table. rewrite Htable. exact (report_top_products_eq txs).
  - unfold report_top_products_table.
    etransitivity; [exact (Hrank (report_top_products txs) 1%nat)|].
    assert (E : map sales_triple (report_top_products txs)
                = firstn 5 (sorted_reverse fltb triple_revenue (product_groups txs)))
      by exact (report_top_products_eq txs).
    now rewrite E.
  - apply sorted_reverse_perm.
  - now apply sorted_reverse_descending.
  - intros r. apply sorted_reverse_stable. intros a b. apply float_eqb_not_ltb.
  - exact (top_selling_products_eq txs 5).
  - apply sorted_reverse_perm.
  - eapply StronglySorted_weaken;
      [|exact (sorted_reverse_sorted Z.ltb triple_qty Zltb_asym Zltb_negtrans
                 (product_groups txs))].
    intros a b Hab. now apply Z.ltb_ge.
  - intros q. apply sorted_reverse_stable. intros a b Ha Hb.
    apply Z.eqb_eq in Ha, Hb. apply Z.ltb_ge. lia.
  - intros E. rewrite report_top_products_eq, top_selling_products_eq.
    now rewrite E.
Qed.

(** The witness of C3, on one laptop and five pens. *)
Lemma report_top_products_by_revenue_witness :
  Forall (fun t => is_nan (triple_revenue t) = false)
         (product_groups [Samples.laptop; Samples.pens]) /\
  exists by_revenue by_quantity,
    map sales_triple (report_top_products [Samples.laptop; Samples.pens])
      = firstn 5 by_revenue /\
    StronglySorted (fun a b => (triple_revenue b <=! triple_revenue a) = true) by_revenue /\
    top_selling_products [Samples.laptop; Samples.pens] 5 = firstn 5 by_quantity /\
    StronglySorted (fun a b => triple_qty b <= triple_qty a) by_quantity.
Proof.
  assert (H : Forall (fun t => is_nan (triple_revenue t) = false)
                     (product_groups [Samples.laptop; Samples.pens])).
  { repeat constructor. }
  split; [exact H|].
  destruct (report_top_products_by_revenue [Samples.laptop; Samples.pens] H)
    as (by_revenue & by_quantity & (Hr & _) & (_ & Hsr & _) & Hq & (_ & Hsq & _) & _).
  exists by_revenue, by_quantity. repeat split; assumption.
Defined.

(** ** The catalog *)

Lemma find_append (X : Type) (P : X -> bool) (l l' : list X) :
  List.find P (l ++ l') =
  match List.find P l with
  | Some x => Some x
  | None => List.find P l'
  end.
Proof.
  induction l as [|x l IH]; simpl; [reflexivity|]. now destruct (P x).
Qed.

Section CatalogFacts.
Context {F : Type} {A : Arith F}.

Local Abbreviation Tx := (Transaction F).

Lemma create_product_mapping_fold (api_products : list (ApiProduct F))
    (product_map : gmap Z (CatalogInfo F)) (id : Z) :
  fold_left
    (fun product_map p =>
       match p_id p with
       | Some id =>
           <[ id := {| title := p_title p; category := p_category p;
                       brand := p_brand p; rating := p_rating p |} ]> product_map
       | None => product_map
       end)
    api_products product_map !! id =
  match List.find (has_id id) (rev api_products) with
  | Some p => Some (catalog_entry p)
  | None => product_map !! id
  end.
Proof.
  induction api_products as [|p l IH] using rev_ind; [reflexivity|].
  rewrite fold_left_app, rev_app_distr. cbn [fold_left rev app List.find].
  unfold has_id at 1. destruct (p_id p) as [i|]; [|exact IH].
  destruct (Z.eqb_spec i id) as [->|Hne].
  - now rewrite lookup_insert_eq.
  - rewrite lookup_insert_ne by exact Hne. exact IH.
Qed.

Lemma create_product_mapping_find (api_products : list (ApiProduct F)) (id : Z) :
  create_product_mapping api_products !! id =
  option_map catalog_entry (List.find (has_id id) (rev api_products)).
Proof.
  unfold create_product_mapping. rewrite create_product_mapping_fold.
  now destruct (List.find (has_id id) (rev api_products)).
Qed.

(** X18.  The index built by [create_product_mapping] maps an id to the entry of
    the last product of the list that carries it: an id has an entry exactly
    when some product carries it, products without id are passed over, and a
    later product replaces an earlier one of the same id. *)
Theorem create_product_mapping_lookup (api_products : list (ApiProduct F)) (id : Z) :
  create_product_mapping api_products !! id =
    option_map catalog_entry (List.find (has_id id) (rev api_products)) /\
  (is_Some (create_product_mapping api_products !! id) <->
   exists p, In p api_products /\ p_id p = Some id) /\
  (forall more p,
     p_id p = Some id ->
     create_product_mapping (api_products ++ p :: more) !! id =
     match List.find (has_id id) (rev more) with
     | Some q => Some (catalog_entry q)
     | None => Some (catalog_entry p)
     end).
Proof.
  split; [apply create_product_mapping_find|]. split.
  - rewrite create_product_mapping_find. split.
    + intros [info Hinfo].
      destruct (List.find (has_id id) (rev api_products)) as [p|] eqn:E; [|discriminate].
      apply find_some in E as [Hin Hid]. exists p. split; [now apply in_rev|].
      unfold has_id in Hid. destruct (p_id p) as [i|]; [|discriminate].
      apply Z.eqb_eq in Hid. now subst.
    + intros [p [Hin Hid]].
      destruct (List.find (has_id id) (rev api_products)) as [q|] eqn:E; [now eexists|].
      exfalso. apply in_rev in Hin. pose proof (find_none _ _ E p Hin) as Hno.
      unfold has_id in Hno. rewrite Hid, Z.eqb_refl in Hno. discriminate.
  - intros more p Hp. rewrite create_product_mapping_find.
    rewrite rev_app_distr. cbn [rev]. rewrite <- app_assoc. cbn [app].
    rewrite find_append.
    destruct (List.find (has_id id) (rev more)) as [q|]; [reflexivity|].
    cbn [List.find]. unfold has_id at 1. now rewrite Hp, Z.eqb_refl.
Qed.

Lemma enrich_one_numeric_id (product_mapping : gmap Z (CatalogInfo F)) (tx : Tx) :
  enrich_one product_mapping tx =
  match numeric_id (ProductID tx) with
  | Some id =>
      if id =? 0 then no_match tx
      else match product_mapping !! id with
           | Some api_info =>
               {| base := tx; API_Category := category api_info;
                  API_Brand := brand api_info; API_Rating := rating api_info;
                  API_Match := true |}
           | None => no_match tx
           end
  | None => no_match tx
  end.
Proof.
  unfold enrich_one, enrich_try, numeric_id, py_int.
  destruct (re_search_digits (ProductID tx)) as [group|]; [|reflexivity].
  destruct (int_max_str_digits <? String.length group)%nat; [reflexivity|].
  cbn [bind]. destruct (digits_value 0 group =? 0); [reflexivity|]. cbn [negb].
  now destruct (product_mapping !! digits_value 0 group).
Qed.

End CatalogFacts.

Lemma digits_prefix_all (s : string) : all_digits s = true -> digits_prefix s = s.
Proof.
  induction s as [|c s IH]; simpl; [reflexivity|].
  destruct (is_digit c); [|discriminate]. intros H. now rewrite IH.
Qed.

Lemma re_search_digits_prefixed (prefix digits : string) :
  no_digits prefix = true -> all_digits digits = true -> digits <> EmptyString ->
  re_search_digits (prefix ++ digits) = Some digits.
Proof.
  intros Hp Hd Hne. induction prefix as [|c prefix IH].
  - rewrite append_nil_l. destruct digits as [|d digits]; [contradiction|].
    cbn [re_search_digits]. cbn [all_digits] in Hd.
    destruct (is_digit d) eqn:Ed; [|discriminate].
    now rewrite (digits_prefix_all (String d digits)) by (cbn [all_digits]; now rewrite Ed).
  - rewrite append_cons. cbn [re_search_digits no_digits] in *.
    destruct (is_digit c); [discriminate | now apply IH].
Qed.

Section EnrichmentRule.
Context {F : Type} {A : Arith F}.

Local Abbreviation Tx := (Transaction F).

(** X19.  Enrichment against the index of a product list: a record whose
    product id holds the number [id] takes the category, brand and rating of
    the last product of the list that carries [id]; it is recorded as
    unmatched when [id] is 0, when no product carries [id], and when the
    product id holds no digits or more than [int] converts.  For a product id
    made of a prefix without digits and at most 4300 digits, [id] is the
    number the digits denote. *)
Theorem enrichment_by_catalog (api_products : list (ApiProduct F)) (tx : Tx) :
  enrich_one (create_product_mapping api_products) tx =
    match numeric_id (ProductID tx) with
    | Some id =>
        if id =? 0 then no_match tx
        else match List.find (has_id id) (rev api_products) with
             | Some p => matched_with p tx
             | None => no_match tx
             end
    | None => no_match tx
    end /\
  (forall prefix digits,
     no_digits prefix = true -> all_digits digits = true -> digits <> EmptyString ->
     (String.length digits <= int_max_str_digits)%nat ->
     numeric_id (prefix ++ digits) = Some (digits_value 0 digits)).
Proof.
  split.
  - rewrite enrich_one_numeric_id.
    destruct (numeric_id (ProductID tx)) as [id|]; [|reflexivity].
    destruct (id =? 0); [reflexivity|].
    rewrite create_product_mapping_find.
    now destruct (List.find (has_id id) (rev api_products)).
  - intros prefix digits Hp Hd Hne Hlen. unfold numeric_id.
    rewrite re_search_digits_prefixed by assumption.
    apply Nat.ltb_ge in Hlen. now rewrite Hlen.
Qed.

End EnrichmentRule.

(** ** The rows of the snapshot *)


Section SnapshotRows.
Context {F : Type} {A : Arith F}.
Variable str_float : F -> string.


End SnapshotRows.

(** ** The tables of the report *)

Section ReportFacts.
Context {F : Type} {A : Arith F}.

Local Abbreviation Tx := (Transaction F).

Local Abbreviation region_init :=
  {| total_sales := of_int 0; transaction_count := 0; percentage := of_int 0 |}.
Local Abbreviation region_upd :=
  (fun (tx : Tx) (stats : RegionStats) =>
     {| total_sales := total_sales stats +! amount tx;
        transaction_count := transaction_count stats + 1;
        percentage := percentage stats |}).
Local Abbreviation sales_init := {| region_revenue := of_int 0; region_count := 0 |}.
Local Abbreviation sales_upd :=
  (fun (tx : Tx) (v : RegionSales) =>
     (fun stats => {| region_revenue := region_revenue stats;
                      region_count := region_count stats + 1 |})
       ((fun stats => {| region_revenue := region_revenue stats +! amount tx;
                         region_count := region_count stats |}) v)).

Lemma region_sales_step_group (d : list (string * RegionSales)) (tx : Tx) :
  region_sales_step d tx = group_step (@Region F) sales_init sales_upd d tx.
Proof.
  unfold region_sales_step, region_sales_default, group_step.
  now rewrite od_setdefault_again, od_update_update.
Qed.

Lemma report_region_sales_grouped (txs : list Tx) :
  report_region_sales txs = grouped (@Region F) sales_init sales_upd txs.
Proof.
  unfold report_region_sales.
  rewrite (fold_left_pointwise _ _ txs [] region_sales_step_group).
  apply fold_group_step.
Qed.

Lemma region_sales_fold (l : list Tx) (s0 : RegionSales) :
  let s := fold_left (fun v t => sales_upd t v) l s0 in
  region_revenue s = fold_left (fun total tx => total +! amount tx) l (region_revenue s0) /\
  region_count s = region_count s0 + len l.
Proof.
  revert s0. induction l as [|tx l IH]; intros s0.
  - unfold len. simpl. split; [reflexivity | lia].
  - destruct (IH (sales_upd tx s0)) as (H1 & H2). split; [exact H1|].
    etransitivity; [exact H2|]. unfold len. simpl. lia.
Qed.

Lemma region_sales_value (r : string) (txs : list Tx) :
  let s := group_value (@Region F) sales_init sales_upd r txs in
  region_revenue s = calculate_total_revenue (of_region r txs) /\
  region_count s = len (of_region r txs).
Proof.
  unfold group_value.
  destruct (region_sales_fold (List.filter (fun t => String.eqb (Region t) r) txs) sales_init)
    as (H1 & H2).
  split; [exact H1 | rewrite H2; reflexivity].
Qed.

(** The regions with their revenue and their number of transactions, in
    first-seen order. *)
Lemma report_region_sales_triples (txs : list Tx) :
  map (fun kv => (fst kv, region_revenue (snd kv), region_count (snd kv)))
      (report_region_sales txs) =
  map (fun r => (r, calculate_total_revenue (of_region r txs), len (of_region r txs)))
      (first_seen (map (@Region F) txs)).
Proof.
  rewrite report_region_sales_grouped. unfold grouped. rewrite map_map.
  apply map_ext. intros r. cbn [fst snd].
  destruct (region_sales_value r txs) as [-> ->]. reflexivity.
Qed.

Lemma region_stats_triples (txs : list Tx) :
  map (fun kv => (fst kv, total_sales (snd kv), transaction_count (snd kv)))
      (map (fun kv => (fst kv, set_percentage (calculate_total_revenue txs) (snd kv)))
           (fold_left region_step txs [])) =
  map (fun r => (r, calculate_total_revenue (of_region r txs), len (of_region r txs)))
      (first_seen (map (@Region F) txs)).
Proof.
  rewrite region_loop. unfold grouped. rewrite !map_map.
  apply map_ext. intros r. cbn [fst snd].
  destruct (set_percentage_keeps (calculate_total_revenue txs)
              (group_value (@Region F) region_init region_upd r txs)) as [-> ->].
  destruct (region_value r txs) as (-> & -> & _). reflexivity.
Qed.

(** X22.  The region table of the report lists the same regions, in the same
    order, with the same sales and the same numbers of transactions as
    [region_wise_sales]. *)
Theorem report_region_summary_agrees (txs : list Tx) :
  map (fun kv => (fst kv, region_revenue (snd kv), region_count (snd kv)))
      (report_region_summary txs) =
  map (fun kv => (fst kv, total_sales (snd kv), transaction_count (snd kv)))
      (region_wise_sales txs).
Proof.
  unfold report_region_summary, region_wise_sales.
  rewrite (@sorted_reverse_map _ _ _ fltb (fun kv : string * RegionSales => region_revenue (snd kv))
             (fun t : string * F * Z => snd (fst t))
             (fun kv => (fst kv, region_revenue (snd kv), region_count (snd kv))))
    by reflexivity.
  rewrite (@sorted_reverse_map _ _ _ fltb (fun kv : string * RegionStats => total_sales (snd kv))
             (fun t : string * F * Z => snd (fst t))
             (fun kv => (fst kv, total_sales (snd kv), transaction_count (snd kv))))
    by reflexivity.
  now rewrite report_region_sales_triples, region_stats_triples.
Qed.

Lemma group_nonempty (T : Type) (key : T -> string) (l : list T) (k : string) :
  In k (first_seen (map key l)) ->
  1 <= len (List.filter (fun t => String.eqb (key t) k) l).
Proof.
  intros Hk. apply first_seen_In, in_map_iff in Hk as [t [Ht Hin]].
  assert (Hne : List.filter (fun t => String.eqb (key t) k) l <> []).
  { apply (@filter_nonempty _ _ _ t Hin). rewrite Ht. apply String.eqb_refl. }
  unfold len. destruct (List.filter _ l); [contradiction | simpl length; lia].
Qed.

Lemma avg_tx_value_fold (l : list (string * RegionSales)) :
  Forall (fun kv => region_count (snd kv) <> 0) l ->
  fold_right
    (fun kv rest =>
       bind (if region_count (snd kv) =? 0 then Ret (of_int 0)
             else truediv (region_revenue (snd kv)) (region_count (snd kv)))
         (fun avg => bind rest (fun rest => Ret ((fst kv, avg) :: rest))))
    (Ret []) l =
  Ret (map (fun kv => (fst kv, region_revenue (snd kv) /! of_int (region_count (snd kv)))) l).
Proof.
  induction 1 as [|kv l Hc _ IH]; [reflexivity|].
  cbn [fold_right map]. rewrite IH. unfold truediv.
  apply Z.eqb_neq in Hc. rewrite Hc. reflexivity.
Qed.

(** X23.  The averages per region of the report are computed without error, one
    for each region in first-seen order (this table is not sorted): each is
    the revenue of the region's transactions divided by their number, which
    is at least 1, so that the guard for a region without transactions is
    never taken. *)
Theorem report_avg_tx_value_region_defined (txs : list Tx) :
  report_avg_tx_value_region txs =
    Ret (map (fun r => (r, calculate_total_revenue (of_region r txs)
                           /! of_int (len (of_region r txs))))
             (first_seen (map (@Region F) txs))) /\
  Forall (fun r => 1 <= len (of_region r txs)) (first_seen (map (@Region F) txs)).
Proof.
  assert (Hpos : Forall (fun r => 1 <= len (of_region r txs))
                        (first_seen (map (@Region F) txs))).
  { apply List.Forall_forall. intros r Hr. now apply group_nonempty. }
  split; [|exact Hpos].
  unfold report_avg_tx_value_region. rewrite report_region_sales_grouped.
  rewrite avg_tx_value_fold.
  - unfold grouped. rewrite map_map. f_equal. apply map_ext. intros r. cbn [fst snd].
    destruct (region_sales_value r txs) as [-> ->]. reflexivity.
  - unfold grouped. apply List.Forall_forall. intros kv Hin.
    apply in_map_iff in Hin as [r [<- Hr]]. cbn [snd].
    destruct (region_sales_value r txs) as [_ ->].
    rewrite List.Forall_forall in Hpos. specialize (Hpos r Hr). lia.
Qed.

(** *** Customers *)

Local Abbreviation customer_init :=
  {| acc_total_spent := of_int 0; acc_purchase_count := 0; acc_products_bought := ∅ |}.
Local Abbreviation customer_upd :=
  (fun (tx : Tx) (stats : CustomerAcc) =>
     {| acc_total_spent := acc_total_spent stats +! amount tx;
        acc_purchase_count := acc_purchase_count stats + 1;
        acc_products_bought := {[ ProductName tx ]} ∪ acc_products_bought stats |}).
Local Abbreviation spent_init := {| spent := of_int 0; orders := 0 |}.
Local Abbreviation spent_upd :=
  (fun (tx : Tx) (v : CustomerSales) =>
     (fun stats => {| spent := spent stats; orders := orders stats + 1 |})
       ((fun stats => {| spent := spent stats +! amount tx; orders := orders stats |}) v)).

Lemma customer_sales_step_group (d : list (string * CustomerSales)) (tx : Tx) :
  customer_sales_step d tx = group_step (@CustomerID F) spent_init spent_upd d tx.
Proof.
  unfold customer_sales_step, customer_sales_default, group_step.
  now rewrite od_setdefault_again, od_update_update.
Qed.

Lemma customer_sales_fold (l : list Tx) (s0 : CustomerSales) :
  let s := fold_left (fun v t => spent_upd t v) l s0 in
  spent s = fold_left (fun total tx => total +! amount tx) l (spent s0) /\
  orders s = orders s0 + len l.
Proof.
  revert s0. induction l as [|tx l IH]; intros s0.
  - unfold len. simpl. split; [reflexivity | lia].
  - destruct (IH (spent_upd tx s0)) as (H1 & H2). split; [exact H1|].
    etransitivity; [exact H2|]. unfold len. simpl. lia.
Qed.

(** X24.  The customer table of the report lists the first five customers of
    [customer_analysis], with the same totals and the same numbers of orders. *)
Theorem report_top_customers_agrees (txs : list Tx) :
  exists stats,
    customer_analysis txs = Ret stats /\
    map (fun kv => (fst kv, spent (snd kv), orders (snd kv))) (report_top_customers txs) =
    map (fun kv => (fst kv, total_spent (snd kv), purchase_count (snd kv))) (firstn 5 stats).
Proof.
  eexists. split; [apply customer_analysis_eq|].
  unfold report_top_customers.
  rewrite (fold_left_pointwise _ _ txs [] customer_sales_step_group), fold_group_step.
  rewrite slice_to_nonneg by lia. change (Z.to_nat 5) with 5%nat.
  rewrite <- !firstn_map. f_equal.
  rewrite (@sorted_reverse_map _ _ _ fltb (fun kv : string * CustomerSales => spent (snd kv))
             (fun t : string * F * Z => snd (fst t))
             (fun kv => (fst kv, spent (snd kv), orders (snd kv))))
    by reflexivity.
  rewrite (@sorted_reverse_map _ _ _ fltb
             (fun kv : string * CustomerStats => total_spent (snd kv))
             (fun t : string * F * Z => snd (fst t))
             (fun kv => (fst kv, total_spent (snd kv), purchase_count (snd kv))))
    by reflexivity.
  f_equal. unfold grouped. rewrite !map_map. apply map_ext. intros c. cbn [fst snd].
  unfold group_value.
  destruct (customer_sales_fold (List.filter (fun t => String.eqb (CustomerID t) c) txs)
              spent_init) as [-> ->].
  destruct (customer_fold (List.filter (fun t => String.eqb (CustomerID t) c) txs)
              customer_init) as (H1 & H2 & _).
  cbn [total_spent purchase_count]. now rewrite H1, H2.
Qed.

(** *** Days *)

Lemma daily_sales_step_daily_step (d : list (string * DayAcc)) (tx : Tx) :
  daily_sales_step d tx = daily_step d tx.
Proof.
  unfold daily_sales_step, daily_sales_default, daily_step.
  now rewrite !od_setdefault_again, !od_update_update.
Qed.

(** X25.  The daily table of the report lists the same days, in the same order,
    with the same revenue, number of transactions and number of customers as
    [daily_sales_trend]. *)
Theorem report_daily_summary_agrees (txs : list Tx) :
  map (fun kv => (fst kv, acc_revenue (snd kv), acc_transaction_count (snd kv),
                  Z.of_nat (size (acc_unique_customers (snd kv)))))
      (report_daily_summary txs) =
  map (fun kv => (fst kv, revenue (snd kv), day_transaction_count (snd kv),
                  unique_customers (snd kv)))
      (daily_sales_trend txs).
Proof.
  unfold report_daily_summary, daily_sales_trend.
  rewrite (fold_left_pointwise _ _ txs [] daily_sales_step_daily_step).
  rewrite !sorted_as_reverse.
  rewrite <- (@sorted_reverse_map _ _ _ (fun a b => String.ltb b a) fst fst
                (fun kv : string * DayAcc =>
                   (fst kv,
                    {| revenue := acc_revenue (snd kv);
                       day_transaction_count := acc_transaction_count (snd kv);
                       unique_customers := Z.of_nat (size (acc_unique_customers (snd kv))) |})))
    by reflexivity.
  now rewrite map_map.
Qed.

(** *** Enrichment summary *)

Lemma enriched_count_fold (enriched : list (Enriched F)) (count : Z) :
  fold_left (fun count (tx : Enriched F) => if API_Match tx then count + 1 else count)
            enriched count =
  count + len (List.filter (@API_Match F) enriched).
Proof.
  revert count. unfold len. induction enriched as [|e l IH]; intros c; simpl; [lia|].
  rewrite IH. destruct (API_Match e); simpl length; lia.
Qed.

(** X27.  In the enrichment summary of the report the number of records
    enriched and the number of unmatched product names add up to the number
    of transactions; the unmatched names are the product names of the
    records that were not matched, in order, one for each record. *)
Theorem report_enrichment_summary (product_mapping : gmap Z (CatalogInfo F)) (txs : list Tx) :
  let enriched := map (enrich_one product_mapping) txs in
  report_enriched_count enriched + len (report_failed_products enriched) = len txs /\
  report_failed_products enriched =
    map (@ProductName F)
        (List.filter (fun tx => negb (API_Match (enrich_one product_mapping tx))) txs) /\
  report_enriched_count enriched =
    len (List.filter (fun tx => API_Match (enrich_one product_mapping tx)) txs).
Proof.
  cbv zeta. unfold report_enriched_count, report_failed_products.
  rewrite enriched_count_fold.
  assert (Hf : forall P : Enriched F -> bool,
             map (@base F) (List.filter P (map (enrich_one product_mapping) txs)) =
             List.filter (fun tx => P (enrich_one product_mapping tx)) txs).
  { intros P. induction txs as [|tx l IH]; simpl; [reflexivity|].
    destruct (P (enrich_one product_mapping tx)); simpl; [rewrite enrich_one_base|];
      now rewrite IH. }
  assert (Hlen : forall P : Enriched F -> bool,
             len (List.filter P (map (enrich_one product_mapping) txs)) =
             len (List.filter (fun tx => P (enrich_one product_mapping tx)) txs)).
  { intros P. rewrite <- Hf. unfold len. now rewrite length_map. }
  split; [|split].
  - unfold len at 2. rewrite length_map. fold (len (List.filter (fun tx => negb (API_Match tx))
                                            (map (enrich_one product_mapping) txs))).
    rewrite !Hlen.
    rewrite (len_filter_split (fun tx => API_Match (enrich_one product_mapping tx)) txs). lia.
  - rewrite <- (Hf (fun e => negb (API_Match e))). now rewrite map_map.
  - rewrite Z.add_0_l. apply Hlen.
Qed.

End ReportFacts.

(** ** The best day of the report and the peak day *)




(** ** Every grouping partitions the transactions *)

Lemma sum_Z_map (X Y : Type) (g : X -> Y) (f : Y -> Z) (l : list X) :
  sum_Z f (map g l) = sum_Z (fun x => f (g x)) l.
Proof.
  unfold sum_Z. generalize 0. induction l as [|x l IH]; intros z; simpl; [reflexivity|].
  apply IH.
Qed.

Lemma sum_Z_perm (X : Type) (f : X -> Z) (l l' : list X) :
  Permutation l l' -> sum_Z f l = sum_Z f l'.
Proof. apply (@fold_op_perm Z Z.add 0 Z.add_assoc Z.add_comm Z.add_0_l). Qed.

Lemma sum_Z_ones (X : Type) (l : list X) : sum_Z (fun _ => 1) l = len l.
Proof.
  unfold sum_Z, len. rewrite <- (Z.add_0_l (Z.of_nat (length l))). generalize 0.
  induction l as [|x l IH]; intros z; simpl length; simpl fold_left; [lia|].
  rewrite IH. lia.
Qed.

Section Partition.
Context {F : Type} {A : Arith F}.

Local Abbreviation Tx := (Transaction F).

Local Abbreviation day_init :=
  {| acc_revenue := of_int 0; acc_transaction_count := 0; acc_unique_customers := ∅ |}.
Local Abbreviation day_upd :=
  (fun (tx : Tx) (stats : DayAcc) =>
     {| acc_revenue := acc_revenue stats +! amount tx;
        acc_transaction_count := acc_transaction_count stats + 1;
        acc_unique_customers := {[ CustomerID tx ]} ∪ acc_unique_customers stats |}).
Local Abbreviation customer_init :=
  {| acc_total_spent := of_int 0; acc_purchase_count := 0; acc_products_bought := ∅ |}.
Local Abbreviation customer_upd :=
  (fun (tx : Tx) (stats : CustomerAcc) =>
     {| acc_total_spent := acc_total_spent stats +! amount tx;
        acc_purchase_count := acc_purchase_count stats + 1;
        acc_products_bought := {[ ProductName tx ]} ∪ acc_products_bought stats |}).
Local Abbreviation product_init := {| total_qty := 0; total_revenue := of_int 0 |}.
Local Abbreviation product_upd :=
  (fun (tx : Tx) (stats : ProductStats) =>
     {| total_qty := total_qty stats + Quantity tx;
        total_revenue := total_revenue stats +! amount tx |}).

Lemma sum_F_map (X Y : Type) (g : X -> Y) (f : Y -> F) (l : list X) :
  sum_F f (map g l) = sum_F (fun x => f (g x)) l.
Proof.
  unfold sum_F. generalize (of_int 0). induction l as [|x l IH]; intros z; simpl;
    [reflexivity | apply IH].
Qed.

Lemma sum_F_perm (X : Type) (f : X -> F) (l l' : list X) :
  ExactAdd A -> Permutation l l' -> sum_F f l = sum_F f l'.
Proof.
  intros (Hassoc & Hcomm & Hunit).
  apply (@fold_op_perm F fadd (of_int 0) Hassoc Hcomm Hunit).
Qed.

(** X28.  Every grouping partitions the transactions: the transaction counts of
    the days and the purchase counts of the customers add up to the number of
    transactions, and the quantities of the product groups to the total
    quantity; when addition does not round, the revenues of the days, of the
    customers and of the product groups each add up to the total revenue. *)
Theorem groupings_partition (txs : list Tx) :
  sum_Z (fun kv => day_transaction_count (snd kv)) (daily_sales_trend txs) = len txs /\
  (exists stats,
     customer_analysis txs = Ret stats /\
     sum_Z (fun kv => purchase_count (snd kv)) stats = len txs /\
     (ExactAdd A -> sum_F (fun kv => total_spent (snd kv)) stats = calculate_total_revenue txs)) /\
  sum_Z triple_qty (product_groups txs) = total_quantity txs /\
  (ExactAdd A ->
   sum_F (fun kv => revenue (snd kv)) (daily_sales_trend txs) = calculate_total_revenue txs /\
   sum_F triple_revenue (product_groups txs) = calculate_total_revenue txs).
Proof.
  split; [|split; [|split]].
  - rewrite (sum_Z_perm _ (daily_sales_trend_perm txs)), sum_Z_map. cbn [snd day_transaction_count].
    rewrite <- (sum_Z_ones txs). unfold sum_Z.
    apply (@sum_grouped Z Z.add 0 Z.add_assoc Z.add_comm Z.add_0_l _ _ (@Date F) day_init day_upd
             (@acc_transaction_count F) (fun _ => 1) eq_refl (fun _ _ => eq_refl) txs).
  - eexists. split; [apply customer_analysis_eq|]. split.
    + rewrite (sum_Z_perm _ (sorted_reverse_perm _ _ _)), sum_Z_map. cbn [snd purchase_count].
      rewrite <- (sum_Z_ones txs). unfold sum_Z.
      apply (@sum_grouped Z Z.add 0 Z.add_assoc Z.add_comm Z.add_0_l _ _ (@CustomerID F) customer_init customer_upd
               (@acc_purchase_count F) (fun _ => 1) eq_refl (fun _ _ => eq_refl) txs).
    + intros Hexact.
      rewrite (sum_F_perm _ Hexact (sorted_reverse_perm _ _ _)), sum_F_map.
      cbn [snd total_spent]. destruct Hexact as (Hassoc & Hcomm & Hunit).
      unfold sum_F, calculate_total_revenue.
      apply (@sum_grouped F fadd (of_int 0) Hassoc Hcomm Hunit _ _ (@CustomerID F) customer_init customer_upd
               (@acc_total_spent F) amount eq_refl (fun _ _ => eq_refl) txs).
  - rewrite <- product_stats_groups, product_loop, sum_Z_map. unfold sum_Z, total_quantity.
    apply (@sum_grouped Z Z.add 0 Z.add_assoc Z.add_comm Z.add_0_l _ _ (@ProductName F) product_init product_upd
             (@total_qty F) (@Quantity F) eq_refl (fun _ _ => eq_refl) txs).
  - intros Hexact. split.
    + rewrite (sum_F_perm _ Hexact (daily_sales_trend_perm txs)), sum_F_map.
      cbn [snd revenue]. destruct Hexact as (Hassoc & Hcomm & Hunit).
      unfold sum_F, calculate_total_revenue.
      apply (@sum_grouped F fadd (of_int 0) Hassoc Hcomm Hunit _ _ (@Date F) day_init day_upd
               (@acc_revenue F) amount eq_refl (fun _ _ => eq_refl) txs).
    + rewrite <- product_stats_groups, product_loop, sum_F_map.
      destruct Hexact as (Hassoc & Hcomm & Hunit).
      unfold sum_F, calculate_total_revenue.
      apply (@sum_grouped F fadd (of_int 0) Hassoc Hcomm Hunit _ _ (@ProductName F) product_init product_upd
               (@total_revenue F) amount eq_refl (fun _ _ => eq_refl) txs).
Qed.

End Partition.

(** ** Enrichment of a list that is not empty *)

Lemma enrich_sales_data_nonempty_witness :
  Samples.orders <> [] /\
  forall str_float : float -> string,
  exists enriched,
    returned (enrich_sales_data str_float Samples.orders Samples.catalog) = Ret enriched /\
    map (@base float) enriched = Samples.orders /\
    enriched = map (enrich_one Samples.catalog) Samples.orders /\
    snapshot (enrich_sales_data str_float Samples.orders Samples.catalog)
      = join "|" header :: map (fun e => join "|" (row str_float e)) enriched.
Proof.
  split; [discriminate|]. intros str_float.
  apply enrich_sales_data_nonempty. discriminate.
Defined.
